(** * populate_db.py: synthetic data generation and batched insertion

    Shallow embedding of [populate_db.py].  The script generates fake users,
    products and orders and inserts them, batch by batch, through a remote
    database client.  Python values are modelled by an inductive type, dicts
    by finite maps with string keys, floats by IEEE 754 binary64 numbers,
    the script's effects (random draws, the uniqueness memory of the
    fake-data library, remote calls, console output, exceptions and
    [exit()]) by a state-and-exception monad over an explicit environment of
    oracles. *)

From Stdlib Require Import ZArith QArith Qround Ascii String List Lia.
From Stdlib Require Import SpecFloat.
From stdpp Require Import base list strings pretty gmap.

Local Open Scope string_scope.
Local Open Scope list_scope.
Local Open Scope Z_scope.

(** ** Floats *)

(** A Python [float] is an IEEE 754 binary64 number: precision 53, largest
    exponent 1024.  Its arithmetic is the standard library's executable
    specification of the format, which rounds every result to the nearest
    float, ties to the even mantissa. *)
Definition float : Type := spec_float.

Definition prec : Z := 53.
Definition emax : Z := 1024.

Definition float_add (x y : float) : float := SFadd prec emax x y.
Definition float_sub (x y : float) : float := SFsub prec emax x y.
Definition float_mul (x y : float) : float := SFmul prec emax x y.

(** [x < y] *)
Definition float_lt (x y : float) : bool := SFltb x y.

(** The float of an integer, as a literal such as [2500.0] denotes it. *)
Definition float_of_Z (n : Z) : float := binary_normalize prec emax n 0 false.

(** The float nearest to the decimal [k * 10^-ndigits], negated if [s]:
    what a decimal literal such as [0.01] denotes, and what a decimal string
    is converted to. *)
Definition decimal (s : bool) (k : positive) (ndigits : N) : float :=
  let '(m, e, l) :=
    SFdiv_core_binary prec emax (Zpos k) 0 (10 ^ Z.of_N ndigits) 0 in
  binary_round_aux prec emax s m e l.

(** The rational [m * 2^e]. *)
Definition float_to_Q (m : positive) (e : Z) : Q :=
  match e with
  | Zneg p => Qmake (Zpos m) (2 ^ p)
  | _ => inject_Z (Zpos m * 2 ^ e)
  end.

(** ** Python values and dicts *)

Inductive value :=
| VNone
| VStr (s : string)
| VInt (z : Z)
| VFloat (x : float).

(** A record sent to or returned by the backend is a dict with string keys. *)
Abbreviation record := (gmap string value).

Inductive exn :=
| ValueError (msg : string)
| IndexError (msg : string)
| KeyError (key : string)
| Exception (msg : string)
| SystemExit.

Inductive res (A : Type) :=
| Ok (a : A)
| Err (e : exn).
Arguments Ok {A} a.
Arguments Err {A} e.

(** ** The backend's answer to one [insert(batch).execute()] call *)

(** [resp_data] is [None] when the response has no [data] attribute or the
    attribute is [None]; [resp_error] likewise for [error]. *)
Record response := Response {
  resp_data : option (list record);
  resp_error : option string
}.

(** The call either raises (an instance of [Exception], carried by its
    message) or returns a response object. *)
Inductive outcome :=
| Raises (e : string)
| Returns (r : response).

(** ** Dates, as the fake-data library produces them *)

Record date := Date { year : Z; month : Z; day : Z }.

Record datetime := DateTime {
  dt_date : date; hour : Z; minute : Z; second : Z; microsecond : Z
}.

(** ** Console output, one constructor per [print] of the script *)

Inductive message :=
| MsgOrdersError
| MsgAttempting (n : nat) (table : string) (batch_size : Z)
| MsgBatchInserted (batch_no : Z) (n : nat)
| MsgBatchFailedError (batch_no : Z) (error : string)
| MsgBatchFailedException (batch_no : Z) (e : string)
| MsgFinished (table : string) (total_inserted : Z)
| MsgStarting
| MsgCriticalUsers
| MsgCriticalProducts
| MsgGeneratingOrders (num_orders : Z) (n_users n_products : nat)
| MsgSkippingOrders
| MsgRule
| MsgScriptFinished.

Inductive event :=
| Print (m : message)
| CreateClient (url key : string)
| RemoteInsert (table : string) (batch : list record) (o : outcome).

(** ** The environment: configuration and oracles *)

(** The fake-data library is not part of the script; its providers are
    oracles that map one raw random draw to a value.  [fake_unique_email]
    is the [fake.unique.email] proxy: it sees the addresses already handed
    out since the last [clear()].  The providers are taken to return; the
    proxy giving up for want of an unseen address is outside the model. *)
Record Faker := {
  fake_name : N → string;
  fake_city : N → string;
  fake_bs : N → string;
  fake_word : N → string;
  fake_paragraph : Z → N → string;
  fake_date_between : string → string → N → date;
  fake_date_time_between : string → string → N → datetime;
  fake_unique_email : gset string → N → string
}.

(** The client library is not part of the script either.  Its constructor
    [create_client(url, key)] makes no remote call; it returns a client or
    raises (an instance of [Exception], carried by its message), as it does
    for a URL that is not an http(s) URL.  [supabase] is [None] when the
    client is returned, the message when the constructor raises. *)
Record Env := {
  environ : gmap string string;
  fake : Faker;
  source : nat → N;
  supabase : string → string → option string;
  backend : nat → string → list record → outcome
}.

(** ** The mutable state of a run *)

Record state := State {
  cursor : nat;
  unique_seen : gset string;
  ncalls : nat;
  trace : list event
}.

Definition initial : state :=
  {| cursor := 0; unique_seen := ∅; ncalls := 0; trace := [] |}.

(** ** The monad *)

Definition M (A : Type) : Type := state → res A * state.

Definition ret {A} (a : A) : M A := λ st, (Ok a, st).

Definition raise {A} (e : exn) : M A := λ st, (Err e, st).

Definition bind {A B} (m : M A) (k : A → M B) : M B :=
  λ st, match m st with
        | (Ok a, st') => k a st'
        | (Err e, st') => (Err e, st')
        end.

#[global] Instance M_ret : MRet M := @ret.
#[global] Instance M_bind : MBind M := λ A B k m, bind m k.

Definition print (m : message) : M unit :=
  λ st, (Ok tt, {| cursor := cursor st; unique_seen := unique_seen st;
                   ncalls := ncalls st; trace := trace st ++ [Print m] |}).

Definition emit (ev : event) : M unit :=
  λ st, (Ok tt, {| cursor := cursor st; unique_seen := unique_seen st;
                   ncalls := ncalls st; trace := trace st ++ [ev] |}).

(** [exit()] raises [SystemExit]. *)
Definition exit {A} : M A := raise SystemExit.

(** ** Python built-ins used by the script *)

(** Truthiness of a list, of a string and of an optional attribute. *)
Definition truthy_list {A} (l : list A) : bool :=
  match l with [] => false | _ => true end.

Definition truthy_str (s : string) : bool :=
  match s with EmptyString => false | _ => true end.

Definition truthy_opt {A} (t : A → bool) (o : option A) : bool :=
  match o with Some a => t a | None => false end.

(** [len(range(start, stop, step))], as CPython computes it. *)
Definition range_len (start stop step : Z) : Z :=
  if 0 <? step then
    if start <? stop then (stop - start - 1) / step + 1 else 0
  else
    if stop <? start then (start - stop - 1) / (- step) + 1 else 0.

(** [range(start, stop, step)]; a zero step raises [ValueError]. *)
Definition range (start stop step : Z) : res (list Z) :=
  if step =? 0 then Err (ValueError "range() arg 3 must not be zero")
  else Ok (map (λ k, start + Z.of_nat k * step)
               (seq 0 (Z.to_nat (range_len start stop step)))).

(** Index clamping of a slice bound on a sequence of length [n]. *)
Definition clamp (n i : Z) : Z :=
  if i <? 0 then Z.max 0 (i + n) else Z.min i n.

(** [l[lo:hi]] *)
Definition slice {A} (l : list A) (lo hi : Z) : list A :=
  let n := Z.of_nat (length l) in
  let a := clamp n lo in
  let b := clamp n hi in
  take (Z.to_nat (b - a)) (drop (Z.to_nat a) l).

(** The integer nearest to a rational, ties to even. *)
Definition round_half_even (x : Q) : Z :=
  let f := Qfloor x in
  match Qcompare (x - inject_Z f)%Q (1 # 2)%Q with
  | Lt => f
  | Gt => f + 1
  | Eq => if Z.even f then f else f + 1
  end.

(** [round(x, ndigits)] on a float, for [ndigits >= 0]: the exact value of
    [x] is rounded to the nearest decimal with [ndigits] places, ties to
    even, and that decimal is converted back to the nearest float.  The
    sign of [x] is kept, also on a zero result; infinities and NaN round to
    themselves. *)
Definition round (x : float) (ndigits : N) : float :=
  match x with
  | S754_finite s m e =>
      let scaled := (float_to_Q m e * inject_Z (10 ^ Z.of_N ndigits))%Q in
      match round_half_even scaled with
      | Zpos k => decimal s k ndigits
      | _ => S754_zero s
      end
  | _ => x
  end.

(** [max(a, b)] on floats: [b] if [a < b], else [a]. *)
Definition float_max (a b : float) : float :=
  if float_lt a b then b else a.

(** [str.capitalize()] on ASCII text: first character upper-cased, the rest
    lower-cased. *)
Definition upper (c : ascii) : ascii :=
  let n := nat_of_ascii c in
  if (97 <=? n)%nat && (n <=? 122)%nat then ascii_of_nat (n - 32) else c.

Definition lower (c : ascii) : ascii :=
  let n := nat_of_ascii c in
  if (65 <=? n)%nat && (n <=? 90)%nat then ascii_of_nat (n + 32) else c.

Fixpoint lowercase (s : string) : string :=
  match s with
  | EmptyString => EmptyString
  | String c r => String (lower c) (lowercase r)
  end.

Definition capitalize (s : string) : string :=
  match s with
  | EmptyString => EmptyString
  | String c r => String (upper c) (lowercase r)
  end.

(** [date.isoformat()] and [datetime.isoformat()] (UTC offset). *)
Definition digits (width : nat) (z : Z) : string :=
  let s := pretty z in
  String.concat "" (replicate (width - String.length s) "0") +:+ s.

Definition date_isoformat (d : date) : string :=
  digits 4 (year d) +:+ "-" +:+ digits 2 (month d) +:+ "-" +:+ digits 2 (day d).

Definition datetime_isoformat (t : datetime) : string :=
  date_isoformat (dt_date t) +:+ "T" +:+ digits 2 (hour t) +:+ ":"
    +:+ digits 2 (minute t) +:+ ":" +:+ digits 2 (second t)
    +:+ (if microsecond t =? 0 then "" else "." +:+ digits 6 (microsecond t))
    +:+ "+00:00".

(** [except Exception] catches everything but [SystemExit]. *)
Definition is_Exception (e : exn) : bool :=
  match e with SystemExit => false | _ => true end.

Definition exn_str (e : exn) : string :=
  match e with
  | ValueError m | IndexError m | Exception m => m
  | KeyError k => k
  | SystemExit => ""
  end.

Definition try_except {A} (body : M A) (handler : exn → M A) : M A :=
  λ st, match body st with
        | (Ok a, st') => (Ok a, st')
        | (Err e, st') => if is_Exception e then handler e st' else (Err e, st')
        end.

Definition lift {A} (r : res A) : M A :=
  match r with Ok a => ret a | Err e => raise e end.

(** [for x in xs: acc = body x acc] *)
Fixpoint for_each {A S} (xs : list A) (body : A → S → M S) (acc : S) : M S :=
  match xs with
  | [] => mret acc
  | x :: rest => acc' ← body x acc; for_each rest body acc'
  end.

(** [d[k]] and [k in d] *)
Definition getitem (d : record) (k : string) : M value :=
  match d !! k with
  | Some v => mret v
  | None => raise (KeyError k)
  end.

Definition contains (k : string) (d : record) : bool :=
  match d !! k with Some _ => true | None => false end.

(** ** Configuration constants *)

Definition NUM_USERS : Z := 200.
Definition NUM_PRODUCTS : Z := 500.
Definition NUM_ORDERS : Z := 2500.
Definition BATCH_SIZE : Z := 100.

Section Script.

Context (env : Env).

(** ** Randomness *)

(** One raw draw from the random source. *)
Definition draw : M N :=
  λ st, (Ok (source env (cursor st)),
         {| cursor := S (cursor st); unique_seen := unique_seen st;
            ncalls := ncalls st; trace := trace st |}).

(** [random.randint(a, b)] *)
Definition randint (a b : Z) : M Z :=
  if b <? a then raise (ValueError "empty range for randrange()")
  else d ← draw; mret (a + Z.of_N d mod (b - a + 1)).

(** [random.choice(seq)] *)
Definition choice {A} (l : list A) : M A :=
  match l with
  | [] => raise (IndexError "Cannot choose from an empty sequence")
  | x :: _ => d ← draw; mret (nth (N.to_nat (d mod N.of_nat (length l))) l x)
  end.

(** [random.random()] on the raw draw [d]: the float [n * 2^-53] for a
    53-bit integer [n], a member of [0, 1). *)
Definition random (d : N) : float :=
  binary_normalize prec emax (Z.of_N (d mod 2 ^ 53)) (-53) false.

(** [random.uniform(a, b)] is [a + (b - a) * random()], in floats. *)
Definition uniform (a b : float) : M float :=
  d ← draw;
  mret (float_add a (float_mul (float_sub b a) (random d))).

(** ** The fake-data library *)

Definition fake_call {A} (provider : Faker → N → A) : M A :=
  d ← draw; mret (provider (fake env) d).

(** [fake.unique.email()]: the proxy remembers what it returned. *)
Definition unique_email : M string :=
  λ st, let e := fake_unique_email (fake env) (unique_seen st)
                   (source env (cursor st)) in
        (Ok e, {| cursor := S (cursor st);
                  unique_seen := {[ e ]} ∪ unique_seen st;
                  ncalls := ncalls st; trace := trace st |}).

(** [fake.unique.clear()] *)
Definition unique_clear : M unit :=
  λ st, (Ok tt, {| cursor := cursor st; unique_seen := ∅;
                   ncalls := ncalls st; trace := trace st |}).

(** ** Data generation functions *)

Definition generate_users (count : Z) : M (list record) :=
  idxs ← lift (range 0 count 1);
  users ← for_each idxs (λ _ users,
    signup_date_obj ← fake_call (λ f, fake_date_between f "-2y" "today");
    name ← fake_call fake_name;
    email ← unique_email;
    city ← fake_call fake_city;
    mret (users ++ [ ({[ "name" := VStr name;
                         "email" := VStr email;
                         "city" := VStr city;
                         "signup_date" := VStr (date_isoformat signup_date_obj) ]}
                      : record) ])) [];
  unique_clear;;
  mret users.

Definition categories : list string :=
  ["Electronics"; "Books"; "Clothing"; "Home Goods"; "Grocery"; "Toys";
   "Sports"; "Outdoors"; "Beauty"; "Automotive"].

Definition generate_products (count : Z) : M (list record) :=
  idxs ← lift (range 0 count 1);
  for_each idxs (λ _ products,
    bs ← fake_call fake_bs;
    word ← fake_call fake_word;
    description ← fake_call (λ f, fake_paragraph f 3);
    u ← uniform (float_of_Z 1) (float_of_Z 2500);
    category ← choice categories;
    stock ← randint 0 250;
    mret (products ++ [ ({[ "name" := VStr (capitalize bs +:+ " " +:+ capitalize word);
                            "description" := VStr description;
                            "price" := VFloat (float_max (decimal false 1 2)
                                                         (round u 2));
                            "category" := VStr category;
                            "stock_quantity" := VInt stock ]}
                         : record) ])) [].

Definition statuses : list string :=
  ["pending"; "shipped"; "delivered"; "cancelled"; "returned"].

Definition generate_orders (count : Z) (user_ids product_ids : list value)
  : M (list record) :=
  if negb (truthy_list user_ids) || negb (truthy_list product_ids) then
    print MsgOrdersError;;
    mret []
  else
    idxs ← lift (range 0 count 1);
    for_each idxs (λ _ orders,
      order_date ← fake_call (λ f, fake_date_time_between f "-1y" "now");
      user_id ← choice user_ids;
      product_id ← choice product_ids;
      quantity ← randint 1 8;
      order_status ← choice statuses;
      mret (orders ++ [ ({[ "user_id" := user_id;
                            "product_id" := product_id;
                            "quantity" := VInt quantity;
                            "order_status" := VStr order_status;
                            "order_date" := VStr (datetime_isoformat order_date) ]}
                         : record) ])) [].

(** ** Batch insertion *)

(** [supabase.table(table_name).insert(batch).execute()]: the answer is the
    backend's; the call is recorded in the trace. *)
Definition remote_insert (table_name : string) (batch : list record) : M response :=
  λ st, let o := backend env (ncalls st) table_name batch in
        let st' := {| cursor := cursor st; unique_seen := unique_seen st;
                      ncalls := S (ncalls st);
                      trace := trace st ++ [RemoteInsert table_name batch o] |} in
        match o with
        | Raises e => (Err (Exception e), st')
        | Returns r => (Ok r, st')
        end.

(** The accumulators [inserted_data] and [total_inserted] are threaded
    through the loop as a pair. *)
Definition insert_batch (table_name : string) (data : list record) (batch_size : Z)
    (i : Z) (acc : list record * Z) : M (list record * Z) :=
  let '(inserted_data, total_inserted) := acc in
  let batch := slice data i (i + batch_size) in
  try_except
    (response ← remote_insert table_name batch;
     if truthy_opt truthy_list (resp_data response) then
       let rows := default [] (resp_data response) in
       print (MsgBatchInserted (i / batch_size + 1) (length rows));;
       mret (inserted_data ++ rows, total_inserted + Z.of_nat (length rows))
     else
       if truthy_opt truthy_str (resp_error response) then
         print (MsgBatchFailedError (i / batch_size + 1)
                  (default "" (resp_error response)));;
         mret (inserted_data, total_inserted)
       else mret (inserted_data, total_inserted))
    (λ e,
       print (MsgBatchFailedException (i / batch_size + 1) (exn_str e));;
       mret (inserted_data, total_inserted)).

Definition insert_in_batches (table_name : string) (data : list record)
    (batch_size : Z) : M (list record) :=
  print (MsgAttempting (length data) table_name batch_size);;
  idxs ← lift (range 0 (Z.of_nat (length data)) batch_size);
  acc ← for_each idxs (insert_batch table_name data batch_size) ([], 0);
  print (MsgFinished table_name acc.2);;
  mret acc.1.

(** ** Main execution logic *)

(** [[r['id'] for r in rows if 'id' in r]] *)
Definition ids_of (rows : list record) : M (list value) :=
  for_each rows (λ r ids,
    if contains "id" r then v ← getitem r "id"; mret (ids ++ [v])
    else mret ids) [].

Definition main : M unit :=
  print MsgStarting;;
  users_to_insert ← generate_users NUM_USERS;
  inserted_users_response ← insert_in_batches "users" users_to_insert BATCH_SIZE;
  user_ids ← ids_of inserted_users_response;
  (if negb (truthy_list user_ids) then print MsgCriticalUsers;; exit
   else mret tt);;
  products_to_insert ← generate_products NUM_PRODUCTS;
  inserted_products_response ←
    insert_in_batches "products" products_to_insert BATCH_SIZE;
  product_ids ← ids_of inserted_products_response;
  (if negb (truthy_list product_ids) then print MsgCriticalProducts;; exit
   else mret tt);;
  print (MsgGeneratingOrders NUM_ORDERS (length user_ids) (length product_ids));;
  orders_to_insert ← generate_orders NUM_ORDERS user_ids product_ids;
  (if truthy_list orders_to_insert then
     insert_in_batches "orders" orders_to_insert BATCH_SIZE;; mret tt
   else print MsgSkippingOrders);;
  print MsgRule;;
  print MsgScriptFinished;;
  print MsgRule.

(** [create_client(url, key)]: the constructor's failure is raised, its
    success recorded in the trace. *)
Definition create_client (url key : string) : M unit :=
  match supabase env url key with
  | Some e => raise (Exception e)
  | None => emit (CreateClient url key)
  end.

(** The module body: configuration check, client construction, then the
    main block.  [environ] is the process environment after [load_dotenv()]. *)
Definition script : M unit :=
  let SUPABASE_URL := environ env !! "SUPABASE_URL" in
  let SUPABASE_SERVICE_KEY := environ env !! "SUPABASE_SERVICE_KEY" in
  if negb (truthy_opt truthy_str SUPABASE_URL)
     || negb (truthy_opt truthy_str SUPABASE_SERVICE_KEY) then
    raise (ValueError
      "SUPABASE_URL and SUPABASE_SERVICE_KEY must be set in the .env file")
  else
    create_client (default "" SUPABASE_URL) (default "" SUPABASE_SERVICE_KEY);;
    main.

End Script.

(** * Specification-level vocabulary *)

(** A computation that touches neither the backend nor the console. *)
Definition quiet (st st' : state) : Prop :=
  ncalls st' = ncalls st ∧ trace st' = trace st.

(** The e-mail field of a user record. *)
Definition email_of (u : record) : option value := u !! "email".

(** ** What one batch contributes

    [batch_rows] is what a batch adds to [inserted_data], [batch_log] what
    it prints, as functions of the backend's answer. *)
Definition batch_rows (o : outcome) : list record :=
  match o with
  | Raises _ => []
  | Returns r =>
      if truthy_opt truthy_list (resp_data r) then default [] (resp_data r) else []
  end.

Definition batch_log (batch_no : Z) (o : outcome) : list event :=
  match o with
  | Raises e => [Print (MsgBatchFailedException batch_no e)]
  | Returns r =>
      if truthy_opt truthy_list (resp_data r) then
        [Print (MsgBatchInserted batch_no (length (default [] (resp_data r))))]
      else if truthy_opt truthy_str (resp_error r) then
        [Print (MsgBatchFailedError batch_no (default "" (resp_error r)))]
      else []
  end.

(** The backend's answers to the calls made for the chunk offsets [idxs],
    the first of them being call number [n]. *)
Fixpoint batch_calls (env : Env) (table_name : string) (data : list record)
    (batch_size : Z) (n : nat) (idxs : list Z) : list (Z * outcome) :=
  match idxs with
  | [] => []
  | i :: rest =>
      (i, backend env n table_name (slice data i (i + batch_size)))
        :: batch_calls env table_name data batch_size (S n) rest
  end.

Definition batch_events (table_name : string) (data : list record)
    (batch_size : Z) (call : Z * outcome) : list event :=
  RemoteInsert table_name (slice data call.1 (call.1 + batch_size)) call.2
    :: batch_log (call.1 / batch_size + 1) call.2.

(** The state after [k] remote calls that left the events [evs]. *)
Definition after_calls (st : state) (k : nat) (evs : list event) : state :=
  {| cursor := cursor st; unique_seen := unique_seen st;
     ncalls := (ncalls st + k)%nat; trace := trace st ++ evs |}.

(** The batches handed to the backend, in the order of the trace. *)
Definition submitted (evs : list event) : list (string * list record) :=
  omap (λ ev, match ev with
              | RemoteInsert t b _ => Some (t, b)
              | _ => None
              end) evs.

(** The rows the backend confirmed in answers that carry data. *)
Definition confirmed (evs : list event) : list record :=
  flat_map (λ ev, match ev with
                  | RemoteInsert _ _ o => batch_rows o
                  | _ => []
                  end) evs.

(** [[r['id'] for r in rows if 'id' in r]] as a pure function. *)
Definition id_pool (rows : list record) : list value :=
  omap (λ r, r !! "id") rows.

(** The state after one more printed line. *)
Definition logged (st : state) (m : message) : state :=
  {| cursor := cursor st; unique_seen := unique_seen st;
     ncalls := ncalls st; trace := trace st ++ [Print m] |}.

Definition is_print (ev : event) : Prop :=
  match ev with Print _ => True | _ => False end.

(** The events one call of the inserter may leave: printed lines, and
    remote inserts into its table of batches drawn from its input. *)
Definition inserter_event (table_name : string) (data : list record)
    (ev : event) : Prop :=
  is_print ev ∨ ∃ b o, ev = RemoteInsert table_name b o ∧ b ⊆ data.

(** [v] is the id of a row that the backend returned, in a response
    carrying data, to an insert into [table_name] recorded in [evs]. *)
Definition returned_id (table_name : string) (v : value) (evs : list event) : Prop :=
  ∃ b resp rows row,
    RemoteInsert table_name b (Returns resp) ∈ evs
    ∧ resp_data resp = Some rows
    ∧ truthy_list rows = true
    ∧ row ∈ rows
    ∧ row !! "id" = Some v.

(** Every order submitted in [evs] refers to a user id and to a product id
    that the backend had returned before the order was submitted. *)
Definition orders_grounded (evs : list event) : Prop :=
  ∀ pre b o post ord,
    evs = pre ++ RemoteInsert "orders" b o :: post → ord ∈ b →
    ∃ u p, ord !! "user_id" = Some u ∧ ord !! "product_id" = Some p
         ∧ returned_id "users" u pre ∧ returned_id "products" p pre.

(** ** Floats: vocabulary of the rounding lemmas *)

(** Whether bits have been shifted out of a mantissa. *)
Definition inexact (r : shr_record) : bool := shr_r r || shr_s r.

(** [shifted k r r']: [r'] is [r] shifted right by [k] bits. *)
Definition shifted (k : Z) (r r' : shr_record) : Prop :=
  shr_m r' = shr_m r / 2 ^ k
  ∧ (inexact r' = true → shr_m r mod 2 ^ k ≠ 0 ∨ inexact r = true).

(** A mantissa [m] at an exponent [e <= 0] denotes [m * 2^e].  That this
    number lies between the integers [lo] and [hi] is stated on the
    mantissa, scaled by [2^-e]. *)
Definition between (lo hi m e : Z) : Prop :=
  lo * 2 ^ (- e) ≤ m ≤ hi * 2 ^ (- e).

(** The float stored under [price] for the raw draw [d] (line 66). *)
Definition price_of (d : N) : float :=
  float_max (decimal false 1 2)
    (round (float_add (float_of_Z 1)
              (float_mul (float_sub (float_of_Z 2500) (float_of_Z 1)) (random d))) 2).

(** ** Example environments *)

(** A fake-data library whose providers print the raw draw, whose unique
    proxy returns a fresh address, and a random source that counts. *)
Definition demo_faker : Faker := {|
  fake_name := λ d, "name " +:+ pretty d;
  fake_city := λ d, "city " +:+ pretty d;
  fake_bs := λ d, "bs " +:+ pretty d;
  fake_word := λ d, "word" +:+ pretty d;
  fake_paragraph := λ _ d, "paragraph " +:+ pretty d;
  fake_date_between := λ _ _ d, Date 2025 3 (Z.of_N (d mod 28) + 1);
  fake_date_time_between := λ _ _ d,
    DateTime (Date 2025 3 (Z.of_N (d mod 28) + 1)) 12 0 0 0;
  fake_unique_email := λ seen _, fresh seen
|}.

Definition demo_environ : gmap string string :=
  {[ "SUPABASE_URL" := "https://db.example"; "SUPABASE_SERVICE_KEY" := "secret" ]}.

(** A backend that confirms every row and assigns it an id. *)
Definition echo_backend (n : nat) (table : string) (batch : list record) : outcome :=
  Returns {| resp_data :=
               Some (imap (λ i r, <[ "id" := VInt (Z.of_nat n * 1000 + Z.of_nat i) ]> r) batch);
             resp_error := None |}.

(** A backend that is unreachable. *)
Definition down_backend (n : nat) (table : string) (batch : list record) : outcome :=
  Raises "connection refused".

(** A backend that confirms every row but echoes no id. *)
Definition idless_backend (n : nat) (table : string) (batch : list record) : outcome :=
  Returns {| resp_data := Some batch; resp_error := None |}.

(** A backend that returns rows together with an error indicator. *)
Definition warning_backend (n : nat) (table : string) (batch : list record) : outcome :=
  Returns {| resp_data := Some batch; resp_error := Some "partial failure" |}.

(** A client library that accepts an http or https URL with something
    after the scheme and rejects any other. *)
Definition has_scheme (scheme url : string) : bool :=
  String.prefix scheme url && (String.length scheme <? String.length url)%nat.

Definition demo_supabase (url key : string) : option string :=
  if has_scheme "https://" url || has_scheme "http://" url then None
  else Some "Invalid URL".

Definition demo_env (b : nat → string → list record → outcome) : Env :=
  {| environ := demo_environ; fake := demo_faker;
     source := λ n, (N.of_nat n * 7919 + 13)%N;
     supabase := demo_supabase; backend := b |}.


(** ** Further vocabulary *)


(** A backend that confirms users, with ids, and is unreachable for every
    other table. *)
Definition users_only_backend (n : nat) (table : string) (batch : list record)
  : outcome :=
  if decide (table = "users") then echo_backend n table batch
  else down_backend n table batch.

(** The lines the inserter prints. *)
Definition inserter_message (m : message) : Prop :=
  match m with
  | MsgAttempting _ _ _ | MsgBatchInserted _ _ | MsgBatchFailedError _ _
  | MsgBatchFailedException _ _ | MsgFinished _ _ => True
  | _ => False
  end.

(** The tables of the remote inserts of [evs], in order. *)
Definition tables (evs : list event) : list string := map fst (submitted evs).

(** * Properties *)

(** ** Reasoning about the monad and the built-ins *)

Ltac unfold_M :=
  unfold lift, exit, print, emit, mbind, mret, M_bind, M_ret, bind, ret, raise in *.

Lemma range_len_unit (n : Z) : Z.to_nat (range_len 0 n 1) = Z.to_nat n.
Proof.
  unfold range_len. change (0 <? 1) with true. cbv iota.
  destruct (Z.ltb_spec 0 n) as [Hn | Hn].
  - rewrite Z.div_1_r. lia.
  - lia.
Qed.

Lemma range_unit_length (n : Z) :
  ∃ idxs, range 0 n 1 = Ok idxs ∧ length idxs = Z.to_nat n.
Proof.
  unfold range. change (1 =? 0) with false. cbv iota.
  eexists. split; [reflexivity |].
  rewrite length_map, length_seq. apply range_len_unit.
Qed.

(** A loop whose body never raises runs to the end of its sequence; an
    invariant indexed by the number of completed iterations is carried
    along. *)
Lemma for_each_inv {A S} (P : nat → S → state → Prop) (body : A → S → M S) :
  (∀ n x acc st, P n acc st →
     ∃ acc' st', body x acc st = (Ok acc', st') ∧ P (Datatypes.S n) acc' st') →
  ∀ xs n acc st, P n acc st →
    ∃ acc' st', for_each xs body acc st = (Ok acc', st')
                ∧ P (n + length xs)%nat acc' st'.
Proof.
  intros Hstep xs. induction xs as [| x xs IH]; intros n acc st HP.
  - exists acc, st. split; [reflexivity |]. rewrite Nat.add_0_r. exact HP.
  - destruct (Hstep n x acc st HP) as (acc1 & st1 & Hbody & HP1).
    destruct (IH _ _ _ HP1) as (acc2 & st2 & Hrest & HP2).
    exists acc2, st2. split.
    + simpl. unfold_M. rewrite Hbody. exact Hrest.
    + simpl length. replace (n + Datatypes.S (length xs))%nat
        with (Datatypes.S n + length xs)%nat by lia. exact HP2.
Qed.

Lemma choice_elem_of {A} (l : list A) (x : A) (k : N) :
  l ≠ [] → nth (N.to_nat (k mod N.of_nat (length l))) l x ∈ l.
Proof.
  intros Hl. apply list_elem_of_In, nth_In.
  assert (0 < length l)%nat by (destruct l; [congruence | simpl; lia]).
  assert (k mod N.of_nat (length l) < N.of_nat (length l))%N
    by (apply N.mod_lt; lia).
  lia.
Qed.

(** Run the loop of the goal under invariant [P], from state [st]. *)
Tactic Notation "loop_inv" constr(P) constr(st) simple_intropattern(pat) :=
  match goal with
  | |- context [for_each ?xs ?body ?acc] =>
      let H := fresh in
      assert (H : ∃ acc' st', for_each xs body acc st = (Ok acc', st')
                  ∧ P (0 + length xs)%nat acc' st');
      [ apply (for_each_inv P body)
      | destruct H as pat ]
  end.

Section Generators.

Context (env : Env).

(** *** Users *)

Lemma generate_users_all (Q : record → Prop) (count : Z) (st : state) :
  (∀ name email city date,
     Q {[ "name" := VStr name; "email" := VStr email; "city" := VStr city;
          "signup_date" := VStr date ]}) →
  ∃ users st', generate_users env count st = (Ok users, st')
    ∧ length users = Z.to_nat count ∧ Forall Q users ∧ quiet st st'.
Proof.
  intros HQ. unfold generate_users.
  destruct (range_unit_length count) as (idxs & -> & Hlen).
  unfold_M. cbv beta iota.
  set (P := λ (n : nat) (acc : list record) (s : state),
              length acc = n ∧ Forall Q acc ∧ quiet st s).
  loop_inv P st (users & st1 & Hloop & Hn & Hall & Hq);
    [| | rewrite Hloop].
  - intros n x acc s (Hn & Hall & Hq).
    eexists _, _. split; [reflexivity |]. repeat split.
    + rewrite length_app. simpl. lia.
    + apply Forall_app. split; [exact Hall |]. constructor; [apply HQ | constructor].
    + apply Hq.
    + apply Hq.
  - repeat split. constructor.
  - eexists _, _. split; [reflexivity |]. simpl in Hn. repeat split.
    + lia.
    + exact Hall.
    + apply Hq.
    + apply Hq.
Qed.

(** *** Products *)

Lemma generate_products_all (Q : record → Prop) (count : Z) (st : state) :
  (∀ name description u category d,
     category ∈ categories →
     Q {[ "name" := VStr name; "description" := VStr description;
          "price" := VFloat (price_of u);
          "category" := VStr category;
          "stock_quantity" := VInt (0 + Z.of_N d mod (250 - 0 + 1)) ]}) →
  ∃ products st', generate_products env count st = (Ok products, st')
    ∧ length products = Z.to_nat count ∧ Forall Q products ∧ quiet st st'.
Proof.
  intros HQ. unfold generate_products.
  destruct (range_unit_length count) as (idxs & -> & Hlen).
  unfold_M. cbv beta iota.
  set (P := λ (n : nat) (acc : list record) (s : state),
              length acc = n ∧ Forall Q acc ∧ quiet st s).
  loop_inv P st (products & st1 & Hloop & Hn & Hall & Hq);
    [| | rewrite Hloop].
  - intros n x acc s (Hn & Hall & Hq).
    eexists _, _. split; [reflexivity |]. repeat split.
    + rewrite length_app. simpl. lia.
    + apply Forall_app. split; [exact Hall |].
      constructor; [| constructor]. apply HQ.
      apply (choice_elem_of categories). discriminate.
    + apply Hq.
    + apply Hq.
  - repeat split. constructor.
  - eexists _, _. split; [reflexivity |]. simpl in Hn. repeat split.
    + lia.
    + exact Hall.
    + apply Hq.
    + apply Hq.
Qed.

(** *** Orders *)

Lemma generate_orders_all (Q : record → Prop) (count : Z)
    (user_ids product_ids : list value) (st : state) :
  user_ids ≠ [] → product_ids ≠ [] →
  (∀ user_id product_id d status date,
     user_id ∈ user_ids → product_id ∈ product_ids → status ∈ statuses →
     Q {[ "user_id" := user_id; "product_id" := product_id;
          "quantity" := VInt (1 + Z.of_N d mod (8 - 1 + 1));
          "order_status" := VStr status; "order_date" := VStr date ]}) →
  ∃ orders st', generate_orders env count user_ids product_ids st = (Ok orders, st')
    ∧ length orders = Z.to_nat count ∧ Forall Q orders ∧ quiet st st'.
Proof.
  intros Hu Hp HQ. unfold generate_orders.
  destruct user_ids as [| u0 us]; [congruence |].
  destruct product_ids as [| p0 ps]; [congruence |].
  cbn [truthy_list negb orb].
  destruct (range_unit_length count) as (idxs & -> & Hlen).
  unfold_M. cbv beta iota.
  set (P := λ (n : nat) (acc : list record) (s : state),
              length acc = n ∧ Forall Q acc ∧ quiet st s).
  loop_inv P st (orders & st1 & Hloop & Hn & Hall & Hq);
    [| | rewrite Hloop].
  - intros n x acc s (Hn & Hall & Hq).
    eexists _, _. split; [reflexivity |]. repeat split.
    + rewrite length_app. simpl. lia.
    + apply Forall_app. split; [exact Hall |].
      constructor; [| constructor]. apply HQ.
      * apply (choice_elem_of (u0 :: us)). discriminate.
      * apply (choice_elem_of (p0 :: ps)). discriminate.
      * apply (choice_elem_of statuses). discriminate.
    + apply Hq.
    + apply Hq.
  - repeat split. constructor.
  - eexists _, _. split; [reflexivity |]. simpl in Hn. repeat split.
    + lia.
    + exact Hall.
    + apply Hq.
    + apply Hq.
Qed.

Lemma generate_orders_unmet (count : Z) (user_ids product_ids : list value)
    (st : state) :
  user_ids = [] ∨ product_ids = [] →
  generate_orders env count user_ids product_ids st
  = (Ok [], {| cursor := cursor st; unique_seen := unique_seen st;
               ncalls := ncalls st;
               trace := trace st ++ [Print MsgOrdersError] |}).
Proof.
  intros [-> | ->]; unfold generate_orders.
  - reflexivity.
  - destruct user_ids; reflexivity.
Qed.

End Generators.

(** ** The generators *)

(** C2: for every count N >= 0 each generator returns exactly N records;
    the order generator does so when both id pools are non-empty and
    returns no record otherwise. *)
Theorem generators_produce_count (env : Env) (N : Z) (st : state) :
  0 ≤ N →
  (∃ users st', generate_users env N st = (Ok users, st')
     ∧ Z.of_nat (length users) = N)
  ∧ (∃ products st', generate_products env N st = (Ok products, st')
     ∧ Z.of_nat (length products) = N)
  ∧ (∀ user_ids product_ids, user_ids ≠ [] → product_ids ≠ [] →
     ∃ orders st', generate_orders env N user_ids product_ids st = (Ok orders, st')
       ∧ Z.of_nat (length orders) = N)
  ∧ (∀ user_ids product_ids, user_ids = [] ∨ product_ids = [] →
     ∃ orders st', generate_orders env N user_ids product_ids st = (Ok orders, st')
       ∧ length orders = 0%nat).
Proof.
  intros HN. split; [| split; [| split]].
  - destruct (generate_users_all env (λ _, True) N st) as (us & st' & H & Hlen & _);
      [done |]. exists us, st'. split; [exact H | lia].
  - destruct (generate_products_all env (λ _, True) N st) as (ps & st' & H & Hlen & _);
      [done |]. exists ps, st'. split; [exact H | lia].
  - intros uids pids Hu Hp.
    destruct (generate_orders_all env (λ _, True) N uids pids st Hu Hp)
      as (os & st' & H & Hlen & _); [done |].
    exists os, st'. split; [exact H | lia].
  - intros uids pids Hempty. eexists _, _.
    split; [apply generate_orders_unmet; exact Hempty | reflexivity].
Qed.

Lemma generators_produce_count_witness :
  0 ≤ 3 ∧
  (∃ users st', generate_users (demo_env echo_backend) 3 initial = (Ok users, st')
     ∧ Z.of_nat (length users) = 3).
Proof.
  assert (H : 0 ≤ 3) by lia.
  split; [exact H |].
  exact (proj1 (generators_produce_count (demo_env echo_backend) 3 initial H)).
Defined.

(** C6: with an empty user id pool or an empty product id pool the order
    generator returns the empty list normally (no exception), having only
    printed its error line. *)
Theorem generate_orders_empty_pool (env : Env) (count : Z)
    (user_ids product_ids : list value) (st : state) :
  user_ids = [] ∨ product_ids = [] →
  ∃ st', generate_orders env count user_ids product_ids st = (Ok [], st')
    ∧ trace st' = trace st ++ [Print MsgOrdersError]
    ∧ cursor st' = cursor st ∧ ncalls st' = ncalls st.
Proof.
  intros Hempty. eexists. split; [apply generate_orders_unmet; exact Hempty |].
  split; [reflexivity |]. split; reflexivity.
Qed.

Lemma generate_orders_empty_pool_witness :
  ∃ st', generate_orders (demo_env echo_backend) 5 [] [VInt 7] initial = (Ok [], st')
    ∧ trace st' = trace initial ++ [Print MsgOrdersError]
    ∧ cursor st' = cursor initial ∧ ncalls st' = ncalls initial.
Proof.
  apply (generate_orders_empty_pool (demo_env echo_backend) 5 [] [VInt 7] initial).
  left. reflexivity.
Defined.

(** ** Rounding to a float *)

(** The number of binary digits of a mantissa. *)
Lemma digits2_pos_size (p : positive) : digits2_pos p = Pos.size p.
Proof. induction p as [p IH | p IH |]; simpl; congruence. Qed.

Lemma digits2_pos_gt (p : positive) : Z.pos p < 2 ^ Z.pos (digits2_pos p).
Proof.
  rewrite digits2_pos_size. pose proof (Pos.size_gt p) as H.
  apply Pos2Z.pos_lt_pos in H. rewrite Pos2Z.inj_pow in H. exact H.
Qed.

Lemma digits2_pos_le (p : positive) (k : Z) :
  Z.pos p < 2 ^ k → Z.pos (digits2_pos p) ≤ k.
Proof.
  intros H. rewrite digits2_pos_size. pose proof (Pos.size_le p) as Hle.
  apply Pos2Z.pos_le_pos in Hle. rewrite Pos2Z.inj_pow in Hle.
  destruct (Z_lt_le_dec k 0) as [Hk | Hk];
    [rewrite Z.pow_neg_r in H by exact Hk; lia |].
  assert (Hlt : 2 ^ Z.pos (Pos.size p) < 2 ^ (k + 1)).
  { rewrite Z.pow_add_r by lia. change (2 ^ 1) with 2. lia. }
  apply Z.pow_lt_mono_r_iff in Hlt; lia.
Qed.

Lemma Zdigits2_gt (m : Z) : 0 ≤ m → m < 2 ^ Zdigits2 m.
Proof.
  destruct m as [| p | p]; intros H; [reflexivity | apply digits2_pos_gt | lia].
Qed.

Lemma Zdigits2_le (m k : Z) : 0 ≤ m → 0 ≤ k → m < 2 ^ k → Zdigits2 m ≤ k.
Proof.
  destruct m as [| p | p]; intros H Hk Hlt; [exact Hk | apply digits2_pos_le; exact Hlt | lia].
Qed.

Lemma Zdigits2_lower (m : Z) : 0 < m → 2 ^ (Zdigits2 m - 1) ≤ m.
Proof.
  destruct m as [| p | p]; intros H; [lia | | lia].
  cbn [Zdigits2]. rewrite digits2_pos_size. pose proof (Pos.size_le p) as Hle.
  apply Pos2Z.pos_le_pos in Hle. rewrite Pos2Z.inj_pow in Hle.
  replace (Z.pos (Pos.size p)) with (Z.succ (Z.pos (Pos.size p) - 1)) in Hle by lia.
  rewrite Z.pow_succ_r in Hle by lia. lia.
Qed.

(** A mantissa of [k] binary digits or more. *)
Lemma Zdigits2_ge (m k : Z) : 0 ≤ k → 2 ^ k ≤ m → k < Zdigits2 m.
Proof.
  intros Hk Hm. assert (H0 : 0 < 2 ^ k) by (apply Z.pow_pos_nonneg; lia).
  pose proof (Zdigits2_gt m ltac:(lia)) as Hgt.
  assert (Hlt : 2 ^ k < 2 ^ Zdigits2 m) by lia.
  destruct (Z_lt_le_dec (Zdigits2 m) 0) as [Hneg | Hpos];
    [rewrite (Z.pow_neg_r 2 (Zdigits2 m)) in Hlt by exact Hneg; lia |].
  apply Z.pow_lt_mono_r_iff in Hlt; lia.
Qed.

Lemma inexact_loc (r : shr_record) :
  inexact r = false ↔ loc_of_shr_record r = loc_Exact.
Proof. destruct r as [m [] []]; unfold inexact; simpl; split; congruence. Qed.

Lemma shr_record_of_loc_m (m : Z) (l : location) : shr_m (shr_record_of_loc m l) = m.
Proof. destruct l as [| []]; reflexivity. Qed.

Lemma shr_record_of_loc_inexact (m : Z) (l : location) :
  inexact (shr_record_of_loc m l) = true → l ≠ loc_Exact.
Proof. destruct l as [| []]; unfold inexact; simpl; congruence. Qed.

(** One shift halves the mantissa and remembers the bit it drops. *)
Lemma shr_1_spec (r : shr_record) :
  0 ≤ shr_m r →
  shr_m (shr_1 r) = shr_m r / 2
  ∧ (inexact (shr_1 r) = true → shr_m r mod 2 ≠ 0 ∨ inexact r = true).
Proof.
  destruct r as [m rr ss]. unfold inexact. cbn [shr_m shr_r shr_s]. intros Hm.
  destruct m as [| [p | p |] | p]; try lia; cbn [shr_1 shr_m shr_r shr_s].
  - split; [reflexivity |]. rewrite orb_false_l. auto.
  - split; [rewrite Pos2Z.inj_xI; apply Z.div_unique with 1; lia |].
    intros _. left. rewrite Pos2Z.inj_xI.
    rewrite Z.add_comm, Z.mul_comm, Z.mod_add by lia. discriminate.
  - split; [rewrite Pos2Z.inj_xO; apply Z.div_unique with 0; lia |].
    rewrite orb_false_l. auto.
  - split; [reflexivity |]. intros _. left. discriminate.
Qed.

Lemma shifted_trans (a b : Z) (r1 r2 r3 : shr_record) :
  0 < a → 0 < b → 0 ≤ shr_m r1 →
  shifted a r1 r2 → shifted b r2 r3 → shifted (a + b) r1 r3.
Proof.
  intros Ha Hb Hm [Hm2 Hi2] [Hm3 Hi3].
  assert (Hpa : 0 < 2 ^ a) by (apply Z.pow_pos_nonneg; lia).
  assert (Hpb : 0 < 2 ^ b) by (apply Z.pow_pos_nonneg; lia).
  split.
  - rewrite Hm3, Hm2, Z.pow_add_r, Z.div_div by lia. reflexivity.
  - intros Hi. rewrite Z.pow_add_r by lia.
    destruct (Hi3 Hi) as [Hmod | Hi'].
    + left. intros Hz. apply Hmod. rewrite Hm2.
      apply Z.mod_divide in Hz; [| lia]. destruct Hz as [c Hc].
      replace (c * (2 ^ a * 2 ^ b)) with (c * 2 ^ b * 2 ^ a) in Hc by ring.
      rewrite Hc, Z.div_mul by lia. apply Z.mod_mul. lia.
    + destruct (Hi2 Hi') as [Hmod | Hi'']; [| right; exact Hi''].
      left. intros Hz. apply Hmod.
      apply Z.mod_divide in Hz; [| lia]. destruct Hz as [c Hc].
      replace (c * (2 ^ a * 2 ^ b)) with (c * 2 ^ b * 2 ^ a) in Hc by ring.
      rewrite Hc. apply Z.mod_mul. lia.
Qed.

Lemma shifted_nonneg (k : Z) (r r' : shr_record) :
  0 < k → 0 ≤ shr_m r → shifted k r r' → 0 ≤ shr_m r'.
Proof.
  intros Hk Hm [-> _]. apply Z.div_pos; [exact Hm | apply Z.pow_pos_nonneg; lia].
Qed.

Lemma iter_pos_shr_1 (p : positive) (r : shr_record) :
  0 ≤ shr_m r → shifted (Z.pos p) r (SpecFloat.iter_pos shr_1 p r).
Proof.
  revert r. induction p as [p IH | p IH |]; intros r Hm; cbn [SpecFloat.iter_pos].
  - assert (H1 : shifted 1 r (shr_1 r)) by (apply shr_1_spec; exact Hm).
    assert (Hm1 : 0 ≤ shr_m (shr_1 r))
      by (apply (shifted_nonneg 1 r); [lia | exact Hm | exact H1]).
    pose proof (IH _ Hm1) as H2.
    assert (Hm2 : 0 ≤ shr_m (SpecFloat.iter_pos shr_1 p (shr_1 r)))
      by (apply (shifted_nonneg (Z.pos p) (shr_1 r)); [lia | exact Hm1 | exact H2]).
    pose proof (IH _ Hm2) as H3.
    replace (Z.pos p~1) with (1 + Z.pos p + Z.pos p) by lia.
    eapply shifted_trans; [lia | lia | exact Hm | | exact H3].
    eapply shifted_trans; [lia | lia | exact Hm | exact H1 | exact H2].
  - pose proof (IH _ Hm) as H2.
    assert (Hm2 : 0 ≤ shr_m (SpecFloat.iter_pos shr_1 p r))
      by (apply (shifted_nonneg (Z.pos p) r); [lia | exact Hm | exact H2]).
    pose proof (IH _ Hm2) as H3.
    replace (Z.pos p~0) with (Z.pos p + Z.pos p) by lia.
    eapply shifted_trans; [lia | lia | exact Hm | exact H2 | exact H3].
  - apply shr_1_spec. exact Hm.
Qed.

Lemma iter_xO (m d : positive) : Z.pos (Pos.iter xO m d) = Z.pos m * 2 ^ Z.pos d.
Proof.
  induction d as [| d IH] using Pos.peano_ind.
  - simpl. lia.
  - rewrite Pos.iter_succ, Pos2Z.inj_xO, IH, Pos2Z.inj_succ, Z.pow_succ_r by lia. ring.
Qed.

(** Aligning a mantissa to a smaller exponent does not change the number. *)
Lemma shl_align_spec (m : positive) (e e' : Z) :
  ∃ m', shl_align m e e' = (m', Z.min e e')
    ∧ Z.pos m' = Z.pos m * 2 ^ (e - Z.min e e').
Proof.
  unfold shl_align. destruct (e' - e) as [| d | d] eqn:Hd.
  1, 2: exists m; rewrite Z.min_l by lia; split; [reflexivity |];
    rewrite Z.sub_diag; lia.
  exists (Pos.iter xO m d). rewrite Z.min_r by lia. split; [reflexivity |].
  rewrite iter_xO. f_equal. f_equal. lia.
Qed.

(** *** Rounding keeps a number between two integers *)
Section Between.

Variables lo hi : Z.
Hypothesis Hlo : 0 ≤ lo.
Hypothesis Hhi : hi < 2 ^ 53.

Lemma between_digits (m e : Z) :
  0 ≤ m → e ≤ 0 → m ≤ hi * 2 ^ (- e) → Zdigits2 m + e ≤ 53.
Proof.
  intros Hm He Hle.
  assert (Hp : 0 < 2 ^ (- e)) by (apply Z.pow_pos_nonneg; lia).
  assert (Hlt : m < 2 ^ (53 - e)).
  { replace (53 - e) with (53 + - e) by lia. rewrite Z.pow_add_r by lia.
    eapply Z.le_lt_trans; [exact Hle |]. apply Z.mul_lt_mono_pos_r; assumption. }
  pose proof (Zdigits2_le m (53 - e) Hm ltac:(lia) Hlt). lia.
Qed.

Lemma between_shift (m e n : Z) :
  0 < n → e + n ≤ 0 → between lo hi m e → between lo hi (m / 2 ^ n) (e + n).
Proof.
  intros Hn He [H1 H2]. unfold between.
  assert (Hp : 0 < 2 ^ n) by (apply Z.pow_pos_nonneg; lia).
  replace (- e) with (- (e + n) + n) in H1, H2 by lia.
  rewrite Z.pow_add_r, Z.mul_assoc in H1, H2 by lia.
  split.
  - apply Z.div_le_lower_bound; [exact Hp |]. lia.
  - apply Z.div_le_upper_bound; [exact Hp |]. lia.
Qed.

Lemma shr_fexp_between (m e : Z) (l : location) :
  0 ≤ m → e ≤ 0 → between lo hi m e → (l ≠ loc_Exact → m < hi * 2 ^ (- e)) →
  ∃ r e', shr_fexp prec emax m e l = (r, e')
    ∧ e ≤ e' ≤ 0 ∧ 0 ≤ shr_m r ∧ between lo hi (shr_m r) e'
    ∧ (inexact r = true → shr_m r < hi * 2 ^ (- e'))
    ∧ shr_m r < 2 ^ 53.
Proof.
  intros Hm He Hb Hl.
  pose proof (between_digits m e Hm He (proj2 Hb)) as Hd.
  pose proof (Zdigits2_gt m Hm) as Hgt.
  unfold shr_fexp, shr.
  assert (Hfexp : fexp prec emax (Zdigits2 m + e)
                  = Z.max (Zdigits2 m + e - 53) (-1074)) by reflexivity.
  destruct (fexp prec emax (Zdigits2 m + e) - e) as [| n | n] eqn:Hn.
  1, 3: eexists _, _; split; [reflexivity |]; rewrite shr_record_of_loc_m;
    split; [lia |]; split; [exact Hm |]; split; [exact Hb |];
    split; [intros Hi; apply Hl; exact (shr_record_of_loc_inexact _ _ Hi) |];
    eapply Z.lt_le_trans; [exact Hgt |]; apply Z.pow_le_mono_r; lia.
  pose proof (iter_pos_shr_1 n (shr_record_of_loc m l)) as Hs.
  rewrite shr_record_of_loc_m in Hs. destruct (Hs Hm) as [Hm' Hi'].
  rewrite shr_record_of_loc_m in Hm', Hi'.
  assert (Hp : 0 < 2 ^ Z.pos n) by (apply Z.pow_pos_nonneg; lia).
  assert (He' : e + Z.pos n ≤ 0) by lia.
  eexists _, _. split; [reflexivity |]. rewrite Hm'.
  split; [lia |]. split; [apply Z.div_pos; lia |].
  split; [apply between_shift; [lia | exact He' | exact Hb] |]. split.
  - intros Hi. apply Z.div_lt_upper_bound; [exact Hp |].
    destruct Hb as [_ Hb].
    replace (- e) with (- (e + Z.pos n) + Z.pos n) in Hb, Hl by lia.
    rewrite Z.pow_add_r, Z.mul_assoc in Hb, Hl by lia.
    destruct (Hi' Hi) as [Hmod | Hin].
    + assert (m ≠ hi * 2 ^ (- (e + Z.pos n)) * 2 ^ Z.pos n)
        by (intros ->; apply Hmod; apply Z.mod_mul; lia).
      lia.
    + pose proof (Hl (shr_record_of_loc_inexact _ _ Hin)). lia.
  - apply Z.div_lt_upper_bound; [exact Hp |].
    eapply Z.lt_le_trans; [exact Hgt |].
    rewrite <- Z.pow_add_r by lia. apply Z.pow_le_mono_r; lia.
Qed.

Lemma round_nearest_even_between (r : shr_record) (e : Z) :
  between lo hi (shr_m r) e → (inexact r = true → shr_m r < hi * 2 ^ (- e)) →
  between lo hi (round_nearest_even (shr_m r) (loc_of_shr_record r)) e
  ∧ shr_m r ≤ round_nearest_even (shr_m r) (loc_of_shr_record r).
Proof.
  intros [H1 H2] Hi. unfold between, round_nearest_even.
  destruct r as [m [] []]; unfold inexact in Hi; cbn [shr_m shr_r shr_s orb] in *;
    cbn [loc_of_shr_record]; try destruct (Z.even m); try lia;
    specialize (Hi eq_refl); lia.
Qed.

(** The float that [binary_round_aux] returns for a number between [lo]
    and [hi] is finite (or zero), has a mantissa below 2^53 and lies
    between [lo] and [hi]. *)
Lemma binary_round_aux_between (s : bool) (m e : Z) (l : location) :
  0 ≤ m → e ≤ 0 → between lo hi m e → (l ≠ loc_Exact → m < hi * 2 ^ (- e)) →
  (binary_round_aux prec emax s m e l = S754_zero s ∧ lo = 0)
  ∨ ∃ m' e', binary_round_aux prec emax s m e l = S754_finite s m' e'
      ∧ e ≤ e' ≤ 0 ∧ between lo hi (Z.pos m') e' ∧ Z.pos m' < 2 ^ 53.
Proof.
  intros Hm He Hb Hl. unfold binary_round_aux.
  destruct (shr_fexp_between m e l Hm He Hb Hl)
    as (r1 & e1 & -> & He1 & Hm1 & Hb1 & Hi1 & _).
  destruct (round_nearest_even_between r1 e1 Hb1 Hi1) as [Hb2 Hle].
  set (m2 := round_nearest_even (shr_m r1) (loc_of_shr_record r1)) in *.
  destruct (shr_fexp_between m2 e1 loc_Exact ltac:(lia) ltac:(lia) Hb2
              ltac:(congruence)) as (r3 & e3 & -> & He3 & Hm3 & Hb3 & _ & Hc3).
  destruct (shr_m r3) as [| m3 | m3] eqn:Hr3; [| | lia].
  - left. split; [reflexivity |]. destruct Hb3 as [Hb3 _].
    assert (Hp : 0 < 2 ^ (- e3)) by (apply Z.pow_pos_nonneg; lia). nia.
  - right. exists m3, e3.
    assert (Hle3 : (e3 <=? emax - prec) = true) by (apply Z.leb_le; unfold emax, prec; lia).
    rewrite Hle3. split; [reflexivity |]. split; [lia |].
    split; [exact Hb3 | exact Hc3].
Qed.

Lemma between_align (m e e' : Z) :
  e' ≤ e → e ≤ 0 → between lo hi m e → between lo hi (m * 2 ^ (e - e')) e'.
Proof.
  intros He' He [H1 H2]. unfold between.
  assert (Hp : 0 < 2 ^ (e - e')) by (apply Z.pow_pos_nonneg; lia).
  replace (- e') with (- e + (e - e')) by lia.
  rewrite Z.pow_add_r, !Z.mul_assoc by lia. split; nia.
Qed.

Lemma binary_round_between (s : bool) (m : positive) (e : Z) :
  e ≤ 0 → between lo hi (Z.pos m) e →
  (binary_round prec emax s m e = S754_zero s ∧ lo = 0)
  ∨ ∃ m' e', binary_round prec emax s m e = S754_finite s m' e'
      ∧ e' ≤ 0 ∧ between lo hi (Z.pos m') e' ∧ Z.pos m' < 2 ^ 53.
Proof.
  intros He Hb. unfold binary_round.
  destruct (shl_align_spec m e (fexp prec emax (Z.pos (digits2_pos m) + e)))
    as (mz & -> & Hmz).
  set (ez := Z.min e (fexp prec emax (Z.pos (digits2_pos m) + e))) in *.
  assert (Hez : ez ≤ e) by (apply Z.le_min_l).
  destruct (binary_round_aux_between s (Z.pos mz) ez loc_Exact)
    as [Hz | (m' & e' & Hr & He' & Hb' & Hc')];
    [lia | lia | rewrite Hmz; apply between_align; assumption | congruence | |].
  - left. exact Hz.
  - right. exists m', e'. split; [exact Hr |]. split; [lia |].
    split; [exact Hb' | exact Hc'].
Qed.

End Between.

(** *** Rounding a mantissa of 53 bits or more

    The result is normal, and off the input by less than one unit of its
    last place. *)
Lemma fexp_normal (x : Z) : -1021 ≤ x - 53 → fexp prec emax x = x - 53.
Proof. unfold fexp, emin, prec, emax. lia. Qed.

Lemma shr_fexp_normal (m e : Z) (l : location) :
  2 ^ 52 ≤ m → -1021 ≤ e →
  ∃ t r, shr_fexp prec emax m e l = (r, e + t)
    ∧ 0 ≤ t ∧ t = Zdigits2 m - 53
    ∧ shr_m r = m / 2 ^ t ∧ 2 ^ 52 ≤ shr_m r < 2 ^ 53.
Proof.
  intros Hm He.
  pose proof (Zdigits2_ge m 52 ltac:(lia) Hm) as Hd.
  pose proof (Zdigits2_gt m ltac:(lia)) as Hgt.
  pose proof (Zdigits2_lower m ltac:(lia)) as Hlow.
  unfold shr_fexp, shr. rewrite fexp_normal by lia.
  replace (Zdigits2 m + e - 53 - e) with (Zdigits2 m - 53) by lia.
  destruct (Zdigits2 m - 53) as [| n | n] eqn:Hn; [| | lia].
  - exists 0, (shr_record_of_loc m l). rewrite Z.add_0_r, shr_record_of_loc_m.
    split; [reflexivity |]. split; [lia |]. split; [reflexivity |].
    split; [rewrite Z.div_1_r; reflexivity |].
    replace (Zdigits2 m) with 53 in Hgt by lia. lia.
  - pose proof (iter_pos_shr_1 n (shr_record_of_loc m l)) as Hs.
    rewrite shr_record_of_loc_m in Hs. destruct (Hs ltac:(lia)) as [Hm' _].
    rewrite shr_record_of_loc_m in Hm'.
    assert (Hp : 0 < 2 ^ Z.pos n) by (apply Z.pow_pos_nonneg; lia).
    exists (Z.pos n), (SpecFloat.iter_pos shr_1 n (shr_record_of_loc m l)).
    split; [reflexivity |]. split; [lia |]. split; [reflexivity |].
    split; [exact Hm' |]. rewrite Hm'.
    replace (Zdigits2 m - 1) with (52 + Z.pos n) in Hlow by lia.
    replace (Zdigits2 m) with (53 + Z.pos n) in Hgt by lia.
    rewrite Z.pow_add_r in Hlow, Hgt by lia. split.
    + apply Z.div_le_lower_bound; [exact Hp |]. lia.
    + apply Z.div_lt_upper_bound; [exact Hp |]. lia.
Qed.

Lemma round_nearest_even_near (m : Z) (l : location) :
  m ≤ round_nearest_even m l ≤ m + 1.
Proof. destruct l as [| []]; simpl; try destruct (Z.even m); lia. Qed.

Lemma binary_round_aux_normal (s : bool) (m e : Z) (l : location) :
  2 ^ 52 ≤ m → -1021 ≤ e →
  ∃ m' t, 0 ≤ t ∧ 2 ^ 52 ≤ Z.pos m' < 2 ^ 53
    ∧ m - 2 ^ t < Z.pos m' * 2 ^ t ≤ m + 2 ^ t
    ∧ binary_round_aux prec emax s m e l
      = if e + t <=? emax - prec then S754_finite s m' (e + t) else S754_infinity s.
Proof.
  intros Hm He. unfold binary_round_aux.
  destruct (shr_fexp_normal m e l Hm He) as (t1 & r1 & -> & Ht1 & _ & Hm1 & Hr1).
  pose proof (round_nearest_even_near (shr_m r1) (loc_of_shr_record r1)) as Hnear.
  set (m2 := round_nearest_even (shr_m r1) (loc_of_shr_record r1)) in *.
  destruct (shr_fexp_normal m2 (e + t1) loc_Exact ltac:(lia) ltac:(lia))
    as (t2 & r3 & -> & Ht2 & Hd2 & Hm3 & Hr3).
  assert (Hp1 : 0 < 2 ^ t1) by (apply Z.pow_pos_nonneg; lia).
  assert (Hdiv : shr_m r1 * 2 ^ t1 ≤ m < (shr_m r1 + 1) * 2 ^ t1).
  { rewrite Hm1. pose proof (Z.div_mod m (2 ^ t1) ltac:(lia)) as Hdm.
    pose proof (Z.mod_pos_bound m (2 ^ t1) Hp1). lia. }
  assert (Hexact : t2 = 0 ∧ shr_m r3 = m2 ∨ t2 = 1 ∧ shr_m r3 * 2 = m2).
  { destruct (Z_lt_le_dec m2 (2 ^ 53)) as [Hlt | Hge].
    - left. pose proof (Zdigits2_le m2 53 ltac:(lia) ltac:(lia) Hlt).
      assert (Ht0 : t2 = 0) by lia. split; [exact Ht0 |].
      rewrite Hm3, Ht0, Z.div_1_r. reflexivity.
    - right. assert (Hm2 : m2 = 2 ^ 53) by lia.
      assert (Ht0 : t2 = 1) by (rewrite Hd2, Hm2; reflexivity).
      split; [exact Ht0 |]. rewrite Hm3, Ht0, Hm2. reflexivity. }
  destruct (shr_m r3) as [| m3 | m3] eqn:Hs3; [lia | | lia].
  exists m3, (t1 + t2). split; [lia |]. split; [exact Hr3 |]. split.
  - rewrite Z.pow_add_r by lia.
    destruct Hexact as [[-> Hx] | [-> Hx]]; [change (2 ^ 0) with 1 | change (2 ^ 1) with 2]; nia.
  - rewrite Z.add_assoc. reflexivity.
Qed.

(** *** The price of a product *)

Lemma float_one : float_of_Z 1 = S754_finite false 4503599627370496 (-52).
Proof. reflexivity. Qed.

Lemma float_span :
  float_sub (float_of_Z 2500) (float_of_Z 1) = S754_finite false 5495359115624448 (-41).
Proof. reflexivity. Qed.

Lemma float_cent : decimal false 1 2 = S754_finite false 5764607523034235 (-59).
Proof. reflexivity. Qed.

(** [random()] is zero or a positive float, at most 1. *)
Lemma random_between (d : N) :
  random d = S754_zero false
  ∨ ∃ m e, random d = S754_finite false m e ∧ e ≤ 0 ∧ Z.pos m ≤ 2 ^ (- e).
Proof.
  unfold random, binary_normalize.
  assert (Hd : (d mod 2 ^ 53 < 2 ^ 53)%N) by (apply N.mod_lt; discriminate).
  apply N2Z.inj_lt in Hd. change (Z.of_N (2 ^ 53)) with (2 ^ 53) in Hd.
  pose proof (N2Z.is_nonneg (d mod 2 ^ 53)) as H0.
  destruct (Z.of_N (d mod 2 ^ 53)) as [| p | p]; [left; reflexivity | | lia].
  destruct (binary_round_between 0 1 ltac:(lia) ltac:(reflexivity) false p (-53))
    as [[Hz _] | (m & e & Hr & He & [_ Hb] & _)].
  - lia.
  - unfold between. change (- -53) with 53. lia.
  - left. exact Hz.
  - right. exists m, e. split; [exact Hr |]. split; [exact He | lia].
Qed.

(** [(2500.0 - 1.0) * random()] is zero or a positive float, at most 2499. *)
Lemma product_between (d : N) :
  let y := float_mul (float_sub (float_of_Z 2500) (float_of_Z 1)) (random d) in
  y = S754_zero false
  ∨ ∃ m e, y = S754_finite false m e ∧ e ≤ 0 ∧ Z.pos m ≤ 2499 * 2 ^ (- e).
Proof.
  cbv zeta. rewrite float_span.
  destruct (random_between d) as [-> | (m & e & -> & He & Hm)]; [left; reflexivity |].
  unfold float_mul, SFmul. cbn [xorb].
  destruct (binary_round_aux_between 0 2499 ltac:(lia) ltac:(reflexivity) false
              (Z.pos (5495359115624448 * m)) (-41 + e) loc_Exact)
    as [[Hz _] | (m' & e' & Hr & He' & [_ Hb] & _)].
  - lia.
  - lia.
  - unfold between. rewrite Pos2Z.inj_mul.
    change (Z.pos 5495359115624448) with (2499 * 2 ^ 41).
    replace (- (-41 + e)) with (41 + - e) by lia. rewrite Z.pow_add_r by lia.
    assert (0 < 2 ^ 41) by reflexivity. nia.
  - congruence.
  - left. exact Hz.
  - right. exists m', e'. split; [exact Hr |]. split; [lia | exact Hb].
Qed.

(** [uniform(1.0, 2500.0)] is a finite float between 1 and 2500. *)
Lemma uniform_between (d : N) :
  ∃ m e,
    float_add (float_of_Z 1)
      (float_mul (float_sub (float_of_Z 2500) (float_of_Z 1)) (random d))
    = S754_finite false m e
    ∧ e ≤ 0 ∧ between 1 2500 (Z.pos m) e.
Proof.
  destruct (product_between d) as [Hy | (my & ey & Hy & Hey & Hmy)];
    cbv zeta in Hy; rewrite Hy, float_one.
  - eexists _, _. split; [reflexivity |]. unfold between. split; [lia |].
    split; reflexivity || discriminate.
  - unfold float_add, SFadd. cbn [cond_Zopp].
    set (ez := Z.min (-52) ey).
    destruct (shl_align_spec 4503599627370496 (-52) ez) as (m1 & -> & Hm1).
    destruct (shl_align_spec my ey ez) as (m2 & -> & Hm2).
    cbn [fst]. rewrite <- Pos2Z.inj_add. cbn [binary_normalize].
    assert (Hez1 : Z.min (-52) ez = ez) by (subst ez; lia).
    assert (Hez2 : Z.min ey ez = ez) by (subst ez; lia).
    rewrite Hez1 in Hm1. rewrite Hez2 in Hm2.
    assert (Hez : ez ≤ -52) by (subst ez; lia).
    assert (H1 : Z.pos m1 = 2 ^ (- ez)).
    { rewrite Hm1. change (Z.pos 4503599627370496) with (2 ^ 52).
      rewrite <- Z.pow_add_r by lia. f_equal. lia. }
    assert (H2 : Z.pos m2 ≤ 2499 * 2 ^ (- ez)).
    { rewrite Hm2. replace (- ez) with (- ey + (ey - ez)) by lia.
      rewrite Z.pow_add_r by lia.
      assert (0 < 2 ^ (ey - ez)) by (apply Z.pow_pos_nonneg; lia). nia. }
    destruct (binary_round_between 1 2500 ltac:(lia) ltac:(reflexivity) false
                (m1 + m2) ez) as [[_ Hz] | (m & e & Hr & He & Hb & _)].
    + lia.
    + unfold between. rewrite Pos2Z.inj_add. lia.
    + discriminate.
    + exists m, e. split; [exact Hr |]. split; [exact He | exact Hb].
Qed.

Lemma round_half_even_bounds (x : Q) (a b : Z) :
  (inject_Z a <= x)%Q → (x <= inject_Z b)%Q → a ≤ round_half_even x ≤ b.
Proof.
  intros Ha Hb. unfold round_half_even.
  pose proof (Qfloor_le x) as Hfl. pose proof (Qlt_floor x) as Hlt.
  set (f := Qfloor x) in *.
  assert (Haf : a ≤ f).
  { assert (H : (inject_Z a < inject_Z (f + 1))%Q) by (eapply Qle_lt_trans; eassumption).
    rewrite <- Zlt_Qlt in H. lia. }
  assert (Hfb : f ≤ b).
  { assert (H : (inject_Z f <= inject_Z b)%Q) by (eapply Qle_trans; eassumption).
    rewrite <- Zle_Qle in H. exact H. }
  assert (Hup : (inject_Z f < x)%Q → f + 1 ≤ b).
  { intros H. assert (H' : (inject_Z f < inject_Z b)%Q) by (eapply Qlt_le_trans; eassumption).
    rewrite <- Zlt_Qlt in H'. lia. }
  destruct (Qcompare_spec (x - inject_Z f) (1 # 2)) as [Heq | Hcmp | Hcmp].
  - destruct (Z.even f); [lia |]. split; [lia |]. apply Hup.
    apply Qlt_minus_iff. unfold Qminus in Heq. rewrite Heq. reflexivity.
  - lia.
  - split; [lia |]. apply Hup. apply Qlt_minus_iff. unfold Qminus in Hcmp.
    eapply Qlt_trans; [| exact Hcmp]. reflexivity.
Qed.

(** The exact value of a float between [lo] and [hi]. *)
Lemma float_to_Q_between (lo hi : Z) (m : positive) (e : Z) :
  e ≤ 0 → between lo hi (Z.pos m) e →
  (inject_Z lo <= float_to_Q m e)%Q ∧ (float_to_Q m e <= inject_Z hi)%Q.
Proof.
  intros He [H1 H2]. unfold float_to_Q, Qle, inject_Z.
  destruct e as [| p | p]; [| lia |]; cbn [Qnum Qden].
  - change (- 0) with 0 in H1, H2. lia.
  - change (- Z.neg p) with (Z.pos p) in H1, H2.
    rewrite Pos2Z.inj_pow. lia.
Qed.

(** [round(x, 2)] of a float between 1 and 2500 is the float of a decimal
    between 1.00 and 2500.00. *)
Lemma round_between (m : positive) (e : Z) :
  e ≤ 0 → between 1 2500 (Z.pos m) e →
  ∃ k, round (S754_finite false m e) 2 = decimal false k 2
     ∧ 100 ≤ Z.pos k ≤ 250000.
Proof.
  intros He Hb. destruct (float_to_Q_between 1 2500 m e He Hb) as [H1 H2].
  unfold round. cbv zeta. change (10 ^ Z.of_N 2) with 100.
  set (x := (float_to_Q m e * inject_Z 100)%Q).
  assert (Hx1 : (inject_Z 100 <= x)%Q).
  { subst x. setoid_replace (inject_Z 100) with (inject_Z 1 * inject_Z 100)%Q
      using relation Qeq at 1 by reflexivity.
    apply Qmult_le_compat_r; [exact H1 | discriminate]. }
  assert (Hx2 : (x <= inject_Z 250000)%Q).
  { subst x. setoid_replace (inject_Z 250000) with (inject_Z 2500 * inject_Z 100)%Q
      using relation Qeq by reflexivity.
    apply Qmult_le_compat_r; [exact H2 | discriminate]. }
  pose proof (round_half_even_bounds x 100 250000 Hx1 Hx2) as Hk.
  destruct (round_half_even x) as [| k | k]; [lia | | lia].
  exists k. split; [reflexivity | exact Hk].
Qed.

(** The float of a decimal with two places between [lo] and [hi] is
    finite, has a mantissa below 2^53 and lies between [lo] and [hi]. *)
Lemma decimal_between (lo hi : Z) (s : bool) (k : positive) :
  0 < lo → hi < 2 ^ 53 → lo * 100 ≤ Z.pos k ≤ hi * 100 →
  ∃ m e, decimal s k 2 = S754_finite s m e
    ∧ e ≤ 0 ∧ between lo hi (Z.pos m) e ∧ Z.pos m < 2 ^ 53.
Proof.
  intros Hlo Hhi Hk. unfold decimal, SFdiv_core_binary.
  change (10 ^ Z.of_N 2) with 100. change (Zdigits2 100) with 7.
  set (e' := Z.min (fexp prec emax (Zdigits2 (Z.pos k) + 0 - (7 + 0))) (0 - 0)).
  assert (He' : e' ≤ 0) by (subst e'; lia).
  set (m' := match 0 - 0 - e' with
             | 0 => Z.pos k
             | Z.pos _ => Z.shiftl (Z.pos k) (0 - 0 - e')
             | Z.neg _ => 0
             end).
  assert (Hm' : m' = Z.pos k * 2 ^ (- e')).
  { subst m'. replace (0 - 0 - e') with (- e') by lia.
    destruct (- e') as [| p | p] eqn:Hp; [lia | | lia].
    rewrite Z.shiftl_mul_pow2 by lia. reflexivity. }
  assert (Hp : 0 < 2 ^ (- e')) by (apply Z.pow_pos_nonneg; lia).
  pose proof (Z_div_mod m' 100 eq_refl) as Hdiv.
  destruct (Z.div_eucl m' 100) as [q r]. destruct Hdiv as [Hq Hr].
  assert (Hloc : new_location 100 r ≠ loc_Exact → r ≠ 0).
  { intros Hl ->. apply Hl. reflexivity. }
  destruct (binary_round_aux_between lo hi ltac:(lia) Hhi s q e' (new_location 100 r))
    as [[_ Hz] | (m & e & Hres & He & Hb & Hc)].
  - nia.
  - exact He'.
  - unfold between. nia.
  - intros Hl. apply Hloc in Hl. nia.
  - lia.
  - exists m, e. split; [exact Hres |]. split; [lia |]. split; [exact Hb | exact Hc].
Qed.

(** A rational nearer than one half to the integer [k] rounds to [k]. *)
Lemma round_half_even_near (n : Z) (d : positive) (k : Z) :
  2 * Z.abs (n - k * Z.pos d) < Z.pos d → round_half_even (n # d) = k.
Proof.
  intros H. unfold round_half_even.
  change (Qfloor (n # d)) with (n / Z.pos d).
  pose proof (Z.div_mod n (Z.pos d) ltac:(lia)) as Hdm.
  pose proof (Z.mod_pos_bound n (Z.pos d) ltac:(lia)) as Hr.
  set (f := n / Z.pos d) in *. set (r := n mod Z.pos d) in *.
  assert (Hf : f = k ∧ 2 * r < Z.pos d ∨ f = k - 1 ∧ Z.pos d < 2 * r).
  { destruct (Z.lt_trichotomy f k) as [Hlt | [Heq | Hgt]].
    - right. assert (f = k - 1) by nia. split; [assumption | nia].
    - left. split; [assumption | nia].
    - exfalso. nia. }
  unfold Qcompare, Qminus, Qplus, Qopp, inject_Z. cbn [Qnum Qden].
  rewrite Pos2Z.inj_mul.
  match goal with |- context [?a ?= ?b] => destruct (Z.compare_spec a b) end;
    destruct Hf as [[Hf Hr'] | [Hf Hr']]; try destruct (Z.even f); lia.
Qed.

(** The quotient that [decimal] rounds: it has 53 or 54 bits. *)
Lemma decimal_core (k : positive) :
  Z.pos k < 2 ^ 60 →
  ∃ q r e, SFdiv_core_binary prec emax (Z.pos k) 0 100 0 = (q, e, new_location 100 r)
    ∧ -59 ≤ e ≤ 0 ∧ Z.pos k * 2 ^ (- e) = 100 * q + r ∧ 0 ≤ r < 100
    ∧ 2 ^ 52 ≤ q.
Proof.
  intros Hk. unfold SFdiv_core_binary. change (Zdigits2 100) with 7.
  pose proof (Zdigits2_le (Z.pos k) 60 ltac:(lia) ltac:(lia) Hk) as Hd.
  pose proof (Zdigits2_lower (Z.pos k) ltac:(lia)) as Hlow.
  assert (Hd1 : 1 ≤ Zdigits2 (Z.pos k)) by (cbn [Zdigits2]; lia).
  set (d := Zdigits2 (Z.pos k)) in *.
  assert (He : Z.min (fexp prec emax (d + 0 - (7 + 0))) (0 - 0) = d - 60)
    by (unfold fexp, emin, prec, emax; lia).
  rewrite He.
  set (m := match 0 - 0 - (d - 60) with
            | 0 => Z.pos k
            | Z.pos _ => Z.shiftl (Z.pos k) (0 - 0 - (d - 60))
            | Z.neg _ => 0
            end).
  assert (Hm : m = Z.pos k * 2 ^ (- (d - 60))).
  { subst m. replace (0 - 0 - (d - 60)) with (- (d - 60)) by lia.
    destruct (- (d - 60)) as [| p | p] eqn:Hp; [lia | | lia].
    rewrite Z.shiftl_mul_pow2 by lia. reflexivity. }
  pose proof (Z_div_mod m 100 eq_refl) as Hdiv.
  destruct (Z.div_eucl m 100) as [q r]. destruct Hdiv as [Hq Hr].
  exists q, r, (d - 60). split; [reflexivity |]. split; [lia |].
  split; [rewrite <- Hm; exact Hq |]. split; [lia |].
  assert (Hbig : 2 ^ 59 ≤ m).
  { rewrite Hm. replace 59 with (d - 1 + - (d - 60)) by lia.
    rewrite Z.pow_add_r by lia.
    apply Z.mul_le_mono_nonneg_r; [apply Z.pow_nonneg; lia | exact Hlow]. }
  change (2 ^ 59) with 576460752303423488 in Hbig.
  change (2 ^ 52) with 4503599627370496. lia.
Qed.

(** The float of a decimal between 1.00 and 2500.00 is off the decimal by
    far less than half a hundredth. *)
Lemma decimal_near (k : positive) :
  100 ≤ Z.pos k ≤ 250000 →
  ∃ m p, decimal false k 2 = S754_finite false m (Z.neg p)
    ∧ 2 ^ 52 ≤ Z.pos m < 2 ^ 53 ∧ 41 ≤ Z.pos p
    ∧ 2 * Z.abs (Z.pos m * 100 - Z.pos k * Z.pos (2 ^ p)) < Z.pos (2 ^ p).
Proof.
  intros Hk.
  destruct (decimal_between 1 2500 false k ltac:(lia) ltac:(reflexivity) ltac:(lia))
    as (m & e & Hdec & He & [_ Hb] & _).
  destruct (decimal_core k ltac:(lia)) as (q & r & e' & Hcore & He' & Hq & Hr & Hq52).
  pose proof Hdec as Hfin.
  unfold decimal in Hdec. change (10 ^ Z.of_N 2) with 100 in Hdec.
  rewrite Hcore in Hdec.
  destruct (binary_round_aux_normal false q e' (new_location 100 r) Hq52 ltac:(lia))
    as (m' & t & Ht & Hm' & Herr & Hres).
  rewrite Hres in Hdec.
  destruct (e' + t <=? emax - prec); [| discriminate].
  injection Hdec as -> <-.
  assert (Hp : 0 < 2 ^ (- (e' + t))) by (apply Z.pow_pos_nonneg; lia).
  assert (Hlt : 2 ^ 52 < 2 ^ (12 + - (e' + t))).
  { rewrite Z.pow_add_r by lia. change (2 ^ 12) with 4096. lia. }
  apply Z.pow_lt_mono_r_iff in Hlt; [| lia | lia].
  destruct (e' + t) as [| p | p] eqn:Hep; [lia | lia |].
  exists m, p. split; [exact Hfin |]. split; [exact Hm' |]. split; [lia |].
  rewrite Pos2Z.inj_pow. change (- Z.neg p) with (Z.pos p) in *.
  assert (Hbig : 2 ^ 41 ≤ 2 ^ Z.pos p) by (apply Z.pow_le_mono_r; lia).
  change (2 ^ 41) with 2199023255552 in Hbig.
  assert (Hpt : 0 < 2 ^ t) by (apply Z.pow_pos_nonneg; lia).
  assert (Hs : 2 ^ (- e') = 2 ^ Z.pos p * 2 ^ t).
  { rewrite <- Z.pow_add_r by lia. f_equal. lia. }
  rewrite Hs in Hq. nia.
Qed.

(** Rounding the float of such a decimal to two places gives it back. *)
Lemma decimal_round_trip (k : positive) :
  100 ≤ Z.pos k ≤ 250000 → round (decimal false k 2) 2 = decimal false k 2.
Proof.
  intros Hk. destruct (decimal_near k Hk) as (m & p & Hdec & _ & _ & Hnear).
  pose proof (round_half_even_near (Z.pos m * 100) (2 ^ p * 1) (Z.pos k)) as Hround.
  rewrite Pos.mul_1_r in Hround at 1 2. specialize (Hround Hnear).
  rewrite Hdec at 1. unfold round. cbv zeta. change (10 ^ Z.of_N 2) with 100.
  change (float_to_Q m (Z.neg p) * inject_Z 100)%Q
    with (Z.pos m * 100 # 2 ^ p * 1).
  rewrite Hround. reflexivity.
Qed.

(** The price is the rounded draw, the float of a decimal between 1.00 and
    2500.00: the guard [max(0.01, ...)] never changes it.  It is a normal
    float between 1 and 2500, and rounding it again gives it back. *)
Lemma price_of_spec (d : N) :
  ∃ k m e,
    price_of d = decimal false k 2 ∧ 100 ≤ Z.pos k ≤ 250000
    ∧ price_of d = S754_finite false m e
    ∧ -52 ≤ e ≤ -41 ∧ 2 ^ 52 ≤ Z.pos m < 2 ^ 53 ∧ between 1 2500 (Z.pos m) e
    ∧ price_of d
      = round (float_add (float_of_Z 1)
                 (float_mul (float_sub (float_of_Z 2500) (float_of_Z 1)) (random d))) 2
    ∧ round (price_of d) 2 = price_of d.
Proof.
  unfold price_of.
  destruct (uniform_between d) as (mu & eu & -> & Heu & Hbu).
  destruct (round_between mu eu Heu Hbu) as (k & -> & Hk).
  destruct (decimal_between 1 2500 false k ltac:(lia) ltac:(reflexivity) ltac:(lia))
    as (m & e & Hdec & He & Hb & Hc).
  destruct (decimal_near k Hk) as (m' & p & Hdec' & Hm' & Hp & _).
  rewrite Hdec in Hdec'. injection Hdec' as <- ->.
  assert (He52 : -52 ≤ Z.neg p).
  { destruct Hb as [Hb _]. rewrite Z.mul_1_l in Hb.
    assert (Hlt : 2 ^ (- Z.neg p) < 2 ^ 53) by lia.
    apply Z.pow_lt_mono_r_iff in Hlt; lia. }
  assert (Hmax : float_max (decimal false 1 2) (decimal false k 2) = decimal false k 2).
  { rewrite float_cent, Hdec. unfold float_max, float_lt, SFltb, SFcompare.
    destruct (Z.compare_spec (-59) (Z.neg p)) as [Heq | Hlt | Hgt];
      [lia | reflexivity | lia]. }
  exists k, m, (Z.neg p). rewrite Hmax.
  split; [reflexivity |]. split; [exact Hk |]. split; [exact Hdec |].
  split; [lia |]. split; [exact Hm' |]. split; [exact Hb |].
  split; [reflexivity | apply decimal_round_trip; exact Hk].
Qed.

(** As float comparisons: the price is neither below 1.0 nor above
    2500.0. *)
Lemma price_of_range (d : N) :
  float_lt (price_of d) (float_of_Z 1) = false
  ∧ float_lt (float_of_Z 2500) (price_of d) = false.
Proof.
  destruct (price_of_spec d) as (k & m & e & _ & _ & -> & He & Hm & [_ Hb] & _).
  unfold float_lt, SFltb, SFcompare.
  change (float_of_Z 1) with (S754_finite false 4503599627370496 (-52)).
  change (float_of_Z 2500) with (S754_finite false 5497558138880000 (-41)).
  split.
  - destruct (Z.compare_spec e (-52)) as [Heq | Hlt | Hgt]; [| lia | reflexivity].
    rewrite Pos.compare_cont_spec. unfold Pos.switch_Eq.
    destruct (Pos.compare_spec m 4503599627370496) as [H | H | H];
      [reflexivity | | reflexivity].
    apply Pos2Z.pos_lt_pos in H. change (2 ^ 52) with 4503599627370496 in Hm. lia.
  - destruct (Z.compare_spec (-41) e) as [Heq | Hlt | Hgt]; [| lia | reflexivity].
    rewrite Pos.compare_cont_spec. unfold Pos.switch_Eq.
    destruct (Pos.compare_spec 5497558138880000 m) as [H | H | H];
      [reflexivity | | reflexivity].
    apply Pos2Z.pos_lt_pos in H. subst e. change (2 ^ (- -41)) with 2199023255552 in Hb.
    lia.
Qed.

(** On the draw 40098075913963 the exact value of
    [1 + 2499 * random()] lies just above 12.125; the float product is
    11.125 and the float sum 12.125, a tie, so that the price is the float
    of 12.12, not of 12.13. *)
Example price_of_tie :
  float_add (float_of_Z 1)
    (float_mul (float_sub (float_of_Z 2500) (float_of_Z 1)) (random 40098075913963))
  = S754_finite false 6825768185233408 (-49)
  ∧ (float_to_Q 6825768185233408 (-49) == 97 # 8)%Q
  ∧ price_of 40098075913963 = decimal false 1212 2.
Proof. split; [| split]; vm_compute; reflexivity. Qed.

(** The float of 12.12 is not the rational 12.12: a price is the float of
    a decimal with two places, not a whole number of hundredths. *)
Example price_of_tie_value :
  price_of 40098075913963 = S754_finite false 6822953435466301 (-49)
  ∧ ¬ (float_to_Q 6822953435466301 (-49) == 1212 # 100)%Q.
Proof. split; [vm_compute; reflexivity | discriminate]. Qed.

(** *** Prices and stock *)

(** C8: every generated product has a price that is a finite float
    strictly greater than 0 and rounded to two decimal places: it is the
    float of a decimal with two places, and [round(price, 2)] gives it
    back; its stock quantity is a non-negative integer. *)
Theorem products_price_and_stock (env : Env) (count : Z) (st : state) :
  ∃ products st', generate_products env count st = (Ok products, st')
    ∧ ∀ p, p ∈ products →
        ∃ (price : float) (stock : Z),
          p !! "price" = Some (VFloat price)
          ∧ float_lt (float_of_Z 0) price = true
          ∧ (∃ m e, price = S754_finite false m e)
          ∧ (∃ k : positive, price = decimal false k 2)
          ∧ round price 2 = price
          ∧ p !! "stock_quantity" = Some (VInt stock)
          ∧ 0 ≤ stock.
Proof.
  edestruct (generate_products_all env) as (ps & st' & Hrun & _ & Hall & _);
    [| exists ps, st'; split; [exact Hrun |];
       intros p Hp; rewrite Forall_forall in Hall; exact (Hall p Hp)].
  intros name description u category d _. cbv beta.
  destruct (price_of_spec u) as (k & m & e & Hk & _ & Hfin & _ & _ & _ & _ & Hround).
  exists (price_of u), (0 + Z.of_N d mod (250 - 0 + 1)).
  split; [reflexivity |]. split; [rewrite Hfin; reflexivity |].
  split; [exists m, e; exact Hfin |]. split; [exists k; exact Hk |].
  split; [exact Hround |]. split; [reflexivity |].
  assert (0 ≤ Z.of_N d mod (250 - 0 + 1)) by (apply Z.mod_pos_bound; lia). lia.
Qed.

(** *** Order references *)

Lemma generate_orders_references (env : Env) (count : Z)
    (user_ids product_ids : list value) (st st' : state) (orders : list record) :
  generate_orders env count user_ids product_ids st = (Ok orders, st') →
  ∀ o, o ∈ orders →
    ∃ u p, o !! "user_id" = Some u ∧ u ∈ user_ids
         ∧ o !! "product_id" = Some p ∧ p ∈ product_ids.
Proof.
  intros Hrun o Ho.
  destruct (decide (user_ids = [])) as [Hu | Hu];
    [rewrite generate_orders_unmet in Hrun by (left; exact Hu);
     inversion Hrun; subst orders; inversion Ho |].
  destruct (decide (product_ids = [])) as [Hp | Hp];
    [rewrite generate_orders_unmet in Hrun by (right; exact Hp);
     inversion Hrun; subst orders; inversion Ho |].
  edestruct (generate_orders_all env
      (λ o, ∃ u p, o !! "user_id" = Some u ∧ u ∈ user_ids
                 ∧ o !! "product_id" = Some p ∧ p ∈ product_ids)
      count user_ids product_ids st Hu Hp) as (os & st1 & Hrun' & _ & Hall & _).
  - intros u p d status date Hin_u Hin_p _. exists u, p.
    split; [reflexivity |]. split; [exact Hin_u |]. split; [reflexivity | exact Hin_p].
  - rewrite Hrun in Hrun'. inversion Hrun'; subst os.
    rewrite Forall_forall in Hall. exact (Hall o Ho).
Qed.

(** *** Unique e-mail addresses *)

Lemma generate_users_emails (env : Env) (count : Z) (st : state) :
  (∀ seen d, fake_unique_email (fake env) seen d ∉ seen) →
  ∃ users st', generate_users env count st = (Ok users, st')
    ∧ NoDup (email_of <$> users)
    ∧ Forall (λ u, is_Some (email_of u)) users.
Proof.
  intros Hfresh. unfold generate_users.
  destruct (range_unit_length count) as (idxs & -> & Hlen).
  unfold_M. cbv beta iota.
  set (P := λ (n : nat) (acc : list record) (s : state),
              NoDup (email_of <$> acc)
              ∧ Forall (λ u, ∃ e, email_of u = Some (VStr e) ∧ e ∈ unique_seen s) acc).
  loop_inv P st (users & st1 & Hloop & Hnd & Hall); [| | rewrite Hloop].
  - intros n x acc s (Hnd & Hall).
    eexists _, _. split; [reflexivity |]. cbn [unique_seen]. split.
    + rewrite fmap_app. apply NoDup_app. split; [exact Hnd |]. split.
      * intros v Hv Hnew. apply list_elem_of_fmap in Hv as (u & -> & Hu).
        rewrite Forall_forall in Hall. destruct (Hall u Hu) as (e & He & Hseen).
        apply list_elem_of_singleton in Hnew. rewrite He in Hnew.
        unfold email_of in Hnew. rewrite lookup_insert_ne in Hnew by discriminate.
        rewrite lookup_insert_eq in Hnew. inversion Hnew; subst e.
        exact (Hfresh _ _ Hseen).
      * apply NoDup_singleton.
    + apply Forall_app. split.
      * eapply Forall_impl; [exact Hall |]. intros u (e & He & Hseen).
        exists e. split; [exact He | set_solver].
      * constructor; [| constructor]. eexists. split; [reflexivity | set_solver].
  - split; constructor.
  - eexists _, _. split; [reflexivity |]. split; [exact Hnd |].
    eapply Forall_impl; [exact Hall |]. intros u (e & He & _). rewrite He. eauto.
Qed.

(** C7: within one call of the user generator the e-mail fields of the
    generated records are pairwise distinct, given that the library's
    unique proxy never hands out an address it has already returned. *)
Theorem generate_users_emails_distinct (env : Env) (count : Z) (st : state) :
  (∀ seen d, fake_unique_email (fake env) seen d ∉ seen) →
  ∃ users st', generate_users env count st = (Ok users, st')
    ∧ (∀ i j u1 u2, users !! i = Some u1 → users !! j = Some u2 → i ≠ j →
         is_Some (u1 !! "email") ∧ is_Some (u2 !! "email")
         ∧ u1 !! "email" ≠ u2 !! "email").
Proof.
  intros Hfresh.
  destruct (generate_users_emails env count st Hfresh) as (users & st' & Hrun & Hnd & Hall).
  exists users, st'. split; [exact Hrun |].
  intros i j u1 u2 Hi Hj Hij. rewrite Forall_forall in Hall.
  split; [apply (Hall u1); eapply list_elem_of_lookup_2; exact Hi |].
  split; [apply (Hall u2); eapply list_elem_of_lookup_2; exact Hj |].
  intros Heq. apply Hij.
  eapply (NoDup_lookup (email_of <$> users)); [exact Hnd | |].
  - rewrite list_lookup_fmap, Hi. reflexivity.
  - rewrite list_lookup_fmap, Hj. simpl. unfold email_of. f_equal. symmetry. exact Heq.
Qed.

Lemma generate_users_emails_distinct_witness :
  ∃ users st', generate_users (demo_env echo_backend) 3 initial = (Ok users, st')
    ∧ (∀ i j u1 u2, users !! i = Some u1 → users !! j = Some u2 → i ≠ j →
         is_Some (u1 !! "email") ∧ is_Some (u2 !! "email")
         ∧ u1 !! "email" ≠ u2 !! "email").
Proof.
  apply (generate_users_emails_distinct (demo_env echo_backend) 3 initial).
  intros seen d. apply is_fresh.
Defined.

(** ** The batch inserter *)

Lemma after_calls_after_calls st k1 evs1 k2 evs2 :
  after_calls (after_calls st k1 evs1) k2 evs2
  = after_calls st (k1 + k2) (evs1 ++ evs2).
Proof.
  unfold after_calls. cbn [cursor unique_seen ncalls trace].
  f_equal; [lia | symmetry; apply assoc, _].
Qed.

Section Inserter.

Context (env : Env).

(** One iteration of the loop: the call is made and recorded, its rows are
    appended, its log line printed; no outcome of the call escapes. *)
Lemma insert_batch_step (table_name : string) (data : list record)
    (batch_size i : Z) (rows : list record) (total : Z) (st : state) :
  let o := backend env (ncalls st) table_name (slice data i (i + batch_size)) in
  insert_batch env table_name data batch_size i (rows, total) st
  = (Ok (rows ++ batch_rows o, total + Z.of_nat (length (batch_rows o))),
     after_calls st 1 (batch_events table_name data batch_size (i, o))).
Proof.
  intros o. unfold insert_batch, try_except, remote_insert, batch_events. unfold_M.
  cbn [fst snd]. fold o. unfold after_calls.
  replace (ncalls st + 1)%nat with (S (ncalls st)) by lia.
  destruct o as [e | [d err]]; cbn [batch_rows batch_log resp_data resp_error is_Exception exn_str].
  - rewrite app_nil_r, Z.add_0_r.
    cbn [cursor unique_seen ncalls trace]. rewrite <- app_assoc. reflexivity.
  - destruct (truthy_opt truthy_list d) eqn:Hd.
    + cbn [cursor unique_seen ncalls trace]. rewrite <- app_assoc. reflexivity.
    + destruct (truthy_opt truthy_str err) eqn:Herr;
        rewrite app_nil_r, Z.add_0_r; cbn [cursor unique_seen ncalls trace];
        [rewrite <- app_assoc |]; reflexivity.
Qed.

Lemma insert_loop (table_name : string) (data : list record) (batch_size : Z)
    (idxs : list Z) :
  ∀ (rows : list record) (total : Z) (st : state),
    let calls := batch_calls env table_name data batch_size (ncalls st) idxs in
    for_each idxs (insert_batch env table_name data batch_size) (rows, total) st
    = (Ok (rows ++ flat_map (λ c, batch_rows c.2) calls,
           total + Z.of_nat (length (flat_map (λ c, batch_rows c.2) calls))),
       after_calls st (length idxs)
         (flat_map (batch_events table_name data batch_size) calls)).
Proof.
  induction idxs as [| i rest IH]; intros rows total st calls.
  - cbn. unfold_M. rewrite app_nil_r, Z.add_0_r.
    unfold after_calls. rewrite Nat.add_0_r, app_nil_r. destruct st; reflexivity.
  - subst calls. cbn [for_each batch_calls flat_map]. unfold_M.
    rewrite insert_batch_step. rewrite IH.
    rewrite after_calls_after_calls. cbn [ncalls after_calls fst snd].
    replace (ncalls st + 1)%nat with (S (ncalls st)) by lia.
    rewrite <- app_assoc, length_app, Nat2Z.inj_add, Z.add_assoc. reflexivity.
Qed.

(** What [insert_in_batches] does when the batch size is not zero: it
    returns, with the confirmed rows of all its calls, in a state that
    records the calls and the log lines in order. *)
Lemma insert_in_batches_run (table_name : string) (data : list record)
    (batch_size : Z) (st : state) (idxs : list Z) :
  range 0 (Z.of_nat (length data)) batch_size = Ok idxs →
  let calls := batch_calls env table_name data batch_size (ncalls st) idxs in
  insert_in_batches env table_name data batch_size st
  = (Ok (flat_map (λ c, batch_rows c.2) calls),
     after_calls st (length idxs)
       (Print (MsgAttempting (length data) table_name batch_size)
          :: flat_map (batch_events table_name data batch_size) calls
          ++ [Print (MsgFinished table_name
                       (Z.of_nat (length (flat_map (λ c, batch_rows c.2) calls))))])).
Proof.
  intros Hrange calls. unfold insert_in_batches. rewrite Hrange.
  unfold_M. cbv beta iota.
  pose proof (insert_loop table_name data batch_size idxs [] 0
    {| cursor := cursor st; unique_seen := unique_seen st; ncalls := ncalls st;
       trace := trace st ++ [Print (MsgAttempting (length data) table_name batch_size)] |})
    as Hloop.
  cbn [ncalls] in Hloop. fold calls in Hloop. cbv zeta in Hloop.
  rewrite Hloop. cbn [fst snd app].
  unfold after_calls. cbn [cursor unique_seen ncalls trace].
  rewrite Z.add_0_l. f_equal. f_equal. rewrite <- !app_assoc. reflexivity.
Qed.

(** A zero batch size makes [range] raise before anything is submitted. *)
Lemma insert_in_batches_zero (table_name : string) (data : list record) (st : state) :
  ∃ msg st', insert_in_batches env table_name data 0 st = (Err (ValueError msg), st')
    ∧ submitted (trace st') = submitted (trace st).
Proof.
  eexists _, _. split; [reflexivity |].
  cbn [trace]. unfold submitted. rewrite omap_app. cbn. apply app_nil_r.
Qed.

End Inserter.

(** *** Chunking arithmetic *)

Lemma slice_nonneg {A} (l : list A) (lo hi : Z) :
  0 ≤ lo → lo ≤ hi →
  slice l lo hi = take (Z.to_nat (hi - lo)) (drop (Z.to_nat lo) l).
Proof.
  intros Hlo Hhi. unfold slice, clamp.
  destruct (Z.ltb_spec lo 0) as [? | _]; [lia |].
  destruct (Z.ltb_spec hi 0) as [? | _]; [lia |].
  set (n := Z.of_nat (length l)).
  destruct (Z.le_gt_cases lo n) as [Hle | Hgt].
  - rewrite (Z.min_l lo n) by exact Hle.
    destruct (Z.le_gt_cases hi n) as [Hle' | Hgt'].
    + rewrite (Z.min_l hi n) by exact Hle'. reflexivity.
    + rewrite (Z.min_r hi n) by lia.
      rewrite !take_ge; [reflexivity | |]; rewrite length_drop; subst n; lia.
  - rewrite (Z.min_r lo n), (Z.min_r hi n) by lia.
    rewrite !drop_ge by (subst n; lia). rewrite !take_nil. reflexivity.
Qed.

Lemma range_len_ceil (n b : Z) :
  0 < b → 0 ≤ n → range_len 0 n b = (n + b - 1) / b.
Proof.
  intros Hb Hn. unfold range_len.
  destruct (Z.ltb_spec 0 b) as [_ | ?]; [| lia].
  destruct (Z.ltb_spec 0 n) as [Hpos | Hzero].
  - replace (n + b - 1) with (n - 0 - 1 + 1 * b) by lia.
    rewrite Z.div_add by lia. reflexivity.
  - replace n with 0 by lia. symmetry. apply Z.div_small. lia.
Qed.

(** [(n + b - 1) / b] is the least number of chunks of size [b] that hold
    [n] records. *)
Lemma ceil_div_bounds (n b : Z) :
  0 < b → 0 ≤ n →
  b * ((n + b - 1) / b - 1) < n ≤ b * ((n + b - 1) / b).
Proof.
  intros Hb Hn.
  pose proof (Z.div_mod (n + b - 1) b ltac:(lia)) as Hdm.
  pose proof (Z.mod_pos_bound (n + b - 1) b Hb) as Hmod.
  lia.
Qed.

Lemma chunks_concat {A} (l : list A) (b c : nat) :
  concat (map (λ k, take b (drop (k * b) l)) (seq 0 c)) = take (c * b) l.
Proof.
  induction c as [| c IH].
  - reflexivity.
  - rewrite seq_S, map_app, concat_app, IH. cbn [map concat Nat.add].
    rewrite app_nil_r, take_take_drop. f_equal. lia.
Qed.

Lemma batch_calls_fst env table_name data batch_size (idxs : list Z) :
  ∀ n, map fst (batch_calls env table_name data batch_size n idxs) = idxs.
Proof.
  induction idxs as [| i rest IH]; intros n; [reflexivity |].
  cbn. f_equal. apply IH.
Qed.

Lemma submitted_batch_log (no : Z) (o : outcome) : submitted (batch_log no o) = [].
Proof.
  destruct o as [e | r]; cbn; [reflexivity |].
  destruct (truthy_opt truthy_list (resp_data r)); [reflexivity |].
  destruct (truthy_opt truthy_str (resp_error r)); reflexivity.
Qed.

Lemma submitted_app (evs1 evs2 : list event) :
  submitted (evs1 ++ evs2) = submitted evs1 ++ submitted evs2.
Proof. unfold submitted. apply omap_app. Qed.

Lemma submitted_batches table_name data batch_size (calls : list (Z * outcome)) :
  submitted (flat_map (batch_events table_name data batch_size) calls)
  = map (λ i, (table_name, slice data i (i + batch_size))) (map fst calls).
Proof.
  induction calls as [| [i o] calls IH]; [reflexivity |].
  cbn [flat_map map fst]. rewrite submitted_app, IH. unfold batch_events.
  cbn [fst snd]. change (RemoteInsert ?t ?b ?o :: ?l) with ([RemoteInsert t b o] ++ l).
  rewrite submitted_app, submitted_batch_log. reflexivity.
Qed.

Lemma submitted_run table_name data batch_size (calls : list (Z * outcome)) m1 m2 :
  submitted (Print m1 :: flat_map (batch_events table_name data batch_size) calls
               ++ [Print m2])
  = map (λ i, (table_name, slice data i (i + batch_size))) (map fst calls).
Proof.
  change (Print m1 :: ?l) with ([Print m1] ++ l).
  rewrite !submitted_app, submitted_batches. cbn. apply app_nil_r.
Qed.

Lemma confirmed_batch_log (no : Z) (o : outcome) : confirmed (batch_log no o) = [].
Proof.
  destruct o as [e | r]; cbn; [reflexivity |].
  destruct (truthy_opt truthy_list (resp_data r)); [reflexivity |].
  destruct (truthy_opt truthy_str (resp_error r)); reflexivity.
Qed.

Lemma confirmed_app (evs1 evs2 : list event) :
  confirmed (evs1 ++ evs2) = confirmed evs1 ++ confirmed evs2.
Proof. unfold confirmed. apply flat_map_app. Qed.

Lemma confirmed_batches table_name data batch_size (calls : list (Z * outcome)) :
  confirmed (flat_map (batch_events table_name data batch_size) calls)
  = flat_map (λ c, batch_rows c.2) calls.
Proof.
  induction calls as [| [i o] calls IH]; [reflexivity |].
  cbn [flat_map]. rewrite confirmed_app, IH. unfold batch_events.
  cbn [fst snd]. change (RemoteInsert ?t ?b ?o :: ?l) with ([RemoteInsert t b o] ++ l).
  rewrite confirmed_app, confirmed_batch_log, app_nil_r.
  cbn. rewrite app_nil_r. reflexivity.
Qed.

Lemma confirmed_run table_name data batch_size (calls : list (Z * outcome)) m1 m2 :
  confirmed (Print m1 :: flat_map (batch_events table_name data batch_size) calls
               ++ [Print m2])
  = flat_map (λ c, batch_rows c.2) calls.
Proof.
  change (Print m1 :: ?l) with ([Print m1] ++ l).
  rewrite !confirmed_app, confirmed_batches. cbn. apply app_nil_r.
Qed.

Lemma range_chunk_offsets (n b : Z) :
  0 < b → 0 ≤ n →
  range 0 n b
  = Ok (map (λ k, Z.of_nat k * b) (seq 0 (Z.to_nat ((n + b - 1) / b)))).
Proof.
  intros Hb Hn. unfold range.
  destruct (Z.eqb_spec b 0) as [? | _]; [lia |].
  rewrite range_len_ceil by assumption. f_equal.
Qed.

Lemma slices_are_chunks {A} (data : list A) (b : Z) (c : nat) :
  0 < b →
  map (λ i, slice data i (i + b)) (map (λ k, Z.of_nat k * b) (seq 0 c))
  = map (λ k, take (Z.to_nat b) (drop (k * Z.to_nat b) data)) (seq 0 c).
Proof.
  intros Hb. rewrite map_map. apply map_ext. intros k.
  rewrite slice_nonneg by lia. f_equal; [f_equal; lia |].
  f_equal. rewrite Z2Nat.inj_mul, Nat2Z.id by lia. reflexivity.
Qed.

(** C1: for a positive batch size B the inserter returns after submitting
    exactly ceil(N/B) chunks to the given table; each chunk has at most B
    records, the k-th chunk is the slice of B records starting at offset
    k*B, and the chunks in order of submission concatenate to the input. *)
Theorem insert_in_batches_chunks (env : Env) (table_name : string)
    (data : list record) (batch_size : Z) (st : state) :
  0 < batch_size →
  ∃ rows st' evs chunks,
    insert_in_batches env table_name data batch_size st = (Ok rows, st')
    ∧ trace st' = trace st ++ evs
    ∧ submitted evs = map (λ c, (table_name, c)) chunks
    ∧ Z.of_nat (length chunks) = (Z.of_nat (length data) + batch_size - 1) / batch_size
    ∧ batch_size * (Z.of_nat (length chunks) - 1) < Z.of_nat (length data)
        ≤ batch_size * Z.of_nat (length chunks)
    ∧ Forall (λ c, Z.of_nat (length c) ≤ batch_size) chunks
    ∧ (∀ k c, chunks !! k = Some c →
         c = take (Z.to_nat batch_size) (drop (k * Z.to_nat batch_size) data))
    ∧ concat chunks = data.
Proof.
  intros Hb.
  set (N := Z.of_nat (length data)).
  assert (HN : 0 ≤ N) by (subst N; lia).
  set (c := Z.to_nat ((N + batch_size - 1) / batch_size)).
  assert (Hc : Z.of_nat c = (N + batch_size - 1) / batch_size).
  { subst c. apply Z2Nat.id. apply Z.div_pos; lia. }
  pose proof (ceil_div_bounds N batch_size Hb HN) as Hceil. rewrite <- Hc in Hceil.
  pose proof (insert_in_batches_run env table_name data batch_size st _
                (range_chunk_offsets N batch_size Hb HN)) as Hrun.
  cbv zeta in Hrun.
  set (chunks := map (λ k, take (Z.to_nat batch_size)
                             (drop (k * Z.to_nat batch_size) data)) (seq 0 c)).
  assert (Hlen : length chunks = c) by (subst chunks; rewrite length_map, length_seq; reflexivity).
  eexists _, _, _, chunks. split; [exact Hrun |].
  split; [reflexivity |].
  split; [| split; [| split; [| split; [| split]]]].
  - rewrite submitted_run, batch_calls_fst. fold c.
    rewrite <- (map_map (λ i, slice data i (i + batch_size)) (λ c, (table_name, c))).
    rewrite slices_are_chunks by exact Hb. reflexivity.
  - rewrite Hlen. exact Hc.
  - rewrite Hlen. exact Hceil.
  - subst chunks. apply Forall_forall. intros ch Hch.
    apply list_elem_of_fmap in Hch as (k & -> & _). rewrite length_take. lia.
  - intros k ch Hk. subst chunks. rewrite list_lookup_fmap in Hk.
    destruct (seq 0 c !! k) as [k' |] eqn:Hseq; [| discriminate].
    apply lookup_seq in Hseq as [-> _]. cbn in Hk. inversion Hk. reflexivity.
  - subst chunks. rewrite chunks_concat. apply take_ge. nia.
Qed.

Lemma insert_in_batches_chunks_witness :
  0 < 100 ∧
  ∃ rows st' evs chunks,
    insert_in_batches (demo_env echo_backend) "users" (replicate 250 ∅) 100 initial
      = (Ok rows, st')
    ∧ trace st' = trace initial ++ evs
    ∧ submitted evs = map (λ c, ("users", c)) chunks
    ∧ Z.of_nat (length chunks)
      = (Z.of_nat (length (replicate 250 (∅ : record))) + 100 - 1) / 100
    ∧ 100 * (Z.of_nat (length chunks) - 1) < Z.of_nat (length (replicate 250 (∅ : record)))
        ≤ 100 * Z.of_nat (length chunks)
    ∧ Forall (λ c, Z.of_nat (length c) ≤ 100) chunks
    ∧ (∀ k c, chunks !! k = Some c →
         c = take (Z.to_nat 100) (drop (k * Z.to_nat 100) (replicate 250 ∅)))
    ∧ concat chunks = replicate 250 ∅.
Proof.
  assert (H : 0 < 100) by lia.
  split; [exact H |].
  exact (insert_in_batches_chunks (demo_env echo_backend) "users"
           (replicate 250 ∅) 100 initial H).
Defined.

(** The example of the specification: 250 records in batches of 100 make
    three remote calls, of sizes 100, 100 and 50. *)
Example insert_250_by_100 :
  map (λ tb, length tb.2)
      (submitted (trace (insert_in_batches (demo_env echo_backend) "users"
                           (replicate 250 ∅) 100 initial).2))
  = [100; 100; 50]%nat.
Proof. vm_compute. reflexivity. Qed.

(** *** Failed batches *)

Lemma batch_log_prints (no : Z) (o : outcome) : Forall is_print (batch_log no o).
Proof.
  destruct o as [e | r]; cbn; [repeat constructor |].
  destruct (truthy_opt truthy_list (resp_data r)); [repeat constructor |].
  destruct (truthy_opt truthy_str (resp_error r)); repeat constructor.
Qed.

(** A remote call found after a run of printed lines lies in what follows
    them. *)
Lemma skip_prints (l rest pre post : list event) t b o :
  Forall is_print l →
  l ++ rest = pre ++ RemoteInsert t b o :: post →
  ∃ pre', pre = l ++ pre' ∧ rest = pre' ++ RemoteInsert t b o :: post.
Proof.
  intros Hl. revert pre. induction Hl as [| ev l Hev _ IH]; intros pre Heq.
  - exists pre. split; [reflexivity | exact Heq].
  - destruct pre as [| ev' pre].
    + cbn in Heq. inversion Heq; subst ev. destruct Hev.
    + cbn in Heq. inversion Heq; subst ev'.
      destruct (IH pre ltac:(assumption)) as (pre' & -> & Hrest).
      exists pre'. split; [reflexivity | exact Hrest].
Qed.

(** In the events of the loop, every remote call is directly followed by
    the log lines of its own outcome. *)
Lemma batch_events_followed table_name data batch_size
    (calls : list (Z * outcome)) (tail pre post : list event) t b o :
  Forall is_print tail →
  flat_map (batch_events table_name data batch_size) calls ++ tail
    = pre ++ RemoteInsert t b o :: post →
  ∃ i post', (i, o) ∈ calls ∧ t = table_name
    ∧ b = slice data i (i + batch_size)
    ∧ post = batch_log (i / batch_size + 1) o ++ post'.
Proof.
  intros Htail. revert pre.
  induction calls as [| [i0 o0] calls IH]; intros pre Heq.
  - cbn in Heq. destruct (skip_prints tail [] pre post t b o Htail) as (pre' & _ & Hnil).
    { rewrite app_nil_r. exact Heq. }
    destruct pre'; discriminate.
  - cbn [flat_map] in Heq. unfold batch_events at 1 in Heq. cbn [fst snd] in Heq.
    destruct pre as [| ev pre].
    + cbn in Heq. inversion Heq; subst. rewrite <- app_assoc.
      eexists i0, _. split; [left |]. repeat split.
    + cbn in Heq. rewrite <- app_assoc in Heq. inversion Heq as [[Hev Hrest]].
      destruct (skip_prints _ _ _ _ _ _ _ (batch_log_prints _ _) Hrest)
        as (pre' & _ & Hrest').
      destruct (IH pre' Hrest') as (i & post' & Hin & Ht & Hb & Hpost).
      exists i, post'. split; [right; exact Hin |]. repeat split; assumption.
Qed.

(** C5 (amended): for a non-zero batch size the inserter never raises and
    always returns.  Every chunk is submitted once, in order, whatever
    happened to the chunks before it.  A chunk whose call raises is logged
    as failed; a chunk whose response carries no data but an error is
    logged as failed; neither adds a row.  The result is exactly the rows of
    the responses that carry data, in order of submission. *)
Theorem insert_in_batches_skips_failures (env : Env) (table_name : string)
    (data : list record) (batch_size : Z) (st : state) :
  batch_size ≠ 0 →
  ∃ idxs rows st' evs,
    range 0 (Z.of_nat (length data)) batch_size = Ok idxs
    ∧ insert_in_batches env table_name data batch_size st = (Ok rows, st')
    ∧ trace st' = trace st ++ evs
    ∧ submitted evs = map (λ i, (table_name, slice data i (i + batch_size))) idxs
    ∧ rows = confirmed evs
    ∧ (∀ e, batch_rows (Raises e) = [])
    ∧ (∀ r, truthy_opt truthy_list (resp_data r) = false → batch_rows (Returns r) = [])
    ∧ (∀ pre t b o post, evs = pre ++ RemoteInsert t b o :: post →
         match o with
         | Raises e =>
             ∃ no post', post = Print (MsgBatchFailedException no e) :: post'
         | Returns r =>
             if truthy_opt truthy_list (resp_data r) then
               ∃ no post',
                 post = Print (MsgBatchInserted no (length (default [] (resp_data r))))
                          :: post'
             else if truthy_opt truthy_str (resp_error r) then
               ∃ no post',
                 post = Print (MsgBatchFailedError no (default "" (resp_error r)))
                          :: post'
             else True
         end).
Proof.
  intros Hb.
  assert (Hrange : ∃ idxs, range 0 (Z.of_nat (length data)) batch_size = Ok idxs).
  { unfold range. destruct (Z.eqb_spec batch_size 0) as [? | _]; [contradiction | eauto]. }
  destruct Hrange as (idxs & Hrange).
  pose proof (insert_in_batches_run env table_name data batch_size st idxs Hrange) as Hrun.
  cbv zeta in Hrun.
  eexists idxs, _, _, _. split; [exact Hrange |]. split; [exact Hrun |].
  split; [reflexivity |].
  split; [rewrite submitted_run, batch_calls_fst; reflexivity |].
  split; [rewrite confirmed_run; reflexivity |].
  split; [reflexivity |].
  split; [intros r Hr; cbn; rewrite Hr; reflexivity |].
  intros pre t b o post Heq.
  destruct pre as [| ev pre]; [discriminate |].
  cbn in Heq. inversion Heq as [[Hev Hrest]].
  apply batch_events_followed in Hrest as (i & post' & _ & _ & _ & ->);
    [| repeat constructor].
  destruct o as [e | r]; cbn [batch_log].
  - eauto.
  - destruct (truthy_opt truthy_list (resp_data r)); [eauto |].
    destruct (truthy_opt truthy_str (resp_error r)); [eauto | exact I].
Qed.

Lemma insert_in_batches_skips_failures_witness :
  ∃ idxs rows st' evs,
    range 0 (Z.of_nat (length (replicate 250 (∅ : record)))) 100 = Ok idxs
    ∧ insert_in_batches (demo_env down_backend) "users" (replicate 250 ∅) 100 initial
      = (Ok rows, st')
    ∧ trace st' = trace initial ++ evs
    ∧ submitted evs = map (λ i, ("users", slice (replicate 250 ∅) i (i + 100))) idxs
    ∧ rows = confirmed evs
    ∧ (∀ e, batch_rows (Raises e) = [])
    ∧ (∀ r, truthy_opt truthy_list (resp_data r) = false → batch_rows (Returns r) = [])
    ∧ (∀ pre t b o post, evs = pre ++ RemoteInsert t b o :: post →
         match o with
         | Raises e =>
             ∃ no post', post = Print (MsgBatchFailedException no e) :: post'
         | Returns r =>
             if truthy_opt truthy_list (resp_data r) then
               ∃ no post',
                 post = Print (MsgBatchInserted no (length (default [] (resp_data r))))
                          :: post'
             else if truthy_opt truthy_str (resp_error r) then
               ∃ no post',
                 post = Print (MsgBatchFailedError no (default "" (resp_error r)))
                          :: post'
             else True
         end).
Proof.
  assert (H : (100 : Z) ≠ 0) by discriminate.
  exact (insert_in_batches_skips_failures (demo_env down_backend) "users"
           (replicate 250 ∅) 100 initial H).
Defined.

(** C5 as stated fails at two inputs.  A response that carries rows
    together with an error indicator is treated as a success: the rows are
    appended and the batch is logged as inserted, not as failed.  And with a
    zero batch size the inserter does not return: [ValueError] escapes
    before anything is submitted. *)
Lemma insert_in_batches_claim_fails :
  (∃ r st',
     backend (demo_env warning_backend) 0 "users" [∅] = Returns r
     ∧ truthy_opt truthy_str (resp_error r) = true
     ∧ insert_in_batches (demo_env warning_backend) "users" [∅] 100 initial
       = (Ok [∅], st')
     ∧ trace st' = [Print (MsgAttempting 1 "users" 100);
                    RemoteInsert "users" [∅] (Returns r);
                    Print (MsgBatchInserted 1 1);
                    Print (MsgFinished "users" 1)])
  ∧ (∃ st',
       insert_in_batches (demo_env echo_backend) "users" [∅] 0 initial
       = (Err (ValueError "range() arg 3 must not be zero"), st')
       ∧ submitted (trace st') = []).
Proof.
  split.
  - eexists _, _. split; [reflexivity |]. split; [reflexivity |].
    split; [vm_compute; reflexivity | reflexivity].
  - eexists. split; reflexivity.
Qed.

(** ** The driver *)

Lemma id_pool_cons (r : record) (rows : list record) :
  id_pool (r :: rows)
  = match r !! "id" with Some v => v :: id_pool rows | None => id_pool rows end.
Proof. reflexivity. Qed.

Lemma ids_of_loop (rows : list record) :
  ∀ (acc : list value) (st : state),
    for_each rows (λ r ids,
      if contains "id" r then v ← getitem r "id"; mret (ids ++ [v])
      else mret ids) acc st
    = (Ok (acc ++ id_pool rows), st).
Proof.
  induction rows as [| r rows IH]; intros acc st.
  - cbn. unfold_M. rewrite app_nil_r. reflexivity.
  - cbn [for_each]. rewrite id_pool_cons. unfold contains, getitem. unfold_M.
    destruct (r !! "id") as [v |] eqn:Hid.
    + cbv beta iota. rewrite IH, <- app_assoc. reflexivity.
    + cbv beta iota. rewrite IH. reflexivity.
Qed.

(** The comprehension never raises: the membership test guards the lookup. *)
Lemma ids_of_run (rows : list record) (st : state) :
  ids_of rows st = (Ok (id_pool rows), st).
Proof. unfold ids_of. rewrite ids_of_loop. reflexivity. Qed.

Lemma id_pool_elem_of (rows : list record) (v : value) :
  v ∈ id_pool rows ↔ ∃ r, r ∈ rows ∧ r !! "id" = Some v.
Proof. unfold id_pool. apply list_elem_of_omap. Qed.

Lemma id_pool_without_ids (rows : list record) :
  Forall (λ r, r !! "id" = None) rows → id_pool rows = [].
Proof.
  intros Hall. induction Hall as [| r rows Hr _ IH]; [reflexivity |].
  cbn. rewrite Hr. exact IH.
Qed.

Lemma slice_subseteq {A} (l : list A) (lo hi : Z) : slice l lo hi ⊆ l.
Proof.
  unfold slice. etransitivity; [apply subseteq_take | apply subseteq_drop].
Qed.

Lemma batch_events_inserter table_name data batch_size (calls : list (Z * outcome)) :
  Forall (inserter_event table_name data)
    (flat_map (batch_events table_name data batch_size) calls).
Proof.
  induction calls as [| [i o] calls IH]; [constructor |].
  cbn [flat_map]. apply Forall_app. split; [| exact IH].
  unfold batch_events. constructor.
  - right. eexists _, _. split; [reflexivity | apply slice_subseteq].
  - eapply Forall_impl; [apply batch_log_prints |]. intros ev Hev. left. exact Hev.
Qed.

Lemma confirmed_elem_of (evs : list event) (row : record) :
  row ∈ confirmed evs →
  ∃ t b resp rows,
    RemoteInsert t b (Returns resp) ∈ evs
    ∧ resp_data resp = Some rows ∧ truthy_list rows = true ∧ row ∈ rows.
Proof.
  unfold confirmed. rewrite list_elem_of_In, in_flat_map.
  intros (ev & Hev & Hrow). apply list_elem_of_In in Hev, Hrow.
  destruct ev as [m | url key | t b o]; try (by inversion Hrow).
  destruct o as [e | [d err]]; cbn in Hrow; [by inversion Hrow |].
  destruct d as [rows |]; cbn in Hrow; [| by inversion Hrow].
  destruct (truthy_list rows) eqn:Hrows; [| by inversion Hrow].
  eexists t, b, _, rows. split; [exact Hev |]. cbn. auto.
Qed.

(** With a non-zero batch size the inserter returns; it moves neither the
    random source nor the uniqueness memory, and leaves only events of its
    own table. *)
Lemma insert_in_batches_total (env : Env) (table_name : string)
    (data : list record) (batch_size : Z) (st : state) :
  batch_size ≠ 0 →
  ∃ k evs,
    insert_in_batches env table_name data batch_size st
      = (Ok (confirmed evs), after_calls st k evs)
    ∧ Forall (inserter_event table_name data) evs.
Proof.
  intros Hb.
  assert (Hrange : ∃ idxs, range 0 (Z.of_nat (length data)) batch_size = Ok idxs).
  { unfold range. destruct (Z.eqb_spec batch_size 0) as [? | _]; [contradiction | eauto]. }
  destruct Hrange as (idxs & Hrange).
  pose proof (insert_in_batches_run env table_name data batch_size st idxs Hrange) as Hrun.
  cbv zeta in Hrun. rewrite <- confirmed_run
    with (table_name := table_name) (data := data) (batch_size := batch_size)
         (m1 := MsgAttempting (length data) table_name batch_size)
         (m2 := MsgFinished table_name
                  (Z.of_nat (length (flat_map (λ c : Z * outcome, batch_rows c.2)
                     (batch_calls env table_name data batch_size (ncalls st) idxs)))))
    in Hrun at 1.
  eexists _, _. split; [exact Hrun |].
  constructor; [left; exact I |].
  apply Forall_app. split; [apply batch_events_inserter |].
  constructor; [left; exact I | constructor].
Qed.

Lemma mbind_ok {A B} (m : M A) (k : A → M B) (st st' : state) (a : A) :
  m st = (Ok a, st') → (m ≫= k) st = k a st'.
Proof. intros H. unfold_M. rewrite H. reflexivity. Qed.

Lemma mbind_err {A B} (m : M A) (k : A → M B) (st st' : state) (e : exn) :
  m st = (Err e, st') → (m ≫= k) st = (Err e, st').
Proof. intros H. unfold_M. rewrite H. reflexivity. Qed.

Lemma print_run (m : message) (st : state) : print m st = (Ok tt, logged st m).
Proof. reflexivity. Qed.

(** Advance the computation of the goal by one statement whose run is
    known. *)
Ltac step H := rewrite (mbind_ok _ _ _ _ _ H).
Ltac step_print := rewrite (mbind_ok _ _ _ _ _ (print_run _ _)).

Section Driver.

Context (env : Env).

(** The driver stops after the user stage when no user id came back. *)
Lemma main_users_abort (st st1 st2 : state) (users urows : list record) :
  generate_users env NUM_USERS (logged st MsgStarting) = (Ok users, st1) →
  insert_in_batches env "users" users BATCH_SIZE st1 = (Ok urows, st2) →
  id_pool urows = [] →
  main env st = (Err SystemExit, logged st2 MsgCriticalUsers).
Proof.
  intros Hgen Hins Hpool. unfold main.
  step_print. step Hgen. step Hins. step (ids_of_run urows st2).
  rewrite Hpool. cbn [truthy_list negb].
  apply mbind_err. step_print. reflexivity.
Qed.

(** The driver stops after the product stage when no product id came
    back. *)
Lemma main_products_abort (st st1 st2 st3 st4 : state)
    (users urows products prows : list record) :
  generate_users env NUM_USERS (logged st MsgStarting) = (Ok users, st1) →
  insert_in_batches env "users" users BATCH_SIZE st1 = (Ok urows, st2) →
  id_pool urows ≠ [] →
  generate_products env NUM_PRODUCTS st2 = (Ok products, st3) →
  insert_in_batches env "products" products BATCH_SIZE st3 = (Ok prows, st4) →
  id_pool prows = [] →
  main env st = (Err SystemExit, logged st4 MsgCriticalProducts).
Proof.
  intros Hgen Hins Hpool Hgen' Hins' Hpool'. unfold main.
  step_print. step Hgen. step Hins. step (ids_of_run urows st2).
  destruct (id_pool urows) as [| u us] eqn:Hu; [congruence |].
  cbn [truthy_list negb].
  rewrite (mbind_ok (mret tt) _ st2 st2 tt) by reflexivity.
  step Hgen'. step Hins'. step (ids_of_run prows st4).
  rewrite Hpool'. cbn [truthy_list negb].
  apply mbind_err. step_print. reflexivity.
Qed.

(** A complete run: all three stages. *)
Lemma main_completes (st st1 st2 st3 st4 st5 st6 : state)
    (users urows products prows orders orows : list record) :
  generate_users env NUM_USERS (logged st MsgStarting) = (Ok users, st1) →
  insert_in_batches env "users" users BATCH_SIZE st1 = (Ok urows, st2) →
  id_pool urows ≠ [] →
  generate_products env NUM_PRODUCTS st2 = (Ok products, st3) →
  insert_in_batches env "products" products BATCH_SIZE st3 = (Ok prows, st4) →
  id_pool prows ≠ [] →
  generate_orders env NUM_ORDERS (id_pool urows) (id_pool prows)
    (logged st4 (MsgGeneratingOrders NUM_ORDERS (length (id_pool urows))
                   (length (id_pool prows)))) = (Ok orders, st5) →
  orders ≠ [] →
  insert_in_batches env "orders" orders BATCH_SIZE st5 = (Ok orows, st6) →
  main env st
  = (Ok tt, logged (logged (logged st6 MsgRule) MsgScriptFinished) MsgRule).
Proof.
  intros Hgen Hins Hpool Hgen' Hins' Hpool' Hgen'' Hord Hins''. unfold main.
  step_print. step Hgen. step Hins. step (ids_of_run urows st2).
  destruct (id_pool urows) as [| u us] eqn:Hu; [congruence |].
  cbn [truthy_list negb].
  rewrite (mbind_ok (mret tt) _ st2 st2 tt) by reflexivity.
  step Hgen'. step Hins'. step (ids_of_run prows st4).
  destruct (id_pool prows) as [| p ps] eqn:Hp; [congruence |].
  cbn [truthy_list negb].
  rewrite (mbind_ok (mret tt) _ st4 st4 tt) by reflexivity.
  step_print. step Hgen''.
  destruct orders as [| o os]; [congruence |]. cbn [truthy_list].
  rewrite (mbind_ok _ _ st5 st6 tt) by (step Hins''; reflexivity).
  step_print. step_print. reflexivity.
Qed.

End Driver.

(** *** Configuration *)

(** C9: when the service URL or the service key is absent from the
    environment, the script raises its configuration error in the state it
    started in: no random draw, no remote call, no output came before. *)
Theorem script_requires_configuration (env : Env) (st : state) :
  environ env !! "SUPABASE_URL" = None
  ∨ environ env !! "SUPABASE_SERVICE_KEY" = None →
  script env st
  = (Err (ValueError
       "SUPABASE_URL and SUPABASE_SERVICE_KEY must be set in the .env file"), st).
Proof.
  intros [H | H]; unfold script; rewrite H; cbn [truthy_opt negb orb].
  - reflexivity.
  - rewrite orb_true_r. reflexivity.
Qed.

Lemma script_requires_configuration_witness :
  script {| environ := {[ "SUPABASE_URL" := "https://db.example" ]};
            fake := demo_faker; source := λ _, 0%N;
            supabase := demo_supabase; backend := echo_backend |}
         initial
  = (Err (ValueError
       "SUPABASE_URL and SUPABASE_SERVICE_KEY must be set in the .env file"), initial).
Proof.
  apply script_requires_configuration. right. reflexivity.
Defined.

(** With both values present and non-empty the script calls the client
    constructor on them. *)
Lemma script_creates_client (env : Env) (st : state) (url key : string) :
  environ env !! "SUPABASE_URL" = Some url → truthy_str url = true →
  environ env !! "SUPABASE_SERVICE_KEY" = Some key → truthy_str key = true →
  script env st = (create_client env url key;; main env) st.
Proof.
  intros Hu Hut Hk Hkt. unfold script. rewrite Hu, Hk. cbn [truthy_opt default].
  rewrite Hut, Hkt. reflexivity.
Qed.

(** If the constructor returns, the script records the client's creation
    and runs the main block. *)
Lemma script_configured (env : Env) (st : state) (url key : string) :
  environ env !! "SUPABASE_URL" = Some url → truthy_str url = true →
  environ env !! "SUPABASE_SERVICE_KEY" = Some key → truthy_str key = true →
  supabase env url key = None →
  script env st
  = main env {| cursor := cursor st; unique_seen := unique_seen st;
                ncalls := ncalls st;
                trace := trace st ++ [CreateClient url key] |}.
Proof.
  intros Hu Hut Hk Hkt Hc. rewrite (script_creates_client env st url key) by assumption.
  unfold create_client. rewrite Hc. reflexivity.
Qed.

(** If the constructor raises, so does the script, in the state it started
    in: the main block does not run. *)
Lemma script_client_refused (env : Env) (st : state) (url key e : string) :
  environ env !! "SUPABASE_URL" = Some url → truthy_str url = true →
  environ env !! "SUPABASE_SERVICE_KEY" = Some key → truthy_str key = true →
  supabase env url key = Some e →
  script env st = (Err (Exception e), st).
Proof.
  intros Hu Hut Hk Hkt Hc. rewrite (script_creates_client env st url key) by assumption.
  unfold create_client. rewrite Hc. reflexivity.
Qed.

(** *** Early abort *)

Section Abort.

Context (env : Env).

(** What the user stage leaves behind. *)
Lemma users_stage_facts (st st1 st2 : state) (users urows : list record) :
  generate_users env NUM_USERS (logged st MsgStarting) = (Ok users, st1) →
  insert_in_batches env "users" users BATCH_SIZE st1 = (Ok urows, st2) →
  ∃ k evs, st2 = after_calls st1 k evs ∧ urows = confirmed evs
    ∧ Forall (inserter_event "users" users) evs
    ∧ trace st1 = trace st ++ [Print MsgStarting].
Proof.
  intros Hgen Hins.
  destruct (generate_users_all env (λ _, True) NUM_USERS (logged st MsgStarting))
    as (users' & st1' & Hgen' & _ & _ & _ & Htr); [done |].
  rewrite Hgen in Hgen'. inversion Hgen'; subst users' st1'.
  destruct (insert_in_batches_total env "users" users BATCH_SIZE st1)
    as (k & evs & Hins' & Hall); [discriminate |].
  rewrite Hins in Hins'. inversion Hins'.
  exists k, evs. repeat split; [exact Hall | exact Htr].
Qed.

(** C4: when the user stage yields no confirmed id, the driver exits at
    once.  The final state is the state the user inserts left plus the
    critical line: the random source was not drawn from after the users
    were generated (no product, no order was generated), no further remote
    call was made, and every remote call of the run went to the users
    table. *)
Theorem main_aborts_without_user_ids (st st1 st2 : state)
    (users urows : list record) :
  generate_users env NUM_USERS (logged st MsgStarting) = (Ok users, st1) →
  insert_in_batches env "users" users BATCH_SIZE st1 = (Ok urows, st2) →
  id_pool urows = [] →
  ∃ st', main env st = (Err SystemExit, st')
    ∧ st' = logged st2 MsgCriticalUsers
    ∧ cursor st' = cursor st1
    ∧ ncalls st' = ncalls st2
    ∧ (∀ t b o, RemoteInsert t b o ∈ trace st' →
         RemoteInsert t b o ∈ trace st ∨ t = "users").
Proof.
  intros Hgen Hins Hpool.
  exists (logged st2 MsgCriticalUsers).
  split; [exact (main_users_abort env st st1 st2 users urows Hgen Hins Hpool) |].
  destruct (users_stage_facts st st1 st2 users urows Hgen Hins)
    as (k & evs & -> & _ & Hall & Htr).
  split; [reflexivity |]. split; [reflexivity |]. split; [reflexivity |].
  intros t b o Hin. cbn [logged after_calls trace] in Hin. rewrite Htr in Hin.
  rewrite !elem_of_app in Hin.
  destruct Hin as [[[Hin | Hin] | Hin] | Hin].
  - left. exact Hin.
  - apply list_elem_of_singleton in Hin. discriminate.
  - right. rewrite Forall_forall in Hall.
    destruct (Hall _ Hin) as [Hp | (b' & o' & Heq & _)]; [destruct Hp |].
    inversion Heq. reflexivity.
  - apply list_elem_of_singleton in Hin. discriminate.
Qed.

(** C10: an id pool holds exactly the ids of the returned records that
    have an ['id'] key.  When every record confirmed by the user stage, or
    by the product stage, lacks that key, the driver aborts as it does when
    nothing was confirmed (the empty list of records is a special case). *)
Theorem id_pools_need_id_key (st : state) :
  (∀ rows s, ∃ ids, ids_of rows s = (Ok ids, s)
     ∧ ∀ v, v ∈ ids ↔ ∃ r, r ∈ rows ∧ r !! "id" = Some v)
  ∧ (∀ st1 st2 users urows,
       generate_users env NUM_USERS (logged st MsgStarting) = (Ok users, st1) →
       insert_in_batches env "users" users BATCH_SIZE st1 = (Ok urows, st2) →
       Forall (λ r, r !! "id" = None) urows →
       main env st = (Err SystemExit, logged st2 MsgCriticalUsers))
  ∧ (∀ st1 st2 st3 st4 users urows products prows,
       generate_users env NUM_USERS (logged st MsgStarting) = (Ok users, st1) →
       insert_in_batches env "users" users BATCH_SIZE st1 = (Ok urows, st2) →
       id_pool urows ≠ [] →
       generate_products env NUM_PRODUCTS st2 = (Ok products, st3) →
       insert_in_batches env "products" products BATCH_SIZE st3 = (Ok prows, st4) →
       Forall (λ r, r !! "id" = None) prows →
       main env st = (Err SystemExit, logged st4 MsgCriticalProducts)).
Proof.
  split; [| split].
  - intros rows s. exists (id_pool rows).
    split; [apply ids_of_run | apply id_pool_elem_of].
  - intros st1 st2 users urows Hgen Hins Hnoid.
    apply (main_users_abort env st st1 st2 users urows Hgen Hins).
    apply id_pool_without_ids. exact Hnoid.
  - intros st1 st2 st3 st4 users urows products prows Hgen Hins Hu Hgen' Hins' Hnoid.
    apply (main_products_abort env st st1 st2 st3 st4 users urows products prows);
      try assumption.
    apply id_pool_without_ids. exact Hnoid.
Qed.

End Abort.

(** *** Order references in a run *)

Lemma app_split_prefix {A} (l1 l2 pre post : list A) (x : A) :
  l1 ++ l2 = pre ++ x :: post → x ∉ l1 →
  ∃ pre', pre = l1 ++ pre' ∧ l2 = pre' ++ x :: post.
Proof.
  revert pre. induction l1 as [| y l1 IH]; intros pre Heq Hnot.
  - exists pre. split; [reflexivity | exact Heq].
  - destruct pre as [| z pre]; cbn in Heq; inversion Heq; subst.
    + exfalso. apply Hnot. left.
    + destruct (IH pre ltac:(assumption)) as (pre' & -> & Hl2).
      { intros Hin. apply Hnot. right. exact Hin. }
      exists pre'. split; [reflexivity | exact Hl2].
Qed.

Lemma inserter_event_table (table_name : string) (data : list record)
    (evs : list event) t b o :
  Forall (inserter_event table_name data) evs →
  RemoteInsert t b o ∈ evs → t = table_name ∧ b ⊆ data.
Proof.
  intros Hall Hin. rewrite Forall_forall in Hall.
  destruct (Hall _ Hin) as [Hp | (b' & o' & Heq & Hsub)]; [destruct Hp |].
  inversion Heq; subst. split; [reflexivity | exact Hsub].
Qed.

Lemma returned_id_from_pool (table_name : string) (data : list record)
    (evs : list event) (v : value) :
  Forall (inserter_event table_name data) evs →
  v ∈ id_pool (confirmed evs) → returned_id table_name v evs.
Proof.
  intros Hall Hv. apply id_pool_elem_of in Hv as (row & Hrow & Hid).
  apply confirmed_elem_of in Hrow as (t & b & resp & rows & Hin & Hdata & Htruthy & Hrow).
  destruct (inserter_event_table _ _ _ _ _ _ Hall Hin) as [-> _].
  exists b, resp, rows, row. auto.
Qed.

Lemma returned_id_mono (table_name : string) (v : value) (evs evs' : list event) :
  evs ⊆ evs' → returned_id table_name v evs → returned_id table_name v evs'.
Proof.
  intros Hsub (b & resp & rows & row & Hin & H). exists b, resp, rows, row.
  split; [apply Hsub; exact Hin | exact H].
Qed.

Lemma orders_grounded_none (evs : list event) :
  (∀ b o, RemoteInsert "orders" b o ∉ evs) → orders_grounded evs.
Proof.
  intros Hnone pre b o post ord Heq _. exfalso. apply (Hnone b o).
  rewrite Heq. apply elem_of_app. right. left.
Qed.

Section Run.

Context (env : Env).

Lemma main_orders_grounded (st : state) :
  ∃ evs, trace (main env st).2 = trace st ++ evs ∧ orders_grounded evs.
Proof.
  (* users *)
  destruct (generate_users_all env (λ _, True) NUM_USERS (logged st MsgStarting))
    as (users & st1 & Hgen & _ & _ & _ & Htr1); [done |].
  destruct (insert_in_batches_total env "users" users BATCH_SIZE st1)
    as (ku & evs_u & Hins & Hall_u); [discriminate |].
  destruct (decide (id_pool (confirmed evs_u) = [])) as [Hu | Hu].
  { rewrite (main_users_abort env st _ _ _ _ Hgen Hins Hu).
    exists (Print MsgStarting :: evs_u ++ [Print MsgCriticalUsers]). split.
    - cbn [snd logged after_calls trace]. rewrite Htr1. cbn [logged trace].
      rewrite <- !app_assoc. reflexivity.
    - apply orders_grounded_none. intros b o Hin.
      apply elem_of_cons in Hin as [Hin | Hin]; [discriminate |].
      apply elem_of_app in Hin as [Hin | Hin].
      + apply (inserter_event_table _ _ _ _ _ _ Hall_u) in Hin as [Ht _]. discriminate.
      + apply list_elem_of_singleton in Hin. discriminate. }
  (* products *)
  destruct (generate_products_all env (λ _, True) NUM_PRODUCTS (after_calls st1 ku evs_u))
    as (products & st3 & Hgen' & _ & _ & _ & Htr3); [done |].
  destruct (insert_in_batches_total env "products" products BATCH_SIZE st3)
    as (kp & evs_p & Hins' & Hall_p); [discriminate |].
  destruct (decide (id_pool (confirmed evs_p) = [])) as [Hp | Hp].
  { rewrite (main_products_abort env st _ _ _ _ _ _ _ _ Hgen Hins Hu Hgen' Hins' Hp).
    exists (Print MsgStarting :: evs_u ++ evs_p ++ [Print MsgCriticalProducts]). split.
    - cbn [snd logged after_calls trace]. rewrite Htr3. cbn [after_calls trace].
      rewrite Htr1. cbn [logged trace]. rewrite <- !app_assoc. reflexivity.
    - apply orders_grounded_none. intros b o Hin.
      apply elem_of_cons in Hin as [Hin | Hin]; [discriminate |].
      apply elem_of_app in Hin as [Hin | Hin];
        [apply (inserter_event_table _ _ _ _ _ _ Hall_u) in Hin as [Ht _]; discriminate |].
      apply elem_of_app in Hin as [Hin | Hin];
        [apply (inserter_event_table _ _ _ _ _ _ Hall_p) in Hin as [Ht _]; discriminate |].
      apply list_elem_of_singleton in Hin. discriminate. }
  (* orders *)
  set (msg := MsgGeneratingOrders NUM_ORDERS (length (id_pool (confirmed evs_u)))
                (length (id_pool (confirmed evs_p)))).
  destruct (generate_orders_all env
              (λ o, ∃ u p, o !! "user_id" = Some u ∧ u ∈ id_pool (confirmed evs_u)
                         ∧ o !! "product_id" = Some p ∧ p ∈ id_pool (confirmed evs_p))
              NUM_ORDERS (id_pool (confirmed evs_u)) (id_pool (confirmed evs_p))
              (logged (after_calls st3 kp evs_p) msg) Hu Hp)
    as (orders & st5 & Hgen'' & Hlen & Hrefs & _ & Htr5).
  { intros u p d status date Hin_u Hin_p _. exists u, p.
    split; [reflexivity |]. split; [exact Hin_u |]. split; [reflexivity | exact Hin_p]. }
  assert (Hord : orders ≠ []) by (intros ->; vm_compute in Hlen; discriminate).
  destruct (insert_in_batches_total env "orders" orders BATCH_SIZE st5)
    as (ko & evs_o & Hins'' & Hall_o); [discriminate |].
  rewrite (main_completes env st _ _ _ _ _ _ _ _ _ _ _ _
             Hgen Hins Hu Hgen' Hins' Hp Hgen'' Hord Hins'').
  set (head := Print MsgStarting :: evs_u ++ evs_p ++ [Print msg]).
  set (tail := [Print MsgRule; Print MsgScriptFinished; Print MsgRule]).
  exists (head ++ evs_o ++ tail). split.
  - cbn [snd logged after_calls trace]. rewrite Htr5. cbn [logged after_calls trace].
    rewrite Htr3. cbn [after_calls trace]. rewrite Htr1. cbn [logged trace].
    subst head tail. cbn [app]. rewrite <- !app_assoc. reflexivity.
  - intros pre b o post ord Heq Hord_in.
    apply app_split_prefix in Heq as (pre' & -> & Hrest).
    2:{ subst head. intros Hin.
        apply elem_of_cons in Hin as [Hin | Hin]; [discriminate |].
        apply elem_of_app in Hin as [Hin | Hin];
          [apply (inserter_event_table _ _ _ _ _ _ Hall_u) in Hin as [Ht _]; discriminate |].
        apply elem_of_app in Hin as [Hin | Hin];
          [apply (inserter_event_table _ _ _ _ _ _ Hall_p) in Hin as [Ht _]; discriminate |].
        apply list_elem_of_singleton in Hin. discriminate. }
    assert (Hin : RemoteInsert "orders" b o ∈ evs_o).
    { assert (Hin : RemoteInsert "orders" b o ∈ evs_o ++ tail)
        by (rewrite Hrest; apply elem_of_app; right; left).
      apply elem_of_app in Hin as [Hin | Hin]; [exact Hin |].
      subst tail. repeat (apply elem_of_cons in Hin as [Hin | Hin]; [discriminate |]).
      inversion Hin. }
    apply (inserter_event_table _ _ _ _ _ _ Hall_o) in Hin as [_ Hsub].
    rewrite Forall_forall in Hrefs.
    destruct (Hrefs ord (Hsub ord Hord_in)) as (u & p & Hu_get & Hu_in & Hp_get & Hp_in).
    exists u, p. split; [exact Hu_get |]. split; [exact Hp_get |]. split.
    + apply (returned_id_mono "users" u evs_u);
        [| exact (returned_id_from_pool _ _ _ _ Hall_u Hu_in)].
      intros ev Hev. subst head. apply elem_of_app. left. right.
      apply elem_of_app. left. exact Hev.
    + apply (returned_id_mono "products" p evs_p);
        [| exact (returned_id_from_pool _ _ _ _ Hall_p Hp_in)].
      intros ev Hev. subst head. apply elem_of_app. left. right.
      apply elem_of_app. right. apply elem_of_app. left. exact Hev.
Qed.

End Run.

(** C3: an order produced by the generator takes its user id from the
    user id pool and its product id from the product id pool; and in a run
    of the driver every order submitted to the backend refers to a user id
    and a product id found under ['id'] in a row that the backend returned,
    in a response carrying data, to an earlier insert into the users table,
    respectively the products table. *)
Theorem orders_reference_returned_ids (env : Env) :
  (∀ count user_ids product_ids st orders st',
     generate_orders env count user_ids product_ids st = (Ok orders, st') →
     ∀ o, o ∈ orders →
       ∃ u p, o !! "user_id" = Some u ∧ u ∈ user_ids
            ∧ o !! "product_id" = Some p ∧ p ∈ product_ids)
  ∧ (∀ st, ∃ evs, trace (main env st).2 = trace st ++ evs
       ∧ ∀ pre b o post ord,
           evs = pre ++ RemoteInsert "orders" b o :: post → ord ∈ b →
           ∃ u p, ord !! "user_id" = Some u ∧ ord !! "product_id" = Some p
                ∧ returned_id "users" u pre ∧ returned_id "products" p pre).
Proof.
  split.
  - intros count user_ids product_ids st orders st'.
    apply generate_orders_references.
  - intros st. apply main_orders_grounded.
Qed.

(** *** Runs against the example backends *)

(** A property of the rows each answer carries holds of the result. *)
Lemma insert_in_batches_rows (env : Env) (P : record → Prop)
    (table_name : string) (data : list record) (batch_size : Z) (st : state) :
  batch_size ≠ 0 →
  (∀ n b, b ⊆ data → Forall P (batch_rows (backend env n table_name b))) →
  ∃ rows st', insert_in_batches env table_name data batch_size st = (Ok rows, st')
    ∧ Forall P rows.
Proof.
  intros Hb Hanswer.
  assert (Hrange : ∃ idxs, range 0 (Z.of_nat (length data)) batch_size = Ok idxs).
  { unfold range. destruct (Z.eqb_spec batch_size 0) as [? | _]; [contradiction | eauto]. }
  destruct Hrange as (idxs & Hrange).
  pose proof (insert_in_batches_run env table_name data batch_size st idxs Hrange)
    as Hrun.
  cbv zeta in Hrun. eexists _, _. split; [exact Hrun |]. clear Hrun Hrange.
  generalize (ncalls st). induction idxs as [| i rest IH]; intros n; [constructor |].
  cbn [batch_calls flat_map snd]. apply Forall_app. split; [| apply IH].
  apply Hanswer, slice_subseteq.
Qed.

Lemma Forall_False_nil {A} (l : list A) : Forall (λ _, False) l → l = [].
Proof. intros H. destruct H as [| x l []]. reflexivity. Qed.

Lemma main_aborts_without_user_ids_witness :
  ∃ st1 st2 st',
    main (demo_env down_backend) initial = (Err SystemExit, st')
    ∧ st' = logged st2 MsgCriticalUsers
    ∧ cursor st' = cursor st1
    ∧ ncalls st' = ncalls st2
    ∧ (∀ t b o, RemoteInsert t b o ∈ trace st' →
         RemoteInsert t b o ∈ trace initial ∨ t = "users").
Proof.
  destruct (generate_users_all (demo_env down_backend) (λ _, True) NUM_USERS
              (logged initial MsgStarting)) as (users & st1 & Hgen & _);
    [intros; exact I |].
  destruct (insert_in_batches_rows (demo_env down_backend) (λ _, False)
              "users" users BATCH_SIZE st1) as (urows & st2 & Hins & Hnone);
    [discriminate | intros n b _; constructor |].
  apply Forall_False_nil in Hnone. subst urows.
  exists st1, st2.
  exact (main_aborts_without_user_ids (demo_env down_backend) initial st1 st2
           users [] Hgen Hins eq_refl).
Defined.

Lemma idless_answers (users : list record) (n : nat) (b : list record) :
  Forall (λ r, r !! "id" = None) users → b ⊆ users →
  Forall (λ r, r !! "id" = None)
    (batch_rows (backend (demo_env idless_backend) n "users" b)).
Proof.
  intros Hall Hsub. cbn [backend demo_env idless_backend batch_rows resp_data].
  assert (Hb : Forall (λ r : record, r !! "id" = None) b).
  { rewrite Forall_forall in *. intros r Hr. apply Hall, Hsub, Hr. }
  destruct b; cbn; [constructor | exact Hb].
Qed.

Lemma id_pools_need_id_key_witness :
  ∃ st2, main (demo_env idless_backend) initial
         = (Err SystemExit, logged st2 MsgCriticalUsers).
Proof.
  destruct (generate_users_all (demo_env idless_backend)
              (λ r, r !! "id" = None) NUM_USERS (logged initial MsgStarting))
    as (users & st1 & Hgen & _ & Hnoid & _);
    [intros; reflexivity |].
  destruct (insert_in_batches_rows (demo_env idless_backend)
              (λ r, r !! "id" = None) "users" users BATCH_SIZE st1)
    as (urows & st2 & Hins & Hrows);
    [discriminate | intros n b Hsub; exact (idless_answers users n b Hnoid Hsub) |].
  exists st2.
  exact (proj1 (proj2 (id_pools_need_id_key (demo_env idless_backend) initial))
           st1 st2 users urows Hgen Hins Hrows).
Defined.

Lemma orders_reference_returned_ids_witness :
  ∃ orders st',
    generate_orders (demo_env echo_backend) 3 [VInt 1; VInt 2] [VInt 7] initial
      = (Ok orders, st')
    ∧ ∀ o, o ∈ orders →
        ∃ u p, o !! "user_id" = Some u ∧ u ∈ [VInt 1; VInt 2]
             ∧ o !! "product_id" = Some p ∧ p ∈ [VInt 7].
Proof.
  destruct (generate_orders_all (demo_env echo_backend) (λ _, True) 3
              [VInt 1; VInt 2] [VInt 7] initial) as (orders & st' & H & _);
    [discriminate | discriminate | intros; exact I |].
  exists orders, st'. split; [exact H |].
  exact (proj1 (orders_reference_returned_ids (demo_env echo_backend))
           3 [VInt 1; VInt 2] [VInt 7] initial orders st' H).
Defined.

(** A complete run against the confirming backend: two batches of users,
    five of products, twenty-five of orders, in this order. *)
Example full_run_batches :
  map (λ tb, (tb.1, length tb.2))
      (submitted (trace (script (demo_env echo_backend) initial).2))
  = replicate 2 ("users", 100%nat) ++ replicate 5 ("products", 100%nat)
      ++ replicate 25 ("orders", 100%nat).
Proof. vm_compute. reflexivity. Qed.

(** * Further properties of the generators *)

Section GeneratorRuns.

Context (env : Env).

(** A run of the user generator: the records it returns, the random draws
    it consumes, and what it leaves alone. *)
Lemma generate_users_run (Q : record → Prop) (count : Z) (st : state) :
  (∀ name email city date,
     Q {[ "name" := VStr name; "email" := VStr email; "city" := VStr city;
          "signup_date" := VStr date ]}) →
  ∃ users st', generate_users env count st = (Ok users, st')
    ∧ length users = Z.to_nat count ∧ Forall Q users
    ∧ cursor st' = (cursor st + 4 * Z.to_nat count)%nat
    ∧ unique_seen st' = ∅
    ∧ ncalls st' = ncalls st ∧ trace st' = trace st.
Proof.
  intros HQ. unfold generate_users.
  destruct (range_unit_length count) as (idxs & -> & Hlen).
  unfold_M. cbv beta iota.
  set (P := λ (n : nat) (acc : list record) (s : state),
              length acc = n ∧ Forall Q acc
              ∧ cursor s = (cursor st + 4 * n)%nat
              ∧ ncalls s = ncalls st ∧ trace s = trace st).
  loop_inv P st (users & st1 & Hloop & Hn & Hall & Hcur & Hcalls & Htr);
    [| | rewrite Hloop].
  - intros n x acc s (Hn & Hall & Hcur & Hcalls & Htr).
    eexists _, _. split; [reflexivity |]. unfold P. cbn [cursor ncalls trace].
    split; [rewrite length_app; simpl; lia |].
    split; [apply Forall_app; split; [exact Hall |];
            constructor; [apply HQ | constructor] |].
    split; [lia |]. split; assumption.
  - unfold P. split; [reflexivity |]. split; [constructor |].
    split; [lia |]. split; reflexivity.
  - eexists _, _. split; [reflexivity |]. cbn [cursor unique_seen ncalls trace].
    simpl in Hn. split; [lia |]. split; [exact Hall |].
    split; [rewrite Hcur, Hlen; lia |]. split; [reflexivity |]. split; assumption.
Qed.

Lemma generate_products_run (Q : record → Prop) (count : Z) (st : state) :
  (∀ name description du category d,
     category ∈ categories →
     Q {[ "name" := VStr name; "description" := VStr description;
          "price" := VFloat (price_of du);
          "category" := VStr category;
          "stock_quantity" := VInt (0 + Z.of_N d mod (250 - 0 + 1)) ]}) →
  ∃ products st', generate_products env count st = (Ok products, st')
    ∧ length products = Z.to_nat count ∧ Forall Q products
    ∧ cursor st' = (cursor st + 6 * Z.to_nat count)%nat
    ∧ unique_seen st' = unique_seen st
    ∧ ncalls st' = ncalls st ∧ trace st' = trace st.
Proof.
  intros HQ. unfold generate_products.
  destruct (range_unit_length count) as (idxs & -> & Hlen).
  unfold_M. cbv beta iota.
  set (P := λ (n : nat) (acc : list record) (s : state),
              length acc = n ∧ Forall Q acc
              ∧ cursor s = (cursor st + 6 * n)%nat
              ∧ unique_seen s = unique_seen st
              ∧ ncalls s = ncalls st ∧ trace s = trace st).
  loop_inv P st (products & st1 & Hloop & Hn & Hall & Hcur & Hseen & Hcalls & Htr);
    [| | rewrite Hloop].
  - intros n x acc s (Hn & Hall & Hcur & Hseen & Hcalls & Htr).
    eexists _, _. split; [reflexivity |]. unfold P. cbn [cursor unique_seen ncalls trace].
    split; [rewrite length_app; simpl; lia |].
    split; [apply Forall_app; split; [exact Hall |];
            constructor; [| constructor]; apply HQ;
            apply (choice_elem_of categories); discriminate |].
    split; [lia |]. split; [assumption |]. split; assumption.
  - unfold P. split; [reflexivity |]. split; [constructor |].
    split; [lia |]. split; [reflexivity |]. split; reflexivity.
  - eexists _, _. split; [reflexivity |].
    simpl in Hn. split; [lia |]. split; [exact Hall |].
    split; [rewrite Hcur, Hlen; lia |]. split; [assumption |]. split; assumption.
Qed.

Lemma generate_orders_run (Q : record → Prop) (count : Z)
    (user_ids product_ids : list value) (st : state) :
  user_ids ≠ [] → product_ids ≠ [] →
  (∀ user_id product_id d status date,
     user_id ∈ user_ids → product_id ∈ product_ids → status ∈ statuses →
     Q {[ "user_id" := user_id; "product_id" := product_id;
          "quantity" := VInt (1 + Z.of_N d mod (8 - 1 + 1));
          "order_status" := VStr status; "order_date" := VStr date ]}) →
  ∃ orders st', generate_orders env count user_ids product_ids st = (Ok orders, st')
    ∧ length orders = Z.to_nat count ∧ Forall Q orders
    ∧ cursor st' = (cursor st + 5 * Z.to_nat count)%nat
    ∧ unique_seen st' = unique_seen st
    ∧ ncalls st' = ncalls st ∧ trace st' = trace st.
Proof.
  intros Hu Hp HQ. unfold generate_orders.
  destruct user_ids as [| u0 us]; [congruence |].
  destruct product_ids as [| p0 ps]; [congruence |].
  cbn [truthy_list negb orb].
  destruct (range_unit_length count) as (idxs & -> & Hlen).
  unfold_M. cbv beta iota.
  set (P := λ (n : nat) (acc : list record) (s : state),
              length acc = n ∧ Forall Q acc
              ∧ cursor s = (cursor st + 5 * n)%nat
              ∧ unique_seen s = unique_seen st
              ∧ ncalls s = ncalls st ∧ trace s = trace st).
  loop_inv P st (orders & st1 & Hloop & Hn & Hall & Hcur & Hseen & Hcalls & Htr);
    [| | rewrite Hloop].
  - intros n x acc s (Hn & Hall & Hcur & Hseen & Hcalls & Htr).
    eexists _, _. split; [reflexivity |]. unfold P. cbn [cursor unique_seen ncalls trace].
    split; [rewrite length_app; simpl; lia |].
    split; [apply Forall_app; split; [exact Hall |];
            constructor; [| constructor]; apply HQ;
            [apply (choice_elem_of (u0 :: us)) | apply (choice_elem_of (p0 :: ps))
             | apply (choice_elem_of statuses)]; discriminate |].
    split; [lia |]. split; [assumption |]. split; assumption.
  - unfold P. split; [reflexivity |]. split; [constructor |].
    split; [lia |]. split; [reflexivity |]. split; reflexivity.
  - eexists _, _. split; [reflexivity |].
    simpl in Hn. split; [lia |]. split; [exact Hall |].
    split; [rewrite Hcur, Hlen; lia |]. split; [assumption |]. split; assumption.
Qed.

End GeneratorRuns.

(** ** Shape and ranges of the generated records *)


(** X1: every user record has exactly the keys name, email, city and
    signup_date, each bound to a string. *)
Theorem generate_users_shape (env : Env) (count : Z) (st : state) :
  ∃ users st', generate_users env count st = (Ok users, st')
    ∧ ∀ u, u ∈ users →
        dom u = {[ "name"; "email"; "city"; "signup_date" ]}
        ∧ ∀ k v, u !! k = Some v → ∃ s, v = VStr s.
Proof.
  destruct (generate_users_run env
    (λ u, dom u = ({[ "name"; "email"; "city"; "signup_date" ]} : gset string)
          ∧ ∀ k v, u !! k = Some v → ∃ s, v = VStr s) count st)
    as (users & st' & Hrun & _ & Hall & _).
  - intros name email city date. split.
    + rewrite !dom_insert_L, dom_singleton_L. set_solver.
    + intros k v Hk.
      repeat (apply lookup_insert_Some in Hk as [[_ <-] | [_ Hk]]; [eauto |]).
      apply lookup_singleton_Some in Hk as [_ <-]. eauto.
  - exists users, st'. split; [exact Hrun |].
    intros u Hu. rewrite Forall_forall in Hall. exact (Hall u Hu).
Qed.

(** X2: every product record has exactly the keys name, description,
    price, category and stock_quantity; its price is the rounded draw
    itself, the float of a decimal between 1.00 and 2500.00, finite, of an
    exact value between 1 and 2500, and neither below 1.0 nor above 2500.0
    as floats compare; its category is one of the ten listed, its stock
    between 0 and 250. *)
Theorem generate_products_shape (env : Env) (count : Z) (st : state) :
  ∃ products st', generate_products env count st = (Ok products, st')
    ∧ ∀ p, p ∈ products →
        dom p = {[ "name"; "description"; "price"; "category"; "stock_quantity" ]}
        ∧ ∃ (price : float) (d : N) (k m : positive) (e : Z)
            (category : string) (stock : Z),
            p !! "price" = Some (VFloat price)
            ∧ price
              = round (float_add (float_of_Z 1)
                         (float_mul (float_sub (float_of_Z 2500) (float_of_Z 1))
                                    (random d))) 2
            ∧ price = decimal false k 2 ∧ 100 ≤ Z.pos k ≤ 250000
            ∧ price = S754_finite false m e
            ∧ (1 <= float_to_Q m e)%Q ∧ (float_to_Q m e <= 2500)%Q
            ∧ float_lt price (float_of_Z 1) = false
            ∧ float_lt (float_of_Z 2500) price = false
            ∧ p !! "category" = Some (VStr category) ∧ category ∈ categories
            ∧ p !! "stock_quantity" = Some (VInt stock) ∧ 0 ≤ stock ≤ 250.
Proof.
  destruct (generate_products_run env
    (λ p, dom p = ({[ "name"; "description"; "price"; "category";
                      "stock_quantity" ]} : gset string)
          ∧ ∃ (price : float) (d : N) (k m : positive) (e : Z)
              (category : string) (stock : Z),
              p !! "price" = Some (VFloat price)
              ∧ price
                = round (float_add (float_of_Z 1)
                           (float_mul (float_sub (float_of_Z 2500) (float_of_Z 1))
                                      (random d))) 2
              ∧ price = decimal false k 2 ∧ 100 ≤ Z.pos k ≤ 250000
              ∧ price = S754_finite false m e
              ∧ (1 <= float_to_Q m e)%Q ∧ (float_to_Q m e <= 2500)%Q
              ∧ float_lt price (float_of_Z 1) = false
              ∧ float_lt (float_of_Z 2500) price = false
              ∧ p !! "category" = Some (VStr category) ∧ category ∈ categories
              ∧ p !! "stock_quantity" = Some (VInt stock) ∧ 0 ≤ stock ≤ 250)
    count st) as (products & st' & Hrun & _ & Hall & _).
  - intros name description du category d Hcat. split.
    + rewrite !dom_insert_L, dom_singleton_L. set_solver.
    + destruct (price_of_spec du)
        as (k & m & e & Hk & Hrange & Hfin & He & _ & Hb & Hround & _).
      destruct (float_to_Q_between 1 2500 m e ltac:(lia) Hb) as [Hlo Hhi].
      destruct (price_of_range du) as [Hge Hle].
      exists (price_of du), du, k, m, e, category, (0 + Z.of_N d mod (250 - 0 + 1)).
      split; [reflexivity |]. split; [exact Hround |]. split; [exact Hk |].
      split; [exact Hrange |]. split; [exact Hfin |].
      split; [exact Hlo |]. split; [exact Hhi |].
      split; [exact Hge |]. split; [exact Hle |].
      split; [reflexivity |]. split; [exact Hcat |]. split; [reflexivity |].
      pose proof (Z.mod_pos_bound (Z.of_N d) (250 - 0 + 1) ltac:(lia)). lia.
  - exists products, st'. split; [exact Hrun |].
    intros p Hp. rewrite Forall_forall in Hall. exact (Hall p Hp).
Qed.

(** X3: every order record has exactly the keys user_id, product_id,
    quantity, order_status and order_date; its quantity lies between 1 and
    8 and its status is one of the five listed. *)
Theorem generate_orders_shape (env : Env) (count : Z)
    (user_ids product_ids : list value) (st st' : state) (orders : list record) :
  generate_orders env count user_ids product_ids st = (Ok orders, st') →
  ∀ o, o ∈ orders →
    dom o = {[ "user_id"; "product_id"; "quantity"; "order_status"; "order_date" ]}
    ∧ ∃ (quantity : Z) (status : string),
        o !! "quantity" = Some (VInt quantity) ∧ 1 ≤ quantity ≤ 8
        ∧ o !! "order_status" = Some (VStr status) ∧ status ∈ statuses.
Proof.
  intros Hrun o Ho.
  destruct (decide (user_ids = [])) as [Hu | Hu];
    [rewrite generate_orders_unmet in Hrun by (left; exact Hu);
     inversion Hrun; subst orders; inversion Ho |].
  destruct (decide (product_ids = [])) as [Hp | Hp];
    [rewrite generate_orders_unmet in Hrun by (right; exact Hp);
     inversion Hrun; subst orders; inversion Ho |].
  destruct (generate_orders_run env
    (λ o, dom o = ({[ "user_id"; "product_id"; "quantity"; "order_status";
                      "order_date" ]} : gset string)
          ∧ ∃ (quantity : Z) (status : string),
              o !! "quantity" = Some (VInt quantity) ∧ 1 ≤ quantity ≤ 8
              ∧ o !! "order_status" = Some (VStr status) ∧ status ∈ statuses)
    count user_ids product_ids st Hu Hp) as (os & st1 & Hrun' & _ & Hall & _).
  - intros u p d status date _ _ Hstatus. split.
    + rewrite !dom_insert_L, dom_singleton_L. set_solver.
    + eexists _, status. split; [reflexivity |].
      split; [pose proof (Z.mod_pos_bound (Z.of_N d) (8 - 1 + 1) ltac:(lia)); lia |].
      split; [reflexivity | exact Hstatus].
  - rewrite Hrun in Hrun'. inversion Hrun'; subst os.
    rewrite Forall_forall in Hall. exact (Hall o Ho).
Qed.

Lemma generate_orders_shape_witness :
  ∃ orders st',
    generate_orders (demo_env echo_backend) 3 [VInt 1; VInt 2] [VInt 7] initial
      = (Ok orders, st')
    ∧ ∀ o, o ∈ orders →
        dom o = {[ "user_id"; "product_id"; "quantity"; "order_status"; "order_date" ]}
        ∧ ∃ (quantity : Z) (status : string),
            o !! "quantity" = Some (VInt quantity) ∧ 1 ≤ quantity ≤ 8
            ∧ o !! "order_status" = Some (VStr status) ∧ status ∈ statuses.
Proof.
  destruct (generate_orders_all (demo_env echo_backend) (λ _, True) 3
              [VInt 1; VInt 2] [VInt 7] initial) as (orders & st' & H & _);
    [discriminate | discriminate | intros; exact I |].
  exists orders, st'. split; [exact H |].
  exact (generate_orders_shape (demo_env echo_backend) 3 [VInt 1; VInt 2] [VInt 7]
           initial st' orders H).
Defined.

(** ** The uniqueness memory, the random source and the log *)

(** X4: the user generator leaves the uniqueness memory empty, whatever it
    held before; and, the unique proxy never repeating an address it
    remembers, no generated e-mail is one the memory held when the call
    began. *)
Theorem generate_users_memory (env : Env) (count : Z) (st : state) :
  (∀ seen d, fake_unique_email (fake env) seen d ∉ seen) →
  ∃ users st', generate_users env count st = (Ok users, st')
    ∧ unique_seen st' = ∅
    ∧ ∀ u, u ∈ users →
        ∃ e, u !! "email" = Some (VStr e) ∧ e ∉ unique_seen st.
Proof.
  intros Hfresh. unfold generate_users.
  destruct (range_unit_length count) as (idxs & -> & Hlen).
  unfold_M. cbv beta iota.
  set (P := λ (n : nat) (acc : list record) (s : state),
              unique_seen st ⊆ unique_seen s
              ∧ Forall (λ u, ∃ e, u !! "email" = Some (VStr e)
                                ∧ e ∉ unique_seen st) acc).
  loop_inv P st (users & st1 & Hloop & Hsub & Hall); [| | rewrite Hloop].
  - intros n x acc s (Hsub & Hall).
    eexists _, _. split; [reflexivity |]. unfold P. cbn [unique_seen]. split.
    + set_solver.
    + apply Forall_app. split; [exact Hall |]. constructor; [| constructor].
      eexists. split; [reflexivity |].
      intros Hin. apply (Hfresh (unique_seen s) (source env (S (S (cursor s))))).
      apply Hsub. exact Hin.
  - unfold P. split; [reflexivity | constructor].
  - eexists _, _. split; [reflexivity |]. split; [reflexivity |].
    intros u Hu. rewrite Forall_forall in Hall. exact (Hall u Hu).
Qed.

Lemma generate_users_memory_witness :
  ∃ users st',
    generate_users (demo_env echo_backend) 3
      {| cursor := 0; unique_seen := {[ "0"; "1" ]}; ncalls := 0; trace := [] |}
      = (Ok users, st')
    ∧ unique_seen st' = ∅
    ∧ ∀ u, u ∈ users →
        ∃ e, u !! "email" = Some (VStr e)
             ∧ e ∉ unique_seen {| cursor := 0; unique_seen := {[ "0"; "1" ]};
                                  ncalls := 0; trace := [] |}.
Proof.
  apply (generate_users_memory (demo_env echo_backend) 3
           {| cursor := 0; unique_seen := {[ "0"; "1" ]}; ncalls := 0; trace := [] |}).
  intros seen d. apply is_fresh.
Defined.


Lemma range_unit_empty (count : Z) : count ≤ 0 → range 0 count 1 = Ok [].
Proof.
  intros Hc. unfold range, range_len. change (1 =? 0) with false.
  change (0 <? 1) with true. cbv iota.
  destruct (Z.ltb_spec 0 count) as [? | _]; [lia | reflexivity].
Qed.

(** X6: asked for no record, or for a negative number of records, a
    generator returns the empty list without a random draw; the order
    generator (given non-empty pools) then prints no error line, so that
    its empty result does not always signal a missing pool. *)
Theorem generators_nonpositive_count (env : Env) (count : Z) (st : state) :
  count ≤ 0 →
  generate_users env count st
    = (Ok [], {| cursor := cursor st; unique_seen := ∅;
                 ncalls := ncalls st; trace := trace st |})
  ∧ generate_products env count st = (Ok [], st)
  ∧ ∀ user_ids product_ids, user_ids ≠ [] → product_ids ≠ [] →
      generate_orders env count user_ids product_ids st = (Ok [], st).
Proof.
  intros Hc. pose proof (range_unit_empty count Hc) as Hrange.
  split; [| split].
  - unfold generate_users. rewrite Hrange. reflexivity.
  - unfold generate_products. rewrite Hrange. reflexivity.
  - intros user_ids product_ids Hu Hp. unfold generate_orders.
    destruct user_ids as [| u us]; [congruence |].
    destruct product_ids as [| p ps]; [congruence |].
    cbn [truthy_list negb orb]. rewrite Hrange. reflexivity.
Qed.

Lemma generators_nonpositive_count_witness :
  generate_users (demo_env echo_backend) (-2) initial
    = (Ok [], {| cursor := cursor initial; unique_seen := ∅;
                 ncalls := ncalls initial; trace := trace initial |})
  ∧ generate_products (demo_env echo_backend) (-2) initial = (Ok [], initial)
  ∧ ∀ user_ids product_ids, user_ids ≠ [] → product_ids ≠ [] →
      generate_orders (demo_env echo_backend) (-2) user_ids product_ids initial
      = (Ok [], initial).
Proof.
  apply (generators_nonpositive_count (demo_env echo_backend) (-2) initial). lia.
Defined.

(** * Further properties of the batch inserter *)

Lemma range_nothing (n b : Z) : 0 ≤ n → b < 0 ∨ (n = 0 ∧ b ≠ 0) → range 0 n b = Ok [].
Proof.
  intros Hn Hcase. unfold range, range_len.
  destruct (Z.eqb_spec b 0) as [-> | _]; [lia |].
  destruct (Z.ltb_spec 0 b) as [Hb | Hb].
  - destruct (Z.ltb_spec 0 n) as [? | _]; [lia | reflexivity].
  - destruct (Z.ltb_spec n 0) as [? | _]; [lia | reflexivity].
Qed.

Lemma chunks_cover {A} (data : list A) (b : Z) :
  0 < b →
  concat (map (λ i, slice data i (i + b))
              (map (λ k, Z.of_nat k * b)
                   (seq 0 (Z.to_nat ((Z.of_nat (length data) + b - 1) / b)))))
  = data.
Proof.
  intros Hb. rewrite slices_are_chunks by exact Hb. rewrite chunks_concat.
  apply take_ge.
  pose proof (ceil_div_bounds (Z.of_nat (length data)) b Hb ltac:(lia)) as Hceil.
  assert (0 ≤ (Z.of_nat (length data) + b - 1) / b) by (apply Z.div_pos; lia).
  nia.
Qed.

(** X7: for a positive batch size the inserter makes exactly ceil(N/B)
    remote calls and touches neither the random source nor the uniqueness
    memory. *)
Theorem insert_in_batches_effects (env : Env) (table_name : string) (data : list record)
    (batch_size : Z) (st : state) :
  0 < batch_size →
  ∃ rows st', insert_in_batches env table_name data batch_size st = (Ok rows, st')
    ∧ cursor st' = cursor st
    ∧ unique_seen st' = unique_seen st
    ∧ Z.of_nat (ncalls st')
      = Z.of_nat (ncalls st) + (Z.of_nat (length data) + batch_size - 1) / batch_size.
Proof.
  intros Hb.
  pose proof (insert_in_batches_run env table_name data batch_size st _
                (range_chunk_offsets (Z.of_nat (length data)) batch_size Hb ltac:(lia)))
    as Hrun.
  cbv zeta in Hrun. eexists _, _. split; [exact Hrun |].
  cbn [after_calls cursor unique_seen ncalls].
  split; [reflexivity |]. split; [reflexivity |].
  rewrite length_map, length_seq.
  assert (0 ≤ (Z.of_nat (length data) + batch_size - 1) / batch_size)
    by (apply Z.div_pos; lia).
  lia.
Qed.

Lemma insert_in_batches_effects_witness :
  ∃ rows st',
    insert_in_batches (demo_env echo_backend) "users" (replicate 250 ∅) 100 initial
      = (Ok rows, st')
    ∧ cursor st' = cursor initial
    ∧ unique_seen st' = unique_seen initial
    ∧ Z.of_nat (ncalls st')
      = Z.of_nat (ncalls initial)
        + (Z.of_nat (length (replicate 250 (∅ : record))) + 100 - 1) / 100.
Proof.
  apply (insert_in_batches_effects (demo_env echo_backend) "users"
           (replicate 250 ∅) 100 initial). lia.
Defined.

(** X8: with a negative batch size the inserter submits nothing and
    returns the empty list; with a zero batch size it submits nothing and
    raises [ValueError]. In both cases the data is left unsent. *)
Theorem insert_in_batches_nonpositive (env : Env) (table_name : string) (data : list record)
    (batch_size : Z) (st : state) :
  batch_size ≤ 0 →
  ∃ st', insert_in_batches env table_name data batch_size st
         = (if batch_size =? 0
            then Err (ValueError "range() arg 3 must not be zero")
            else Ok [], st')
    ∧ ncalls st' = ncalls st
    ∧ submitted (trace st') = submitted (trace st).
Proof.
  intros Hb. destruct (Z.eqb_spec batch_size 0) as [-> | Hne].
  - eexists. split; [reflexivity |]. split; [reflexivity |].
    cbn [trace]. rewrite submitted_app. cbn. apply app_nil_r.
  - pose proof (insert_in_batches_run env table_name data batch_size st []
                  (range_nothing (Z.of_nat (length data)) batch_size ltac:(lia)
                     ltac:(left; lia))) as Hrun.
    cbv zeta in Hrun. eexists. split; [exact Hrun |].
    cbn [after_calls ncalls trace length batch_calls flat_map app].
    split; [lia |]. rewrite submitted_app. cbn. apply app_nil_r.
Qed.

Lemma insert_in_batches_nonpositive_witness :
  ∃ st', insert_in_batches (demo_env echo_backend) "users" (replicate 3 ∅) (-5) initial
         = (if -5 =? 0
            then Err (ValueError "range() arg 3 must not be zero")
            else Ok [], st')
    ∧ ncalls st' = ncalls initial
    ∧ submitted (trace st') = submitted (trace initial).
Proof.
  apply (insert_in_batches_nonpositive (demo_env echo_backend) "users"
           (replicate 3 ∅) (-5) initial). lia.
Defined.

(** X9: given no record and a non-zero batch size, the inserter makes no
    remote call, returns the empty list and prints only its opening line
    and a closing line reporting zero rows. *)
Theorem insert_in_batches_no_data (env : Env) (table_name : string) (batch_size : Z) (st : state) :
  batch_size ≠ 0 →
  insert_in_batches env table_name [] batch_size st
  = (Ok [], {| cursor := cursor st; unique_seen := unique_seen st;
               ncalls := ncalls st;
               trace := trace st ++ [Print (MsgAttempting 0 table_name batch_size);
                                     Print (MsgFinished table_name 0)] |}).
Proof.
  intros Hb.
  pose proof (insert_in_batches_run env table_name [] batch_size st []
                (range_nothing (Z.of_nat (length ([] : list record))) batch_size
                   ltac:(cbn; lia) ltac:(right; split; [reflexivity | exact Hb])))
    as Hrun.
  cbv zeta in Hrun. rewrite Hrun.
  unfold after_calls. cbn [length batch_calls flat_map app].
  rewrite Nat.add_0_r. reflexivity.
Qed.

Lemma insert_in_batches_no_data_witness :
  insert_in_batches (demo_env echo_backend) "users" [] 100 initial
  = (Ok [], {| cursor := cursor initial; unique_seen := unique_seen initial;
               ncalls := ncalls initial;
               trace := trace initial ++ [Print (MsgAttempting 0 "users" 100);
                                          Print (MsgFinished "users" 0)] |}).
Proof.
  apply (insert_in_batches_no_data (demo_env echo_backend) "users" 100 initial).
  discriminate.
Defined.

(** ** Counts and batch numbers *)






(** In the events of the loop, the log lines that follow a remote call
    carry the offset of the chunk at the position of that call. *)
Lemma batch_events_numbered (env : Env) table_name data batch_size (idxs : list Z) :
  ∀ (n : nat) (tail pre post : list event) t b o,
    Forall is_print tail →
    flat_map (batch_events table_name data batch_size)
      (batch_calls env table_name data batch_size n idxs) ++ tail
      = pre ++ RemoteInsert t b o :: post →
    ∃ i post', idxs !! length (submitted pre) = Some i
      ∧ post = batch_log (i / batch_size + 1) o ++ post'.
Proof.
  induction idxs as [| i0 rest IH]; intros n tail pre post t b o Htail Heq.
  - cbn in Heq. destruct (skip_prints tail [] pre post t b o Htail) as (pre' & _ & Hnil).
    { rewrite app_nil_r. exact Heq. }
    destruct pre'; discriminate.
  - cbn [batch_calls flat_map] in Heq. unfold batch_events at 1 in Heq.
    cbn [fst snd] in Heq. destruct pre as [| ev pre].
    + cbn in Heq. inversion Heq; subst. rewrite <- app_assoc.
      eexists i0, _. split; reflexivity.
    + cbn in Heq. rewrite <- app_assoc in Heq. inversion Heq as [[Hev Hrest]].
      destruct (skip_prints _ _ _ _ _ _ _ (batch_log_prints _ _) Hrest)
        as (pre' & -> & Hrest').
      destruct (IH _ _ _ _ _ _ _ Htail Hrest') as (i & post' & Hi & Hpost).
      exists i, post'. split; [| exact Hpost].
      change (RemoteInsert ?t ?b ?o :: ?l) with ([RemoteInsert t b o] ++ l).
      rewrite !submitted_app, submitted_batch_log. cbn. exact Hi.
Qed.

(** X11: batches are numbered from 1 in the order of submission: the log
    line that follows the k-th remote call of the inserter (counting from
    zero) carries the batch number k+1. *)
Theorem insert_in_batches_batch_numbers (env : Env) (table_name : string)
    (data : list record) (batch_size : Z) (st : state) :
  0 < batch_size →
  ∃ rows st' evs,
    insert_in_batches env table_name data batch_size st = (Ok rows, st')
    ∧ trace st' = trace st ++ evs
    ∧ ∀ pre t b o post, evs = pre ++ RemoteInsert t b o :: post →
        let no := Z.of_nat (length (submitted pre)) + 1 in
        match o with
        | Raises e => ∃ post', post = Print (MsgBatchFailedException no e) :: post'
        | Returns r =>
            if truthy_opt truthy_list (resp_data r) then
              ∃ post',
                post = Print (MsgBatchInserted no (length (default [] (resp_data r))))
                         :: post'
            else if truthy_opt truthy_str (resp_error r) then
              ∃ post',
                post = Print (MsgBatchFailedError no (default "" (resp_error r)))
                         :: post'
            else True
        end.
Proof.
  intros Hb.
  pose proof (insert_in_batches_run env table_name data batch_size st _
                (range_chunk_offsets (Z.of_nat (length data)) batch_size Hb ltac:(lia)))
    as Hrun.
  cbv zeta in Hrun. eexists _, _, _. split; [exact Hrun |].
  split; [reflexivity |].
  intros pre t b o post Heq no.
  destruct pre as [| ev pre]; [discriminate |].
  cbn in Heq. inversion Heq as [[Hev Hrest]].
  apply batch_events_numbered in Hrest as (i & post' & Hi & ->);
    [| repeat constructor].
  rewrite list_lookup_fmap in Hi.
  destruct (seq 0 _ !! _) as [k |] eqn:Hk; [| discriminate].
  apply lookup_seq in Hk as [-> _]. cbn in Hi. inversion Hi; subst i.
  rewrite Z.div_mul by lia.
  assert (Hno : Z.of_nat (length (submitted pre)) + 1 = no).
  { subst no ev. cbn. reflexivity. }
  rewrite Hno.
  destruct o as [e | r]; cbn [batch_log].
  - eauto.
  - destruct (truthy_opt truthy_list (resp_data r)); [eauto |].
    destruct (truthy_opt truthy_str (resp_error r)); [eauto | exact I].
Qed.

Lemma insert_in_batches_batch_numbers_witness :
  ∃ rows st' evs,
    insert_in_batches (demo_env down_backend) "users" (replicate 250 ∅) 100 initial
      = (Ok rows, st')
    ∧ trace st' = trace initial ++ evs
    ∧ ∀ pre t b o post, evs = pre ++ RemoteInsert t b o :: post →
        let no := Z.of_nat (length (submitted pre)) + 1 in
        match o with
        | Raises e => ∃ post', post = Print (MsgBatchFailedException no e) :: post'
        | Returns r =>
            if truthy_opt truthy_list (resp_data r) then
              ∃ post',
                post = Print (MsgBatchInserted no (length (default [] (resp_data r))))
                         :: post'
            else if truthy_opt truthy_str (resp_error r) then
              ∃ post',
                post = Print (MsgBatchFailedError no (default "" (resp_error r)))
                         :: post'
            else True
        end.
Proof.
  apply (insert_in_batches_batch_numbers (demo_env down_backend) "users"
           (replicate 250 ∅) 100 initial). lia.
Defined.

Lemma confirmed_length (env : Env) table_name (data : list record) batch_size
    (idxs : list Z) :
  (∀ n b, b ⊆ data →
     length (batch_rows (backend env n table_name b)) = length b) →
  ∀ n, length (flat_map (λ c : Z * outcome, batch_rows c.2)
                 (batch_calls env table_name data batch_size n idxs))
       = length (concat (map (λ i, slice data i (i + batch_size)) idxs)).
Proof.
  intros Hanswer. induction idxs as [| i rest IH]; intros n; [reflexivity |].
  cbn [batch_calls flat_map map concat snd]. rewrite !length_app, IH.
  f_equal. apply Hanswer, slice_subseteq.
Qed.

(** X12: when the backend answers every batch with as many rows as it was
    sent, the inserter (with a positive batch size) returns as many rows
    as it was given. *)
Theorem insert_in_batches_all_confirmed (env : Env) (table_name : string)
    (data : list record) (batch_size : Z) (st : state) :
  0 < batch_size →
  (∀ n b, b ⊆ data →
     length (batch_rows (backend env n table_name b)) = length b) →
  ∃ rows st', insert_in_batches env table_name data batch_size st = (Ok rows, st')
    ∧ length rows = length data.
Proof.
  intros Hb Hanswer.
  pose proof (insert_in_batches_run env table_name data batch_size st _
                (range_chunk_offsets (Z.of_nat (length data)) batch_size Hb ltac:(lia)))
    as Hrun.
  cbv zeta in Hrun. eexists _, _. split; [exact Hrun |].
  rewrite (confirmed_length env table_name data batch_size _ Hanswer).
  rewrite chunks_cover by exact Hb. reflexivity.
Qed.

Lemma echo_backend_length (data : list record) (n : nat) (table : string)
    (b : list record) :
  b ⊆ data →
  length (batch_rows (backend (demo_env echo_backend) n table b)) = length b.
Proof.
  intros _. cbn [backend demo_env echo_backend batch_rows resp_data truthy_opt default].
  pose proof (length_imap
    (λ i r, <[ "id" := VInt (Z.of_nat n * 1000 + Z.of_nat i) ]> r) b) as Hlen.
  destruct (imap _ b); cbn in *; lia.
Qed.

Lemma insert_in_batches_all_confirmed_witness :
  ∃ rows st',
    insert_in_batches (demo_env echo_backend) "users" (replicate 250 ∅) 100 initial
      = (Ok rows, st')
    ∧ length rows = length (replicate 250 (∅ : record)).
Proof.
  apply (insert_in_batches_all_confirmed (demo_env echo_backend) "users"
           (replicate 250 ∅) 100 initial); [lia |].
  intros n b. apply echo_backend_length.
Defined.

(** * Further properties of the driver *)

Lemma tables_app (evs1 evs2 : list event) :
  tables (evs1 ++ evs2) = tables evs1 ++ tables evs2.
Proof. unfold tables. rewrite submitted_app, map_app. reflexivity. Qed.

Lemma batch_log_messages (no : Z) (o : outcome) (m : message) :
  Print m ∈ batch_log no o → inserter_message m.
Proof.
  destruct o as [e | r]; cbn [batch_log].
  - intros H. apply list_elem_of_singleton in H. inversion H. exact I.
  - destruct (truthy_opt truthy_list (resp_data r)).
    + intros H. apply list_elem_of_singleton in H. inversion H. exact I.
    + destruct (truthy_opt truthy_str (resp_error r)); intros H.
      * apply list_elem_of_singleton in H. inversion H. exact I.
      * inversion H.
Qed.

Lemma batch_events_messages table_name data batch_size
    (calls : list (Z * outcome)) (m : message) :
  Print m ∈ flat_map (batch_events table_name data batch_size) calls →
  inserter_message m.
Proof.
  induction calls as [| [i o] calls IH]; [intros H; inversion H |].
  cbn [flat_map]. intros H. apply elem_of_app in H as [H | H]; [| exact (IH H)].
  unfold batch_events in H. apply elem_of_cons in H as [H | H]; [discriminate |].
  exact (batch_log_messages _ _ _ H).
Qed.

Lemma tables_replicate (table_name : string) {A} (f : A → list record) (l : list A) :
  map fst (map (λ i, (table_name, f i)) l) = replicate (length l) table_name.
Proof. induction l as [| x l IH]; [reflexivity |]. cbn. f_equal. exact IH. Qed.

(** One stage of insertion with a positive batch size. *)
Lemma insert_in_batches_stage (env : Env) (table_name : string)
    (data : list record) (batch_size : Z) (st : state) :
  0 < batch_size →
  ∃ evs,
    insert_in_batches env table_name data batch_size st
      = (Ok (confirmed evs),
         after_calls st
           (Z.to_nat ((Z.of_nat (length data) + batch_size - 1) / batch_size)) evs)
    ∧ Forall (inserter_event table_name data) evs
    ∧ tables evs
      = replicate (Z.to_nat ((Z.of_nat (length data) + batch_size - 1) / batch_size))
          table_name
    ∧ (∀ m, Print m ∈ evs → inserter_message m).
Proof.
  intros Hb.
  set (c := Z.to_nat ((Z.of_nat (length data) + batch_size - 1) / batch_size)).
  pose proof (insert_in_batches_run env table_name data batch_size st _
                (range_chunk_offsets (Z.of_nat (length data)) batch_size Hb ltac:(lia)))
    as Hrun.
  cbv zeta in Hrun. rewrite length_map, length_seq in Hrun. fold c in Hrun.
  rewrite <- confirmed_run
    with (table_name := table_name) (data := data) (batch_size := batch_size)
         (m1 := MsgAttempting (length data) table_name batch_size)
         (m2 := MsgFinished table_name
                  (Z.of_nat (length (flat_map (λ c : Z * outcome, batch_rows c.2)
                     (batch_calls env table_name data batch_size (ncalls st)
                        (map (λ k, Z.of_nat k * batch_size) (seq 0 c)))))))
    in Hrun at 1.
  eexists. split; [exact Hrun |]. split; [| split].
  - constructor; [left; exact I |].
    apply Forall_app. split; [apply batch_events_inserter |].
    constructor; [left; exact I | constructor].
  - unfold tables. rewrite submitted_run, batch_calls_fst, tables_replicate.
    rewrite length_map, length_seq. reflexivity.
  - intros m Hm. apply elem_of_cons in Hm as [Hm | Hm]; [inversion Hm; exact I |].
    apply elem_of_app in Hm as [Hm | Hm]; [exact (batch_events_messages _ _ _ _ _ Hm) |].
    apply list_elem_of_singleton in Hm. inversion Hm. exact I.
Qed.

(** The three ways a run of the main block can go. *)
Lemma main_cases (env : Env) (st : state) :
  ∃ evs, trace (main env st).2 = trace st ++ evs
    ∧ ncalls (main env st).2 = (ncalls st + length (tables evs))%nat
    ∧ (Print MsgSkippingOrders ∉ evs) ∧ (Print MsgOrdersError ∉ evs)
    ∧ ( ((main env st).1 = Err SystemExit
         ∧ last evs = Some (Print MsgCriticalUsers)
         ∧ tables evs = replicate 2 "users")
      ∨ ((main env st).1 = Err SystemExit
         ∧ last evs = Some (Print MsgCriticalProducts)
         ∧ tables evs = replicate 2 "users" ++ replicate 5 "products")
      ∨ ((main env st).1 = Ok tt
         ∧ last evs = Some (Print MsgRule)
         ∧ tables evs = replicate 2 "users" ++ replicate 5 "products"
                        ++ replicate 25 "orders") ).
Proof.
  (* users *)
  destruct (generate_users_all env (λ _, True) NUM_USERS (logged st MsgStarting))
    as (users & st1 & Hgen & Hlen_u & _ & Hcalls1 & Htr1); [done |].
  destruct (insert_in_batches_stage env "users" users BATCH_SIZE st1)
    as (evs_u & Hins & Hall_u & Htab_u & Hmsg_u); [reflexivity |].
  rewrite Hlen_u in Hins, Htab_u.
  change (Z.to_nat ((Z.of_nat (Z.to_nat NUM_USERS) + BATCH_SIZE - 1) / BATCH_SIZE))
    with 2%nat in Hins, Htab_u.
  destruct (decide (id_pool (confirmed evs_u) = [])) as [Hu | Hu].
  { rewrite (main_users_abort env st _ _ _ _ Hgen Hins Hu).
    exists (Print MsgStarting :: evs_u ++ [Print MsgCriticalUsers]).
    cbn [fst snd logged after_calls trace ncalls].
    split; [rewrite Htr1; cbn [logged trace]; rewrite <- !app_assoc; reflexivity |].
    split.
    { change (Print MsgStarting :: ?l) with ([Print MsgStarting] ++ l).
      rewrite !tables_app, Htab_u, Hcalls1. cbn. lia. }
    split; [| split].
    - intros Hin. apply elem_of_cons in Hin as [Hin | Hin]; [discriminate |].
      apply elem_of_app in Hin as [Hin | Hin]; [exact (Hmsg_u _ Hin) |].
      apply list_elem_of_singleton in Hin. discriminate.
    - intros Hin. apply elem_of_cons in Hin as [Hin | Hin]; [discriminate |].
      apply elem_of_app in Hin as [Hin | Hin]; [exact (Hmsg_u _ Hin) |].
      apply list_elem_of_singleton in Hin. discriminate.
    - left. split; [reflexivity |]. split.
      + change (Print MsgStarting :: ?l) with ([Print MsgStarting] ++ l).
        rewrite !app_assoc. apply last_snoc.
      + change (Print MsgStarting :: ?l) with ([Print MsgStarting] ++ l).
        rewrite !tables_app, Htab_u. reflexivity. }
  (* products *)
  destruct (generate_products_all env (λ _, True) NUM_PRODUCTS (after_calls st1 2 evs_u))
    as (products & st3 & Hgen' & Hlen_p & _ & Hcalls3 & Htr3); [done |].
  destruct (insert_in_batches_stage env "products" products BATCH_SIZE st3)
    as (evs_p & Hins' & Hall_p & Htab_p & Hmsg_p); [reflexivity |].
  rewrite Hlen_p in Hins', Htab_p.
  change (Z.to_nat ((Z.of_nat (Z.to_nat NUM_PRODUCTS) + BATCH_SIZE - 1) / BATCH_SIZE))
    with 5%nat in Hins', Htab_p.
  destruct (decide (id_pool (confirmed evs_p) = [])) as [Hp | Hp].
  { rewrite (main_products_abort env st _ _ _ _ _ _ _ _ Hgen Hins Hu Hgen' Hins' Hp).
    exists (Print MsgStarting :: evs_u ++ evs_p ++ [Print MsgCriticalProducts]).
    cbn [fst snd logged after_calls trace ncalls].
    split; [rewrite Htr3; cbn [after_calls trace]; rewrite Htr1; cbn [logged trace];
            rewrite <- !app_assoc; reflexivity |].
    split.
    { change (Print MsgStarting :: ?l) with ([Print MsgStarting] ++ l).
      rewrite !tables_app, Htab_u, Htab_p, Hcalls3. cbn [after_calls ncalls].
      rewrite Hcalls1. cbn. lia. }
    split; [| split].
    - intros Hin. apply elem_of_cons in Hin as [Hin | Hin]; [discriminate |].
      apply elem_of_app in Hin as [Hin | Hin]; [exact (Hmsg_u _ Hin) |].
      apply elem_of_app in Hin as [Hin | Hin]; [exact (Hmsg_p _ Hin) |].
      apply list_elem_of_singleton in Hin. discriminate.
    - intros Hin. apply elem_of_cons in Hin as [Hin | Hin]; [discriminate |].
      apply elem_of_app in Hin as [Hin | Hin]; [exact (Hmsg_u _ Hin) |].
      apply elem_of_app in Hin as [Hin | Hin]; [exact (Hmsg_p _ Hin) |].
      apply list_elem_of_singleton in Hin. discriminate.
    - right. left. split; [reflexivity |]. split.
      + change (Print MsgStarting :: ?l) with ([Print MsgStarting] ++ l).
        rewrite !app_assoc. apply last_snoc.
      + change (Print MsgStarting :: ?l) with ([Print MsgStarting] ++ l).
        rewrite !tables_app, Htab_u, Htab_p. reflexivity. }
  (* orders *)
  set (msg := MsgGeneratingOrders NUM_ORDERS (length (id_pool (confirmed evs_u)))
                (length (id_pool (confirmed evs_p)))).
  destruct (generate_orders_all env (λ _, True) NUM_ORDERS
              (id_pool (confirmed evs_u)) (id_pool (confirmed evs_p))
              (logged (after_calls st3 5 evs_p) msg) Hu Hp)
    as (orders & st5 & Hgen'' & Hlen_o & _ & Hcalls5 & Htr5); [done |].
  assert (Hord : orders ≠ []) by (intros ->; vm_compute in Hlen_o; discriminate Hlen_o).
  destruct (insert_in_batches_stage env "orders" orders BATCH_SIZE st5)
    as (evs_o & Hins'' & Hall_o & Htab_o & Hmsg_o); [reflexivity |].
  rewrite Hlen_o in Hins'', Htab_o.
  change (Z.to_nat ((Z.of_nat (Z.to_nat NUM_ORDERS) + BATCH_SIZE - 1) / BATCH_SIZE))
    with 25%nat in Hins'', Htab_o.
  rewrite (main_completes env st _ _ _ _ _ _ _ _ _ _ _ _
             Hgen Hins Hu Hgen' Hins' Hp Hgen'' Hord Hins'').
  exists (Print MsgStarting :: evs_u ++ evs_p ++ Print msg :: evs_o
            ++ [Print MsgRule; Print MsgScriptFinished; Print MsgRule]).
  cbn [fst snd logged after_calls trace ncalls].
  split; [rewrite Htr5; cbn [logged after_calls trace]; rewrite Htr3;
          cbn [after_calls trace]; rewrite Htr1; cbn [logged trace];
          rewrite <- !app_assoc; reflexivity |].
  split.
  { change (Print MsgStarting :: ?l) with ([Print MsgStarting] ++ l).
    change (Print msg :: ?l) with ([Print msg] ++ l).
    rewrite !tables_app, Htab_u, Htab_p, Htab_o, Hcalls5. cbn [logged after_calls ncalls].
    rewrite Hcalls3. cbn [after_calls ncalls]. rewrite Hcalls1. cbn. lia. }
  split; [| split].
  - intros Hin. apply elem_of_cons in Hin as [Hin | Hin]; [discriminate |].
    apply elem_of_app in Hin as [Hin | Hin]; [exact (Hmsg_u _ Hin) |].
    apply elem_of_app in Hin as [Hin | Hin]; [exact (Hmsg_p _ Hin) |].
    apply elem_of_cons in Hin as [Hin | Hin]; [discriminate |].
    apply elem_of_app in Hin as [Hin | Hin]; [exact (Hmsg_o _ Hin) |].
    repeat (apply elem_of_cons in Hin as [Hin | Hin]; [discriminate |]).
    inversion Hin.
  - intros Hin. apply elem_of_cons in Hin as [Hin | Hin]; [discriminate |].
    apply elem_of_app in Hin as [Hin | Hin]; [exact (Hmsg_u _ Hin) |].
    apply elem_of_app in Hin as [Hin | Hin]; [exact (Hmsg_p _ Hin) |].
    apply elem_of_cons in Hin as [Hin | Hin]; [discriminate |].
    apply elem_of_app in Hin as [Hin | Hin]; [exact (Hmsg_o _ Hin) |].
    repeat (apply elem_of_cons in Hin as [Hin | Hin]; [discriminate |]).
    inversion Hin.
  - right. right. split; [reflexivity |]. split.
    + change (Print MsgStarting :: ?l) with ([Print MsgStarting] ++ l).
      change (Print msg :: ?l) with ([Print msg] ++ l).
      change [Print MsgRule; Print MsgScriptFinished; Print MsgRule]
        with ([Print MsgRule; Print MsgScriptFinished] ++ [Print MsgRule]).
      rewrite !app_assoc. apply last_snoc.
    + change (Print MsgStarting :: ?l) with ([Print MsgStarting] ++ l).
      change (Print msg :: ?l) with ([Print msg] ++ l).
      rewrite !tables_app, Htab_u, Htab_p, Htab_o. reflexivity.
Qed.

(** X13: the main block ends either normally or by [exit()]; no other
    exception escapes it (the backend raising only instances of
    [Exception]). *)
Theorem main_outcome (env : Env) (st : state) :
  (main env st).1 = Ok tt ∨ (main env st).1 = Err SystemExit.
Proof.
  destruct (main_cases env st) as (evs & _ & _ & _ & _ & Hcase).
  destruct Hcase as [(H & _) | [(H & _) | (H & _)]]; auto.
Qed.

(** X14: the driver never prints the notice that order insertion was
    skipped, nor the order generator's error line: it has exited before
    either id pool could reach the order generator empty. *)
Theorem main_never_skips_orders (env : Env) (st : state) :
  ∃ evs, trace (main env st).2 = trace st ++ evs
    ∧ (Print MsgSkippingOrders ∉ evs) ∧ (Print MsgOrdersError ∉ evs).
Proof.
  destruct (main_cases env st) as (evs & Htr & _ & Hskip & Herr & _).
  exists evs. auto.
Qed.

(** X15: a run makes two inserts into users; then, unless it exits, five
    into products; then, unless it exits, twenty-five into orders, and ends
    normally.  The remote calls of a run are exactly these, in this order,
    and the run exits exactly when it stops short of the orders. *)
Theorem main_stage_order (env : Env) (st : state) :
  ∃ evs, trace (main env st).2 = trace st ++ evs
    ∧ ncalls (main env st).2 = (ncalls st + length (tables evs))%nat
    ∧ ( ((main env st).1 = Err SystemExit
         ∧ last evs = Some (Print MsgCriticalUsers)
         ∧ tables evs = replicate 2 "users")
      ∨ ((main env st).1 = Err SystemExit
         ∧ last evs = Some (Print MsgCriticalProducts)
         ∧ tables evs = replicate 2 "users" ++ replicate 5 "products")
      ∨ ((main env st).1 = Ok tt
         ∧ last evs = Some (Print MsgRule)
         ∧ tables evs = replicate 2 "users" ++ replicate 5 "products"
                        ++ replicate 25 "orders") ).
Proof.
  destruct (main_cases env st) as (evs & Htr & Hcalls & _ & _ & Hcase).
  exists evs. auto.
Qed.

(** X16: an empty service URL or service key is rejected like an absent
    one, in the state the script started in.  With both values present and
    non-empty the script calls the client constructor on them.  If the
    constructor raises, as the library does for a URL that is not an
    http(s) URL, the script ends with that exception in the state it
    started in: nothing is generated and no remote call is made.  If the
    constructor returns, the script records the client's creation and runs
    the main block, ending normally or by [exit()]. *)
Theorem script_configuration (env : Env) (st : state) :
  (truthy_opt truthy_str (environ env !! "SUPABASE_URL") = false
   ∨ truthy_opt truthy_str (environ env !! "SUPABASE_SERVICE_KEY") = false →
   script env st
   = (Err (ValueError
        "SUPABASE_URL and SUPABASE_SERVICE_KEY must be set in the .env file"), st))
  ∧ (∀ url key,
       environ env !! "SUPABASE_URL" = Some url → truthy_str url = true →
       environ env !! "SUPABASE_SERVICE_KEY" = Some key → truthy_str key = true →
       (∀ e, supabase env url key = Some e →
             script env st = (Err (Exception e), st))
       ∧ (supabase env url key = None →
          script env st
          = main env {| cursor := cursor st; unique_seen := unique_seen st;
                        ncalls := ncalls st;
                        trace := trace st ++ [CreateClient url key] |}
          ∧ ((script env st).1 = Ok tt ∨ (script env st).1 = Err SystemExit))).
Proof.
  split.
  - intros [H | H]; unfold script; rewrite H; cbn [negb orb]; [reflexivity |].
    rewrite orb_true_r. reflexivity.
  - intros url key Hurl Hu Hkey Hk. split.
    + intros e He. exact (script_client_refused env st url key e Hurl Hu Hkey Hk He).
    + intros Hc.
      pose proof (script_configured env st url key Hurl Hu Hkey Hk Hc) as Hrun.
      split; [exact Hrun |]. rewrite Hrun.
      destruct (main_cases env {| cursor := cursor st; unique_seen := unique_seen st;
                                  ncalls := ncalls st;
                                  trace := trace st ++ [CreateClient url key] |})
        as (evs & _ & _ & _ & _ & Hcase).
      destruct Hcase as [(H & _) | [(H & _) | (H & _)]]; auto.
Qed.

(** An empty URL, a URL without scheme and a well-formed URL. *)
Lemma script_configuration_witness :
  script {| environ := {[ "SUPABASE_URL" := ""; "SUPABASE_SERVICE_KEY" := "secret" ]};
            fake := demo_faker; source := λ _, 0%N;
            supabase := demo_supabase; backend := echo_backend |}
         initial
  = (Err (ValueError
       "SUPABASE_URL and SUPABASE_SERVICE_KEY must be set in the .env file"), initial)
  ∧ script {| environ := {[ "SUPABASE_URL" := "db.example";
                            "SUPABASE_SERVICE_KEY" := "secret" ]};
              fake := demo_faker; source := λ _, 0%N;
              supabase := demo_supabase; backend := echo_backend |}
           initial
    = (Err (Exception "Invalid URL"), initial)
  ∧ (script (demo_env echo_backend) initial
     = main (demo_env echo_backend)
         {| cursor := 0; unique_seen := ∅; ncalls := 0;
            trace := [CreateClient "https://db.example" "secret"] |}
     ∧ ((script (demo_env echo_backend) initial).1 = Ok tt
        ∨ (script (demo_env echo_backend) initial).1 = Err SystemExit)).
Proof.
  split; [| split].
  - apply (proj1 (script_configuration
      {| environ := {[ "SUPABASE_URL" := ""; "SUPABASE_SERVICE_KEY" := "secret" ]};
         fake := demo_faker; source := λ _, 0%N;
         supabase := demo_supabase; backend := echo_backend |} initial)).
    left. reflexivity.
  - refine (proj1 (proj2 (script_configuration
      {| environ := {[ "SUPABASE_URL" := "db.example";
                       "SUPABASE_SERVICE_KEY" := "secret" ]};
         fake := demo_faker; source := λ _, 0%N;
         supabase := demo_supabase; backend := echo_backend |} initial)
      "db.example" "secret" _ _ _ _) "Invalid URL" _); reflexivity.
  - refine (proj2 (proj2 (script_configuration (demo_env echo_backend) initial)
      "https://db.example" "secret" _ _ _ _) _); reflexivity.
Defined.

(** X17: when the user stage yields ids but the product stage yields
    none, the driver exits at once after the product inserts: the final
    state is the state they left plus the critical line, the random source
    was not drawn from after the products were generated (no order was
    generated), and no insert into the orders table was made. *)
Theorem main_aborts_without_product_ids (env : Env) (st st1 st2 st3 st4 : state)
    (users urows products prows : list record) :
  generate_users env NUM_USERS (logged st MsgStarting) = (Ok users, st1) →
  insert_in_batches env "users" users BATCH_SIZE st1 = (Ok urows, st2) →
  id_pool urows ≠ [] →
  generate_products env NUM_PRODUCTS st2 = (Ok products, st3) →
  insert_in_batches env "products" products BATCH_SIZE st3 = (Ok prows, st4) →
  id_pool prows = [] →
  ∃ st', main env st = (Err SystemExit, st')
    ∧ st' = logged st4 MsgCriticalProducts
    ∧ cursor st' = cursor st3
    ∧ ncalls st' = ncalls st4
    ∧ (∀ b o, RemoteInsert "orders" b o ∈ trace st' →
         RemoteInsert "orders" b o ∈ trace st).
Proof.
  intros Hgen Hins Hu Hgen' Hins' Hp.
  exists (logged st4 MsgCriticalProducts).
  split; [exact (main_products_abort env st st1 st2 st3 st4 users urows products prows
                   Hgen Hins Hu Hgen' Hins' Hp) |].
  destruct (users_stage_facts env st st1 st2 users urows Hgen Hins)
    as (ku & evs_u & -> & _ & Hall_u & Htr1).
  destruct (generate_products_all env (λ _, True) NUM_PRODUCTS (after_calls st1 ku evs_u))
    as (products' & st3' & Hgen'' & _ & _ & _ & Htr3); [done |].
  rewrite Hgen' in Hgen''. inversion Hgen''; subst products' st3'.
  destruct (insert_in_batches_total env "products" products BATCH_SIZE st3)
    as (kp & evs_p & Hins'' & Hall_p); [discriminate |].
  rewrite Hins' in Hins''. inversion Hins''. subst st4.
  split; [reflexivity |]. split; [reflexivity |]. split; [reflexivity |].
  intros b o Hin. cbn [logged after_calls trace] in Hin. rewrite Htr3 in Hin.
  cbn [after_calls trace] in Hin. rewrite Htr1 in Hin.
  rewrite !elem_of_app in Hin.
  destruct Hin as [[[[Hin | Hin] | Hin] | Hin] | Hin].
  - exact Hin.
  - apply list_elem_of_singleton in Hin. discriminate.
  - apply (inserter_event_table _ _ _ _ _ _ Hall_u) in Hin as [Ht _]. discriminate.
  - apply (inserter_event_table _ _ _ _ _ _ Hall_p) in Hin as [Ht _]. discriminate.
  - apply list_elem_of_singleton in Hin. discriminate.
Qed.

Lemma users_only_no_products (data : list record) (n : nat) (b : list record) :
  b ⊆ data →
  Forall (λ _, False)
    (batch_rows (backend (demo_env users_only_backend) n "products" b)).
Proof. intros _. constructor. Qed.

Lemma main_aborts_without_product_ids_witness :
  ∃ st3 st4 st',
    main (demo_env users_only_backend) initial = (Err SystemExit, st')
    ∧ st' = logged st4 MsgCriticalProducts
    ∧ cursor st' = cursor st3
    ∧ ncalls st' = ncalls st4
    ∧ (∀ b o, RemoteInsert "orders" b o ∈ trace st' →
         RemoteInsert "orders" b o ∈ trace initial).
Proof.
  set (E := demo_env users_only_backend).
  set (run1 := generate_users E NUM_USERS (logged initial MsgStarting)).
  set (users := match run1.1 with Ok u => u | Err _ => [] end).
  set (run2 := insert_in_batches E "users" users BATCH_SIZE run1.2).
  set (urows := match run2.1 with Ok r => r | Err _ => [] end).
  assert (Hgen : generate_users E NUM_USERS (logged initial MsgStarting)
                 = (Ok users, run1.2)).
  { destruct (generate_users_all E (λ _, True) NUM_USERS (logged initial MsgStarting))
      as (u & s & H & _); [intros; exact I |].
    subst users run1. rewrite H. reflexivity. }
  assert (Hins : insert_in_batches E "users" users BATCH_SIZE run1.2
                 = (Ok urows, run2.2)).
  { destruct (insert_in_batches_total E "users" users BATCH_SIZE run1.2)
      as (k & evs & H & _); [discriminate |].
    subst urows run2. rewrite H. reflexivity. }
  assert (Hu : id_pool urows ≠ []) by (vm_compute; discriminate).
  destruct (generate_products_all E (λ _, True) NUM_PRODUCTS run2.2)
    as (products & st3 & Hgen' & _); [intros; exact I |].
  destruct (insert_in_batches_rows E (λ _, False) "products" products BATCH_SIZE st3)
    as (prows & st4 & Hins' & Hnone);
    [discriminate | intros n b Hsub; exact (users_only_no_products products n b Hsub) |].
  apply Forall_False_nil in Hnone. subst prows.
  exists st3, st4.
  exact (main_aborts_without_product_ids E initial run1.2 run2.2 st3 st4
           users urows products [] Hgen Hins Hu Hgen' Hins' eq_refl).
Defined.

(** ** Id pools *)

(** X18: when every returned row has an ['id'] key, the id pool has one
    id per row, in the order of the rows: the i-th id is the ['id'] of the
    i-th row (repeated ids are kept). *)
Theorem ids_of_all_rows (rows : list record) (st : state) :
  Forall (λ r, is_Some (r !! "id")) rows →
  ∃ ids, ids_of rows st = (Ok ids, st)
    ∧ length ids = length rows
    ∧ ∀ i r, rows !! i = Some r → r !! "id" = ids !! i.
Proof.
  intros Hall. exists (id_pool rows). split; [apply ids_of_run |].
  induction Hall as [| r rows [v Hv] _ [IHlen IHget]]; [split; [reflexivity |] |].
  - intros i r Hi. inversion Hi.
  - rewrite id_pool_cons, Hv. split; [cbn; f_equal; exact IHlen |].
    intros [| i] r' Hi; cbn in Hi |- *.
    + inversion Hi; subst r'. exact Hv.
    + apply IHget. exact Hi.
Qed.

Lemma ids_of_all_rows_witness :
  ∃ ids, ids_of [ ({[ "id" := VInt 7; "name" := VStr "a" ]} : record);
                  ({[ "id" := VInt 7 ]} : record) ] initial = (Ok ids, initial)
    ∧ length ids = length [ ({[ "id" := VInt 7; "name" := VStr "a" ]} : record);
                            ({[ "id" := VInt 7 ]} : record) ]
    ∧ ∀ i r, [ ({[ "id" := VInt 7; "name" := VStr "a" ]} : record);
               ({[ "id" := VInt 7 ]} : record) ] !! i = Some r →
             r !! "id" = ids !! i.
Proof.
  apply (ids_of_all_rows [ ({[ "id" := VInt 7; "name" := VStr "a" ]} : record);
                           ({[ "id" := VInt 7 ]} : record) ] initial).
  repeat constructor; eexists; reflexivity.
Defined.

Lemma id_pool_app (rows1 rows2 : list record) :
  id_pool (rows1 ++ rows2) = id_pool rows1 ++ id_pool rows2.
Proof. unfold id_pool. apply omap_app. Qed.

(** ** Runs against a backend that answers, or fails, throughout *)

(** If the backend returns an id for every non-empty batch of a table, a
    stage that inserts at least one record into it obtains an id. *)
Lemma insert_in_batches_some_id (env : Env) (table_name : string)
    (data : list record) (batch_size : Z) (st : state) :
  0 < batch_size → data ≠ [] →
  (∀ n b, b ≠ [] → id_pool (batch_rows (backend env n table_name b)) ≠ []) →
  ∃ rows st', insert_in_batches env table_name data batch_size st = (Ok rows, st')
    ∧ id_pool rows ≠ [].
Proof.
  intros Hb Hdata Hanswer.
  pose proof (insert_in_batches_run env table_name data batch_size st _
                (range_chunk_offsets (Z.of_nat (length data)) batch_size Hb ltac:(lia)))
    as Hrun.
  cbv zeta in Hrun. eexists _, _. split; [exact Hrun |].
  pose proof (ceil_div_bounds (Z.of_nat (length data)) batch_size Hb ltac:(lia)) as Hceil.
  assert (Hlen : (0 < length data)%nat) by (destruct data; [congruence | cbn; lia]).
  destruct (Z.to_nat ((Z.of_nat (length data) + batch_size - 1) / batch_size))
    as [| c] eqn:Hc.
  { assert ((Z.of_nat (length data) + batch_size - 1) / batch_size ≤ 0) by lia. nia. }
  cbn [seq map batch_calls flat_map snd]. rewrite id_pool_app.
  intros Hnil. apply app_eq_nil in Hnil as [Hnil _]. revert Hnil.
  apply Hanswer. rewrite slice_nonneg by lia.
  destruct data as [| r data]; [congruence |].
  change (Z.of_nat 0 * batch_size) with 0. cbn [Z.to_nat drop].
  destruct (Z.to_nat (0 + batch_size - 0)) eqn:Hn; [lia | discriminate].
Qed.

(** X19: if the backend returns at least one id for every non-empty batch
    sent to the users and to the products table, the run goes through all
    three stages and ends normally, whatever becomes of the inserts into
    orders: a failed order insert does not change how the run ends. *)
Theorem main_completes_when_ids_return (env : Env) (st : state) :
  (∀ n t b, t ≠ "orders" → b ≠ [] →
     id_pool (batch_rows (backend env n t b)) ≠ []) →
  (main env st).1 = Ok tt
  ∧ ncalls (main env st).2 = (ncalls st + 32)%nat.
Proof.
  intros Hanswer.
  destruct (generate_users_all env (λ _, True) NUM_USERS (logged st MsgStarting))
    as (users & st1 & Hgen & Hlen_u & _ & Hcalls1 & _); [done |].
  assert (Husers : users ≠ [])
    by (intros ->; vm_compute in Hlen_u; discriminate Hlen_u).
  destruct (insert_in_batches_stage env "users" users BATCH_SIZE st1)
    as (evs_u & Hins & _); [reflexivity |].
  destruct (insert_in_batches_some_id env "users" users BATCH_SIZE st1)
    as (urows & st2 & Hins_u & Hu);
    [reflexivity | exact Husers | intros n b; apply Hanswer; discriminate |].
  rewrite Hins in Hins_u. inversion Hins_u; subst urows st2. clear Hins_u.
  rewrite Hlen_u in Hins.
  change (Z.to_nat ((Z.of_nat (Z.to_nat NUM_USERS) + BATCH_SIZE - 1) / BATCH_SIZE))
    with 2%nat in Hins.
  destruct (generate_products_all env (λ _, True) NUM_PRODUCTS (after_calls st1 2 evs_u))
    as (products & st3 & Hgen' & Hlen_p & _ & Hcalls3 & _); [done |].
  assert (Hproducts : products ≠ [])
    by (intros ->; vm_compute in Hlen_p; discriminate Hlen_p).
  destruct (insert_in_batches_stage env "products" products BATCH_SIZE st3)
    as (evs_p & Hins' & _); [reflexivity |].
  destruct (insert_in_batches_some_id env "products" products BATCH_SIZE st3)
    as (prows & st4 & Hins_p & Hp);
    [reflexivity | exact Hproducts | intros n b; apply Hanswer; discriminate |].
  rewrite Hins' in Hins_p. inversion Hins_p; subst prows st4. clear Hins_p.
  rewrite Hlen_p in Hins'.
  change (Z.to_nat ((Z.of_nat (Z.to_nat NUM_PRODUCTS) + BATCH_SIZE - 1) / BATCH_SIZE))
    with 5%nat in Hins'.
  destruct (generate_orders_all env (λ _, True) NUM_ORDERS
              (id_pool (confirmed evs_u)) (id_pool (confirmed evs_p))
              (logged (after_calls st3 5 evs_p)
                 (MsgGeneratingOrders NUM_ORDERS (length (id_pool (confirmed evs_u)))
                    (length (id_pool (confirmed evs_p))))) Hu Hp)
    as (orders & st5 & Hgen'' & Hlen_o & _ & Hcalls5 & _); [done |].
  assert (Hord : orders ≠ [])
    by (intros ->; vm_compute in Hlen_o; discriminate Hlen_o).
  destruct (insert_in_batches_stage env "orders" orders BATCH_SIZE st5)
    as (evs_o & Hins'' & _); [reflexivity |].
  rewrite Hlen_o in Hins''.
  change (Z.to_nat ((Z.of_nat (Z.to_nat NUM_ORDERS) + BATCH_SIZE - 1) / BATCH_SIZE))
    with 25%nat in Hins''.
  rewrite (main_completes env st _ _ _ _ _ _ _ _ _ _ _ _
             Hgen Hins Hu Hgen' Hins' Hp Hgen'' Hord Hins'').
  split; [reflexivity |].
  cbn [snd logged after_calls ncalls]. rewrite Hcalls5. cbn [logged after_calls ncalls].
  rewrite Hcalls3. cbn [after_calls ncalls]. rewrite Hcalls1. cbn. lia.
Qed.

Lemma echo_backend_returns_id (n : nat) (t : string) (b : list record) :
  b ≠ [] → id_pool (batch_rows (backend (demo_env echo_backend) n t b)) ≠ [].
Proof.
  intros Hb. destruct b as [| r b]; [congruence |].
  cbn [backend demo_env echo_backend batch_rows resp_data truthy_opt default].
  cbn [imap truthy_list]. unfold id. rewrite id_pool_cons, lookup_insert_eq.
  discriminate.
Qed.

Lemma main_completes_when_ids_return_witness :
  (main (demo_env echo_backend) initial).1 = Ok tt
  ∧ ncalls (main (demo_env echo_backend) initial).2 = (ncalls initial + 32)%nat.
Proof.
  apply (main_completes_when_ids_return (demo_env echo_backend) initial).
  intros n t b _. apply echo_backend_returns_id.
Defined.

(** X20: if no insert into the users table yields a row (every call
    raises, or answers without data), the run exits after exactly two
    remote calls, both to the users table, its last line being the
    critical line of the user stage. *)
Theorem main_exits_when_users_fail (env : Env) (st : state) :
  (∀ n b, batch_rows (backend env n "users" b) = []) →
  (main env st).1 = Err SystemExit
  ∧ ncalls (main env st).2 = (ncalls st + 2)%nat
  ∧ ∃ evs, trace (main env st).2 = trace st ++ evs
      ∧ tables evs = replicate 2 "users"
      ∧ last evs = Some (Print MsgCriticalUsers).
Proof.
  intros Hfail.
  destruct (generate_users_all env (λ _, True) NUM_USERS (logged st MsgStarting))
    as (users & st1 & Hgen & Hlen_u & _ & Hcalls1 & Htr1); [done |].
  destruct (insert_in_batches_stage env "users" users BATCH_SIZE st1)
    as (evs_u & Hins & _ & Htab_u & _); [reflexivity |].
  destruct (insert_in_batches_rows env (λ _, False) "users" users BATCH_SIZE st1)
    as (urows & st2 & Hins_u & Hnone);
    [discriminate | intros n b _; rewrite Hfail; constructor |].
  apply Forall_False_nil in Hnone. subst urows.
  rewrite Hins in Hins_u. inversion Hins_u as [[Hrows Hst]]. clear Hins_u.
  rewrite Hlen_u in Hins, Htab_u.
  change (Z.to_nat ((Z.of_nat (Z.to_nat NUM_USERS) + BATCH_SIZE - 1) / BATCH_SIZE))
    with 2%nat in Hins, Htab_u.
  assert (Hu : id_pool (confirmed evs_u) = []) by (rewrite Hrows; reflexivity).
  rewrite (main_users_abort env st _ _ _ _ Hgen Hins Hu).
  cbn [fst snd logged after_calls ncalls trace].
  split; [reflexivity |]. split; [rewrite Hcalls1; reflexivity |].
  exists (Print MsgStarting :: evs_u ++ [Print MsgCriticalUsers]).
  split; [rewrite Htr1; cbn [logged trace]; rewrite <- !app_assoc; reflexivity |].
  change (Print MsgStarting :: ?l) with ([Print MsgStarting] ++ l). split.
  - rewrite !tables_app, Htab_u. reflexivity.
  - rewrite !app_assoc. apply last_snoc.
Qed.

Lemma main_exits_when_users_fail_witness :
  (main (demo_env down_backend) initial).1 = Err SystemExit
  ∧ ncalls (main (demo_env down_backend) initial).2 = (ncalls initial + 2)%nat
  ∧ ∃ evs, trace (main (demo_env down_backend) initial).2 = trace initial ++ evs
      ∧ tables evs = replicate 2 "users"
      ∧ last evs = Some (Print MsgCriticalUsers).
Proof.
  apply (main_exits_when_users_fail (demo_env down_backend) initial).
  intros n b. reflexivity.
Defined.
